(** * NVIDIA-Patcher: backup ledger and patch verification

    A shallow embedding of [src/backup_manager.py] (class [BackupManager])
    and [tools/verify_patch.py] (class [PatchVerifier]), and the properties
    of the specification that were checked against them.

    Conventions of the embedding
    - Python [bytes] are [list byte]; Python [str] is [string]; sizes and
      offsets are [N]; [keep_count] is a Python [int], hence [Z].
    - The host's file system is an explicit value inside the program state.
      Every system call consults a fault oracle first, so a call can raise
      [OSError] for reasons the model does not track (permissions, full
      disk, missing parent directory, ...).  The readings of the clock are
      arguments of [create_backup].
    - A Python method is a computation in the monad [M]: it takes the state,
      returns a value or a raised exception, and the state it leaves behind.
      Mutations made before an exception is raised survive it, as in Python.
    - [logging] calls append structured records to the [log] of the state;
      the text of the message is quoted next to each constructor. *)

From Stdlib Require Import NArith ZArith List String Ascii Lia.
From Stdlib.Strings Require Import Byte.
From stdpp Require Import base option gmap strings list sorting.

Open Scope string_scope.
Open Scope list_scope.

(** ** Python values *)

Abbreviation bytes := (list byte).

#[global] Instance byte_eq_dec : EqDecision byte := Byte.byte_eq_dec.

Module Py.

(** [needle in haystack] on bytes: [needle] occurs as a contiguous slice. *)
Fixpoint starts_with (needle haystack : bytes) : bool :=
  match needle, haystack with
  | [], _ => true
  | _ :: _, [] => false
  | a :: needle', b :: haystack' =>
      Byte.eqb a b && starts_with needle' haystack'
  end.

Fixpoint bytes_in (needle haystack : bytes) : bool :=
  starts_with needle haystack ||
  match haystack with
  | [] => false
  | _ :: rest => bytes_in needle rest
  end.

(** [content[i:j]] for [0 <= i <= j]; Python clamps both ends to the
    length, which [drop] and [take] do as well. *)
Definition slice (content : bytes) (i j : N) : bytes :=
  take (N.to_nat (j - i)) (drop (N.to_nat i) content).

Definition len (content : bytes) : N := N.of_nat (length content).

Definition bytes_eqb (a b : bytes) : bool := bool_decide (a = b).

(** [bytes.hex()] *)
Definition hex_digit (n : N) : ascii :=
  match n with
  | 0 => "0" | 1 => "1" | 2 => "2" | 3 => "3" | 4 => "4" | 5 => "5"
  | 6 => "6" | 7 => "7" | 8 => "8" | 9 => "9" | 10 => "a" | 11 => "b"
  | 12 => "c" | 13 => "d" | 14 => "e" | _ => "f"
  end%N%char.

Fixpoint hex (content : bytes) : string :=
  match content with
  | [] => ""
  | b :: rest =>
      let n := Byte.to_N b in
      String (hex_digit (n / 16)) (String (hex_digit (n mod 16)) (hex rest))
  end.

(** [struct.unpack('<H', two_bytes)[0]]: raises [struct.error] unless
    exactly two bytes are given. *)
Definition unpack_le_u16 (two_bytes : bytes) : option N :=
  match two_bytes with
  | [lo; hi] => Some (Byte.to_N lo + 256 * Byte.to_N hi)%N
  | _ => None
  end.

(** [os.path.basename]: the text after the last ["/"]. *)
Fixpoint basename (p : string) : string :=
  match p with
  | EmptyString => ""
  | String c rest =>
      if existsb (Ascii.eqb "/"%char) (list_ascii_of_string rest)
      then basename rest
      else if Ascii.eqb c "/"%char then rest else p
  end.

(** [directory / name] of [pathlib] for a relative, normalised [name]. *)
Definition path_join (directory name : string) : string :=
  directory ++ "/" ++ name.

End Py.

(** ** The host *)

Inductive node :=
| File (content : bytes)
| Dir.

Inductive syscall :=
| SysStat (p : string)
| SysOpenRead (p : string)
| SysCopy (src dst : string)
| SysMkdir (p : string)
| SysRmtree (p : string)
| SysWriteIndex.

Inductive exn :=
| OSError
| FileNotFoundError
| FileExistsError
| IsADirectoryError
| NotADirectoryError
| StructError
| KeyError.

Inductive result (A : Type) :=
| Ok (a : A)
| Raise (e : exn).
Arguments Ok {A} a.
Arguments Raise {A} e.

(** ** Records of the two programs *)

(** One entry of [files] in a backup (lines 73-78 of backup_manager.py). *)
Record file_info := {
  fi_original : string;
  fi_backup : string;
  fi_size : N;
  fi_checksum : string
}.

(** One entry of [config_files] (lines 132-135). *)
Record config_info := {
  ci_original : string;
  ci_backup : string
}.

(** The [driver_info] dictionary: only ['version'] is read here; the other
    keys are carried along untouched. *)
Record driver_info := {
  di_version : string;
  di_other : list (string * string)
}.

(** One value of [backup_data] (lines 90-97). *)
Record backup_info := {
  bi_version : string;
  bi_timestamp : string;
  bi_files : list file_info;
  bi_config_files : list config_info;
  bi_driver_info : driver_info;
  bi_created_at : string
}.

(** [backup_data] is a Python [dict]: keys are unique and iteration follows
    insertion order, which decides ties in [list_backups] and
    [_find_latest_backup]. *)
Abbreviation ledger := (list (string * backup_info)).

Inductive level := INFO | WARNING | ERROR.

Inductive message :=
(* tools/verify_patch.py *)
| MsgModulePatched (module_path : string)      (* "Модуль ... успешно пропатчен" *)
| MsgModuleNotPatched (module_path : string)   (* "Модуль ... не пропатчен или патч поврежден" *)
| MsgModuleCheckError (module_path : string)   (* "Ошибка проверки ..." *)
| MsgAnalyzeError                              (* "Ошибка анализа модуля: ..." *)
| MsgNoSignatureInfo (driver_version : string) (* "Информация о патче для версии ... не найдена" *)
| MsgMagicFound (module_path : string)         (* "Magic bytes патча найдены в ..." *)
| MsgSignatureCheckError                       (* "Ошибка проверки сигнатуры: ..." *)
| MsgPatchNotApplied (offset : N)              (* "Патч не применен по смещению ..." *)
| MsgOffsetOutOfRange (offset : N)             (* "Смещение ... выходит за пределы файла" *)
| MsgDetailCheckError                          (* "Ошибка детальной проверки: ..." *)
(* src/backup_manager.py *)
| MsgIndexLoadError                            (* "Ошибка загрузки индекса бэкапов: ..." *)
| MsgIndexSaveError                            (* "Ошибка сохранения индекса бэкапов: ..." *)
| MsgCreatingBackup (backup_path : string)     (* "Создание бэкапа в: ..." *)
| MsgCopied (module_path : string)             (* "Скопирован: ..." *)
| MsgCopyError (module_path : string)          (* "Ошибка копирования ...: ..." *)
| MsgBackupCreated (backup_name : string)      (* "Бэкап успешно создан: ..." *)
| MsgNothingCopied                             (* "Не удалось скопировать ни одного файла" *)
| MsgCreateBackupError                         (* "Ошибка создания бэкапа: ..." *)
| MsgConfigCopied (config_path : string)       (* "Скопирован конфиг: ..." *)
| MsgConfigCopyError (config_path : string)    (* "Ошибка копирования конфига ...: ..." *)
| MsgNoBackupForVersion (version : string)     (* "Бэкап для версии ... не найден" *)
| MsgRestoringFrom (backup_path : string)      (* "Восстановление из бэкапа: ..." *)
| MsgRestored (original_path : string)         (* "Восстановлен: ..." *)
| MsgChecksumMismatch (original_path : string) (* "Несовпадение контрольной суммы: ..." *)
| MsgBackupFileMissing (backup_file : string)  (* "Файл бэкапа не найден: ..." *)
| MsgRestoreError (original_path : string)     (* "Ошибка восстановления ...: ..." *)
| MsgConfigRestored (original_config : string) (* "Восстановлен конфиг: ..." *)
| MsgConfigRestoreError                        (* "Ошибка восстановления конфига: ..." *)
| MsgRestoredCount (success_count : nat)       (* "Восстановлено файлов: ..." *)
| MsgNothingRestored                           (* "Не удалось восстановить ни одного файла" *)
| MsgRestoreBackupError                        (* "Ошибка восстановления бэкапа: ..." *)
| MsgBackupNotFound (backup_name : string)     (* "Бэкап ... не найден" *)
| MsgBackupDeleted (backup_name : string)      (* "Бэкап ... удален" *)
| MsgDeleteError (backup_name : string)        (* "Ошибка удаления бэкапа ...: ..." *)
| MsgOldBackupsDeleted (deleted_count : nat)   (* "Удалено старых бэкапов: ..." *)
| MsgCleanupError                              (* "Ошибка очистки бэкапов: ..." *)
| MsgChecksumError (file_path : string).       (* "Ошибка вычисления контрольной суммы ...: ..." *)

(** ** Program state *)

Record state := {
  nodes : gmap string node;          (* what is on disk, by path *)
  fault : syscall -> bool;           (* [true]: this call raises [OSError] *)
  dir_st_size : string -> N;         (* [st_size] the host reports for a directory *)
  index_file : option ledger;        (* content of backup_index.json, if written *)
  backup_data : ledger;              (* [self.backup_data] *)
  log : list (level * message)       (* records emitted so far, oldest first *)
}.

Definition set_nodes (f : gmap string node -> gmap string node) (st : state) : state :=
  {| nodes := f (nodes st); fault := fault st; dir_st_size := dir_st_size st;
     index_file := index_file st; backup_data := backup_data st; log := log st |}.

Definition set_index_file (i : option ledger) (st : state) : state :=
  {| nodes := nodes st; fault := fault st; dir_st_size := dir_st_size st;
     index_file := i; backup_data := backup_data st; log := log st |}.

Definition set_backup_data (f : ledger -> ledger) (st : state) : state :=
  {| nodes := nodes st; fault := fault st; dir_st_size := dir_st_size st;
     index_file := index_file st; backup_data := f (backup_data st); log := log st |}.

Definition add_log (entry : level * message) (st : state) : state :=
  {| nodes := nodes st; fault := fault st; dir_st_size := dir_st_size st;
     index_file := index_file st; backup_data := backup_data st;
     log := log st ++ [entry] |}.

(** ** The monad of Python methods *)

(** [MS S A]: a computation over a store [S] that returns an [A] or raises.
    [M] is the monad of methods; [LM R] adds one local variable of type [R]
    to the store, for a method whose [except] clause reads a local that the
    [try] body was mutating. *)
Definition MS (S A : Type) : Type := S -> result A * S.

Abbreviation M := (MS state).
Abbreviation LM R := (MS (R * state)).

#[global] Instance MS_ret {S} : MRet (MS S) := fun A a st => (Ok a, st).

#[global] Instance MS_bind {S} : MBind (MS S) := fun A B k m st =>
  match m st with
  | (Ok a, st') => k a st'
  | (Raise e, st') => (Raise e, st')
  end.

Definition raise {S A} (e : exn) : MS S A := fun st => (Raise e, st).

(** [try: body / except Exception: handler] *)
Definition try_except {S A} (body : MS S A) (handler : MS S A) : MS S A := fun st =>
  match body st with
  | (Ok a, st') => (Ok a, st')
  | (Raise _, st') => handler st'
  end.

Definition gets {S A} (f : S -> A) : MS S A := fun st => (Ok (f st), st).
Definition modify {S} (f : S -> S) : MS S unit := fun st => (Ok tt, f st).

(** A call into code that only inspects the state, and may raise. *)
Definition ask {S A} (f : S -> result A) : MS S A := fun st => (f st, st).

(** A method call made from a body that has a local variable. *)
Definition call {R A} (m : M A) : LM R A := fun '(r, st) =>
  let '(x, st') := m st in (x, (r, st')).

(** [local = f(local)] *)
Definition assign {R} (f : R -> R) : LM R unit := modify (fun '(r, st) => (f r, st)).

(** [local = init / try: body / except Exception: handler / return local].
    A [return local] inside [body] is the end of that branch of [body]. *)
Definition returning_local {R} (init : R) (body handler : LM R unit) : M R := fun st =>
  match try_except body handler (init, st) with
  | (Ok _, (r, st')) => (Ok r, st')
  | (Raise e, (_, st')) => (Raise e, st')
  end.

Definition logger (l : level) (msg : message) : M unit := modify (add_log (l, msg)).

(** [for x in xs: body x] *)
Fixpoint for_each {S A} (xs : list A) (body : A -> MS S unit) : MS S unit :=
  match xs with
  | [] => mret tt
  | x :: rest => body x ;; for_each rest body
  end.

(** ** System calls *)

Module OS.

(** Every call first asks the fault oracle. *)
Definition syscall_guard (call : syscall) : M unit := fun st =>
  if fault st call then (Raise OSError, st) else (Ok tt, st).

(** [os.path.exists]: never raises. *)
Definition path_exists (p : string) : M bool :=
  gets (fun st => bool_decide (is_Some (nodes st !! p))).

(** [os.stat(p).st_size] and [os.path.getsize(p)] *)
Definition getsize (p : string) : M N :=
  syscall_guard (SysStat p) ;;
  nd ← gets (fun st => nodes st !! p);
  match nd with
  | Some (File content) => mret (Py.len content)
  | Some Dir => gets (fun st => dir_st_size st p)
  | None => raise FileNotFoundError
  end.

(** [open(p, 'rb')] followed by reads until the end of the file. *)
Definition read_bytes (p : string) : M bytes :=
  syscall_guard (SysOpenRead p) ;;
  nd ← gets (fun st => nodes st !! p);
  match nd with
  | Some (File content) => mret content
  | Some Dir => raise IsADirectoryError
  | None => raise FileNotFoundError
  end.

(** [shutil.copy2(src, dst)]: into [dst] when it is a directory. *)
Definition copy2 (src dst : string) : M unit :=
  syscall_guard (SysCopy src dst) ;;
  s ← gets (fun st => nodes st !! src);
  d ← gets (fun st => nodes st !! dst);
  match s with
  | Some (File content) =>
      let target :=
        match d with
        | Some Dir => Py.path_join dst (Py.basename src)
        | _ => dst
        end in
      modify (set_nodes (insert target (File content)))
  | Some Dir => raise IsADirectoryError
  | None => raise FileNotFoundError
  end.

(** [Path.mkdir(exist_ok=True)], with or without [parents=True]: parent
    directories are not tracked. *)
Definition mkdir (p : string) : M unit :=
  syscall_guard (SysMkdir p) ;;
  nd ← gets (fun st => nodes st !! p);
  match nd with
  | Some (File _) => raise FileExistsError
  | Some Dir => mret tt
  | None => modify (set_nodes (insert p Dir))
  end.

Definition is_under (directory p : string) : bool :=
  String.prefix (directory ++ "/") p.

(** [shutil.rmtree(p)]: the directory and everything below it. *)
Definition rmtree (p : string) : M unit :=
  syscall_guard (SysRmtree p) ;;
  nd ← gets (fun st => nodes st !! p);
  match nd with
  | Some Dir =>
      modify (set_nodes (fun m =>
        filter (fun kv => is_under p (fst kv) = false) (delete p m)))
  | Some (File _) => raise NotADirectoryError
  | None => raise FileNotFoundError
  end.

End OS.

(** ** hashlib *)

(** [hashlib.sha256]: the object, [update] and [hexdigest].  The digest
    function itself is a parameter of the development. *)
Class Hashlib := {
  sha256 : Type;
  sha256_new : sha256;
  sha256_update : sha256 -> bytes -> sha256;
  sha256_hexdigest : sha256 -> string
}.

(** * tools/verify_patch.py *)

Module PatchVerifier.

(** One element of ['expected_changes']. *)
Record change := {
  ch_offset : N;          (* 'offset' *)
  ch_original : bytes;    (* 'original' *)
  ch_patched : bytes      (* 'patched' *)
}.

(** One value of [self.patch_signatures]. *)
Record signature_info := {
  magic_bytes : bytes;
  patch_offsets : list N;
  expected_changes : list change
}.

(** [self.patch_signatures] as set up by [__init__] (lines 20-29). *)
Definition default_patch_signatures : gmap string signature_info :=
  {[ "535.274.02" :=
       {| magic_bytes := [x4e; x56; x50; x54; x01; x00; x00; x00];
          patch_offsets := [0x00123456; 0x00123ABC; 0x00123DEF]%N;
          expected_changes :=
            [ {| ch_offset := 0x00123456; ch_original := [x85; xc0];
                 ch_patched := [x90; x90] |};
              {| ch_offset := 0x00123ABC; ch_original := [x75; x0a];
                 ch_patched := [x31; xc0; xc3] |} ] |} ]}.

(** The [details] dictionary built by [_analyze_module]. *)
Record details_info := {
  size : N;
  sha256_hex : string;     (* 'sha256' *)
  magic : string;
  architecture : string;
  sections : list string
}.

Definition set_size (v : N) (d : details_info) : details_info :=
  {| size := v; sha256_hex := sha256_hex d; magic := magic d;
     architecture := architecture d; sections := sections d |}.
Definition set_sha256 (v : string) (d : details_info) : details_info :=
  {| size := size d; sha256_hex := v; magic := magic d;
     architecture := architecture d; sections := sections d |}.
Definition set_magic (v : string) (d : details_info) : details_info :=
  {| size := size d; sha256_hex := sha256_hex d; magic := v;
     architecture := architecture d; sections := sections d |}.
Definition set_architecture (v : string) (d : details_info) : details_info :=
  {| size := size d; sha256_hex := sha256_hex d; magic := magic d;
     architecture := v; sections := sections d |}.
Definition set_sections (v : list string) (d : details_info) : details_info :=
  {| size := size d; sha256_hex := sha256_hex d; magic := magic d;
     architecture := architecture d; sections := v |}.

Inductive error_entry :=
| ErrFileDoesNotExist (module_path : string)   (* "Файл не существует: ..." *)
| ErrModuleCheck.                              (* "Ошибка проверки модуля: ..." *)

(** The dictionary returned by [verify_module]; [details = None] is the
    empty dictionary it starts with. *)
Record module_result := {
  mr_module_path : string;          (* 'module_path' *)
  mr_exists : bool;                 (* 'exists' *)
  patched : bool;
  valid : bool;
  details : option details_info;
  errors : list error_entry
}.

Definition set_exists (v : bool) (r : module_result) : module_result :=
  {| mr_module_path := mr_module_path r; mr_exists := v; patched := patched r;
     valid := valid r; details := details r; errors := errors r |}.
Definition set_patched (v : bool) (r : module_result) : module_result :=
  {| mr_module_path := mr_module_path r; mr_exists := mr_exists r; patched := v;
     valid := valid r; details := details r; errors := errors r |}.
Definition set_valid (v : bool) (r : module_result) : module_result :=
  {| mr_module_path := mr_module_path r; mr_exists := mr_exists r;
     patched := patched r; valid := v; details := details r; errors := errors r |}.
Definition set_details (v : details_info) (r : module_result) : module_result :=
  {| mr_module_path := mr_module_path r; mr_exists := mr_exists r;
     patched := patched r; valid := valid r; details := Some v;
     errors := errors r |}.
Definition append_error (e : error_entry) (r : module_result) : module_result :=
  {| mr_module_path := mr_module_path r; mr_exists := mr_exists r;
     patched := patched r; valid := valid r; details := details r;
     errors := errors r ++ [e] |}.

Inductive overall :=
| unknown | not_found | fully_patched | partially_patched | not_patched.

(** The dictionary returned by [verify_driver_installation]. *)
Record installation_result := {
  driver_version : string;
  modules_checked : nat;
  modules_patched : nat;
  modules_valid : nat;
  modules : list module_result;
  overall_status : overall
}.

Section Methods.
Context `{Hashlib}.

(** [self.patch_signatures] *)
Variable patch_signatures : gmap string signature_info.

(** [_find_nvidia_modules] walks the host (uname, os.walk, glob) outside
    what [state] describes; it swallows its own errors and returns a
    list of paths. *)
Variable _find_nvidia_modules : state -> list string.

(** lines 111-129 *)
Definition section_patterns : list string :=
  [".text"; ".data"; ".rodata"; ".bss"; ".symtab"; ".strtab"].

Definition _find_sections (content : bytes) : list string :=
  filter (fun pattern => Py.bytes_in (list_byte_of_string pattern) content = true)
         section_patterns.

(** lines 73-109 *)
Definition _analyze_module (module_path : string) : M details_info :=
  returning_local
    {| size := 0; sha256_hex := ""; magic := ""; architecture := "";
       sections := [] |}
    (st_size ← call (OS.getsize module_path);
     assign (set_size st_size) ;;
     content ← call (OS.read_bytes module_path);
     assign (set_sha256 (sha256_hexdigest (sha256_update sha256_new content))) ;;
     reopened ← call (OS.read_bytes module_path);
     assign (set_magic (Py.hex (take 16 reopened))) ;;
     (if Py.starts_with [x7f; x45; x4c; x46] content then
        match Py.unpack_le_u16 (Py.slice content 18 20) with
        | Some machine =>
            assign (set_architecture
                      (if (machine =? 62)%N then "x86_64" else "x86"))
        | None => raise StructError
        end
      else mret tt) ;;
     assign (set_sections (_find_sections content)))
    (call (logger ERROR MsgAnalyzeError)).

(** lines 156-178; the loop body, with its early [return False]. *)
Fixpoint verify_changes (content : bytes) (changes : list change) : M bool :=
  match changes with
  | [] => mret true
  | change :: rest =>
      let offset := ch_offset change in
      let patched := ch_patched change in
      if (offset + Py.len patched <=? Py.len content)%N then
        let current_bytes := Py.slice content offset (offset + Py.len patched) in
        if negb (Py.bytes_eqb current_bytes patched) then
          logger WARNING (MsgPatchNotApplied offset) ;;
          mret false
        else verify_changes content rest
      else
        logger WARNING (MsgOffsetOutOfRange offset) ;;
        mret false
  end.

Definition _verify_patch_details (content : bytes) (signature : signature_info)
  : M bool :=
  try_except
    (verify_changes content (expected_changes signature))
    (logger ERROR MsgDetailCheckError ;; mret false).

(** lines 131-154 *)
Definition _check_patch_signature (module_path driver_version : string) : M bool :=
  try_except
    (content ← OS.read_bytes module_path;
     match patch_signatures !! driver_version with
     | None =>
         logger WARNING (MsgNoSignatureInfo driver_version) ;;
         mret false
     | Some signature =>
         if Py.bytes_in (magic_bytes signature) content then
           logger INFO (MsgMagicFound module_path) ;;
           _verify_patch_details content signature
         else mret false
     end)
    (logger ERROR MsgSignatureCheckError ;; mret false).

(** lines 39-71 *)
Definition verify_module (module_path driver_version : string) : M module_result :=
  returning_local
    {| mr_module_path := module_path; mr_exists := false; patched := false;
       valid := false; details := None; errors := [] |}
    (found ← call (OS.path_exists module_path);
     if negb found then
       assign (append_error (ErrFileDoesNotExist module_path))
     else
       assign (set_exists true) ;;
       d ← call (_analyze_module module_path);
       assign (set_details d) ;;
       signed ← call (_check_patch_signature module_path driver_version);
       if (signed : bool) then
         assign (set_patched true) ;;
         assign (set_valid true) ;;
         call (logger INFO (MsgModulePatched module_path))
       else
         assign (set_patched false) ;;
         call (logger WARNING (MsgModuleNotPatched module_path)))
    (assign (append_error ErrModuleCheck) ;;
     call (logger ERROR (MsgModuleCheckError module_path))).

(** lines 194-203: what one iteration does to [result]. *)
Definition count_module (result : installation_result) (module_result : module_result)
  : installation_result :=
  {| driver_version := driver_version result;
     modules_checked := modules_checked result + 1;
     modules_patched :=
       if patched module_result then modules_patched result + 1
       else modules_patched result;
     modules_valid :=
       if valid module_result then modules_valid result + 1
       else modules_valid result;
     modules := modules result ++ [module_result];
     overall_status := overall_status result |}.

(** lines 205-213 *)
Definition set_overall_status (result : installation_result) : installation_result :=
  {| driver_version := driver_version result;
     modules_checked := modules_checked result;
     modules_patched := modules_patched result;
     modules_valid := modules_valid result;
     modules := modules result;
     overall_status :=
       if Nat.eqb (modules_checked result) 0 then not_found
       else if Nat.eqb (modules_valid result) (modules_checked result)
            then fully_patched
       else if Nat.ltb 0 (modules_patched result) then partially_patched
       else not_patched |}.

Fixpoint verify_each (module_paths : list string) (driver_version : string)
  (result : installation_result) : M installation_result :=
  match module_paths with
  | [] => mret result
  | module_path :: rest =>
      module_result ← verify_module module_path driver_version;
      verify_each rest driver_version (count_module result module_result)
  end.

(** lines 180-215 *)
Definition verify_driver_installation (driver_version : string)
  : M installation_result :=
  module_paths ← gets _find_nvidia_modules;
  result ← verify_each module_paths driver_version
             {| driver_version := driver_version; modules_checked := 0;
                modules_patched := 0; modules_valid := 0; modules := [];
                overall_status := unknown |};
  mret (set_overall_status result).

End Methods.

End PatchVerifier.

(** * src/backup_manager.py *)

(** ** Python [dict] operations on the ledger *)

Module Dict.
Section Ops.
Context {V : Type}.

(** [d.get(k)] *)
Fixpoint get (k : string) (d : list (string * V)) : option V :=
  match d with
  | [] => None
  | (k', v) :: rest => if String.eqb k k' then Some v else get k rest
  end.

(** [k in d] *)
Definition contains (k : string) (d : list (string * V)) : bool :=
  match get k d with Some _ => true | None => false end.

(** [d[k] = v]: an existing key keeps its position, a new key goes last. *)
Fixpoint set (k : string) (v : V) (d : list (string * V)) : list (string * V) :=
  match d with
  | [] => [(k, v)]
  | (k', v') :: rest =>
      if String.eqb k k' then (k, v) :: rest else (k', v') :: set k v rest
  end.

(** [del d[k]] *)
Fixpoint del (k : string) (d : list (string * V)) : list (string * V) :=
  match d with
  | [] => []
  | (k', v') :: rest =>
      if String.eqb k k' then rest else (k', v') :: del k rest
  end.

Definition keys (d : list (string * V)) : list string := map fst d.

(** What every Python [dict] satisfies. *)
Definition wf (d : list (string * V)) : Prop := NoDup (keys d).
End Ops.
End Dict.

Module BackupManager.

(** One element of the list returned by [list_backups] (lines 224-231). *)
Record backup_summary := {
  name : string;
  version : string;
  timestamp : string;
  created_at : string;
  files_count : nat;
  path : string
}.

(** [sorted(backups, key=lambda x: x['timestamp'], reverse=True)]: the
    sort is stable, also with [reverse=True], so equal timestamps keep
    their order.  Insertion from the right produces that list. *)
Fixpoint insert_by_timestamp (x : backup_summary) (l : list backup_summary)
  : list backup_summary :=
  match l with
  | [] => [x]
  | y :: rest =>
      if String.ltb (timestamp x) (timestamp y)
      then y :: insert_by_timestamp x rest
      else x :: y :: rest
  end.

Definition sorted_by_timestamp_reverse (l : list backup_summary)
  : list backup_summary :=
  foldr insert_by_timestamp [] l.

(** [backups[keep_count:]] for a Python [int]. *)
Definition slice_from {A} (l : list A) (start : Z) : list A :=
  if (start <? 0)%Z
  then drop (Z.to_nat (Z.max 0 (Z.of_nat (length l) + start))) l
  else drop (Z.to_nat start) l.

(** [iter(lambda: f.read(4096), b"")]: the chunks of the file. *)
Fixpoint read_chunks (fuel : nat) (data : bytes) : list bytes :=
  match fuel, data with
  | S fuel', _ :: _ => take 4096 data :: read_chunks fuel' (drop 4096 data)
  | _, _ => []
  end.

(** lines 115-121 *)
Definition config_paths : list string :=
  [ "/etc/modprobe.d/nvidia.conf";
    "/etc/modprobe.d/nvidia-drm.conf";
    "/etc/X11/xorg.conf";
    "/etc/X11/xorg.conf.d/nvidia.conf";
    "/usr/share/X11/xorg.conf.d/nvidia.conf" ].

Section Methods.
Context `{Hashlib}.

(** [self.backup_dir] *)
Variable backup_dir : string.

(** [DriverDetector().get_nvidia_module_paths(driver_info)] of
    driver_detector.py: it walks the host outside what [state]
    describes, and may raise. *)
Variable get_nvidia_module_paths : driver_info -> state -> result (list string).

(** lines 24-34 *)
Definition load_backup_index : M unit :=
  try_except
    (stored ← gets index_file;
     match stored with
     | Some d =>
         OS.syscall_guard (SysOpenRead (Py.path_join backup_dir "backup_index.json")) ;;
         modify (set_backup_data (fun _ => d))
     | None => modify (set_backup_data (fun _ => []))
     end)
    (logger ERROR MsgIndexLoadError ;;
     modify (set_backup_data (fun _ => []))).

(** lines 36-42 *)
Definition save_backup_index : M unit :=
  try_except
    (OS.syscall_guard SysWriteIndex ;;
     d ← gets backup_data;
     modify (set_index_file (Some d)))
    (logger ERROR MsgIndexSaveError).

(** lines 282-296 *)
Definition file_digest (content : bytes) : string :=
  sha256_hexdigest
    (fold_left sha256_update (read_chunks (length content) content) sha256_new).

Definition _calculate_checksum (file_path : string) : M string :=
  try_except
    (content ← OS.read_bytes file_path;
     mret (file_digest content))
    (logger ERROR (MsgChecksumError file_path) ;;
     mret "").

(** lines 126-138: one iteration; [Some] is what gets appended. *)
Definition backup_config_file (config_backup_dir config_path : string)
  : M (option config_info) :=
  found ← OS.path_exists config_path;
  if (found : bool) then
    try_except
      (let backup_config := Py.path_join config_backup_dir (Py.basename config_path) in
       OS.copy2 config_path backup_config ;;
       logger INFO (MsgConfigCopied config_path) ;;
       mret (Some {| ci_original := config_path; ci_backup := backup_config |}))
      (logger ERROR (MsgConfigCopyError config_path) ;;
       mret None)
  else mret None.

Fixpoint backup_config_loop (config_backup_dir : string) (todo : list string)
  (config_files : list config_info) : M (list config_info) :=
  match todo with
  | [] => mret config_files
  | config_path :: rest =>
      appended ← backup_config_file config_backup_dir config_path;
      backup_config_loop config_backup_dir rest
        (match appended with
         | Some c => config_files ++ [c]
         | None => config_files
         end)
  end.

(** lines 112-140 *)
Definition _backup_config_files (backup_path : string) : M (list config_info) :=
  let config_backup_dir := Py.path_join backup_path "config" in
  OS.mkdir config_backup_dir ;;
  backup_config_loop config_backup_dir config_paths [].

(** lines 63-84: one iteration; [Some] is what gets appended, together
    with [success_count += 1]. *)
Definition backup_module_file (backup_path module_path : string)
  : M (option file_info) :=
  try_except
    (found ← OS.path_exists module_path;
     if (found : bool) then
       let backup_file := Py.path_join backup_path (Py.basename module_path) in
       OS.copy2 module_path backup_file ;;
       st_size ← OS.getsize module_path;
       checksum ← _calculate_checksum module_path;
       logger INFO (MsgCopied module_path) ;;
       mret (Some {| fi_original := module_path; fi_backup := backup_file;
                     fi_size := st_size; fi_checksum := checksum |})
     else mret None)
    (logger ERROR (MsgCopyError module_path) ;;
     mret None).

Fixpoint backup_module_loop (backup_path : string) (module_paths : list string)
  (backed_up_files : list file_info) (success_count : nat)
  : M (list file_info * nat) :=
  match module_paths with
  | [] => mret (backed_up_files, success_count)
  | module_path :: rest =>
      appended ← backup_module_file backup_path module_path;
      match appended with
      | Some f =>
          backup_module_loop backup_path rest (backed_up_files ++ [f])
            (success_count + 1)
      | None => backup_module_loop backup_path rest backed_up_files success_count
      end
  end.

(** [f"nvidia_{version}_{timestamp}"] *)
Definition backup_name_of (version timestamp : string) : string :=
  "nvidia_" ++ version ++ "_" ++ timestamp.

(** lines 44-110.  [timestamp] and [now_iso] are what the two readings
    of [datetime.datetime.now()] give, as [strftime("%Y%m%d_%H%M%S")]
    and as [isoformat()]. *)
Definition create_backup (driver_info : driver_info) (timestamp now_iso : string)
  : M (option string) :=
  try_except
    (let version := di_version driver_info in
     let backup_name := backup_name_of version timestamp in
     let backup_path := Py.path_join backup_dir backup_name in
     OS.mkdir backup_path ;;
     logger INFO (MsgCreatingBackup backup_path) ;;
     module_paths ← ask (get_nvidia_module_paths driver_info);
     copied ← backup_module_loop backup_path module_paths [] 0;
     let backed_up_files := fst copied in
     let success_count := snd copied in
     config_files ← _backup_config_files backup_path;
     modify (set_backup_data
               (Dict.set backup_name
                  {| bi_version := version; bi_timestamp := timestamp;
                     bi_files := backed_up_files;
                     bi_config_files := config_files;
                     bi_driver_info := driver_info;
                     bi_created_at := now_iso |})) ;;
     save_backup_index ;;
     if Nat.ltb 0 success_count then
       logger INFO (MsgBackupCreated backup_name) ;;
       mret (Some backup_path)
     else
       logger ERROR MsgNothingCopied ;;
       mret None)
    (logger ERROR MsgCreateBackupError ;;
     mret None).

(** lines 205-217 *)
Definition latest_step (version : string) (acc : option string * option string)
  (item : string * backup_info) : option string * option string :=
  let backup_name := fst item in
  let backup_info := snd item in
  if String.eqb (bi_version backup_info) version then
    let timestamp := bi_timestamp backup_info in
    if negb (String.eqb timestamp "") &&
       match snd acc with
       | None => true
       | Some latest_timestamp => String.ltb latest_timestamp timestamp
       end
    then (Some backup_name, Some timestamp)
    else acc
  else acc.

Definition _find_latest_backup (version : string) : M (option string) :=
  d ← gets backup_data;
  mret (fst (fold_left (latest_step version) d (None, None))).

(** lines 161-179: one iteration; [true] is [success_count += 1]. *)
Definition restore_file (file_info : file_info) : M bool :=
  let original_path := fi_original file_info in
  let backup_path_file := fi_backup file_info in
  try_except
    (found ← OS.path_exists backup_path_file;
     if (found : bool) then
       current_checksum ← _calculate_checksum backup_path_file;
       if String.eqb current_checksum (fi_checksum file_info) then
         OS.copy2 backup_path_file original_path ;;
         logger INFO (MsgRestored original_path) ;;
         mret true
       else
         logger WARNING (MsgChecksumMismatch original_path) ;;
         mret false
     else
       logger WARNING (MsgBackupFileMissing backup_path_file) ;;
       mret false)
    (logger ERROR (MsgRestoreError original_path) ;;
     mret false).

Fixpoint restore_files (files : list file_info) (success_count : nat) : M nat :=
  match files with
  | [] => mret success_count
  | file_info :: rest =>
      restored ← restore_file file_info;
      restore_files rest (if (restored : bool) then success_count + 1 else success_count)
  end.

(** lines 182-192: one iteration. *)
Definition restore_config (config_info : config_info) : M unit :=
  try_except
    (found ← OS.path_exists (ci_backup config_info);
     if (found : bool) then
       OS.copy2 (ci_backup config_info) (ci_original config_info) ;;
       logger INFO (MsgConfigRestored (ci_original config_info))
     else mret tt)
    (logger ERROR MsgConfigRestoreError).

(** lines 142-203 *)
Definition restore_backup (driver_info : driver_info) : M bool :=
  try_except
    (let version := di_version driver_info in
     latest_backup ← _find_latest_backup version;
     match latest_backup with
     | Some (String _ _ as latest_backup) =>
         looked_up ← gets (fun st => Dict.get latest_backup (backup_data st));
         match looked_up with
         | None => raise KeyError
         | Some backup_info =>
             logger INFO (MsgRestoringFrom (Py.path_join backup_dir latest_backup)) ;;
             success_count ← restore_files (bi_files backup_info) 0;
             for_each (bi_config_files backup_info) restore_config ;;
             if Nat.ltb 0 success_count then
               logger INFO (MsgRestoredCount success_count) ;;
               mret true
             else
               logger ERROR MsgNothingRestored ;;
               mret false
         end
     | _ =>
         logger ERROR (MsgNoBackupForVersion version) ;;
         mret false
     end)
    (logger ERROR MsgRestoreBackupError ;;
     mret false).

(** lines 219-233 *)
Definition summary_of (item : string * backup_info) : backup_summary :=
  {| name := fst item;
     version := bi_version (snd item);
     timestamp := bi_timestamp (snd item);
     created_at := bi_created_at (snd item);
     files_count := length (bi_files (snd item));
     path := Py.path_join backup_dir (fst item) |}.

Definition list_backups : M (list backup_summary) :=
  d ← gets backup_data;
  mret (sorted_by_timestamp_reverse (map summary_of d)).

(** lines 235-257 *)
Definition delete_backup (backup_name : string) : M bool :=
  try_except
    (d ← gets backup_data;
     if negb (Dict.contains backup_name d) then
       logger ERROR (MsgBackupNotFound backup_name) ;;
       mret false
     else
       let backup_path := Py.path_join backup_dir backup_name in
       found ← OS.path_exists backup_path;
       (if (found : bool) then OS.rmtree backup_path else mret tt) ;;
       modify (set_backup_data (Dict.del backup_name)) ;;
       save_backup_index ;;
       logger INFO (MsgBackupDeleted backup_name) ;;
       mret true)
    (logger ERROR (MsgDeleteError backup_name) ;;
     mret false).

Fixpoint delete_each (to_delete : list backup_summary) (deleted_count : nat) : M nat :=
  match to_delete with
  | [] => mret deleted_count
  | backup :: rest =>
      deleted ← delete_backup (name backup);
      delete_each rest (if (deleted : bool) then deleted_count + 1 else deleted_count)
  end.

(** lines 259-280 *)
Definition cleanup_old_backups (keep_count : Z) : M nat :=
  try_except
    (backups ← list_backups;
     if (Z.of_nat (length backups) <=? keep_count)%Z then mret 0
     else
       let to_delete := slice_from backups keep_count in
       deleted_count ← delete_each to_delete 0;
       logger INFO (MsgOldBackupsDeleted deleted_count) ;;
       mret deleted_count)
    (logger ERROR MsgCleanupError ;;
     mret 0).

End Methods.

End BackupManager.

(** * Vocabulary of the properties *)

Create HintDb run.

Definition same_host (st st' : state) : Prop :=
  nodes st' = nodes st /\ fault st' = fault st /\ dir_st_size st' = dir_st_size st /\
  index_file st' = index_file st /\ backup_data st' = backup_data st.

(** [st'] is [st] with more log records and nothing else changed. *)
Definition only_logged (st st' : state) : Prop :=
  same_host st st' /\ exists more, log st' = log st ++ more.

(** A file whose content can be read. *)
Definition readable (st : state) (p : string) (content : bytes) : Prop :=
  nodes st !! p = Some (File content) /\ fault st (SysOpenRead p) = false.

(** [st'] is [st] with other files and more log records: the ledger, its
    stored index and the behaviour of the host are the same. *)
Definition ledger_kept (st st' : state) : Prop :=
  fault st' = fault st /\ dir_st_size st' = dir_st_size st /\
  index_file st' = index_file st /\ backup_data st' = backup_data st.

(** [st'] has the same host behaviour as [st] and no regular file that
    [st] did not already have with the same content. *)
Definition shrunk (st st' : state) : Prop :=
  fault st' = fault st /\
  forall p content, nodes st' !! p = Some (File content) ->
                    nodes st !! p = Some (File content).

(** A computation whose final state is related to its initial state by [R],
    whatever it returns or raises.  [proj] finds the state in the store. *)
Definition preserves {S A} (R : relation state) (proj : S -> state) (m : MS S A) : Prop :=
  forall s, R (proj s) (proj (snd (m s))).

(** A computation that only logs. *)
Abbreviation quiet := (preserves only_logged).

(** A computation that never raises. *)
Definition total {S A} (m : MS S A) : Prop :=
  forall s, exists a, fst (m s) = Ok a.

(** [open(p, 'rb').read()] succeeds. *)
Definition can_read (st : state) (p : string) : bool :=
  negb (fault st (SysOpenRead p)) &&
  match nodes st !! p with Some (File _) => true | _ => false end.

(** Record [e] was emitted between [st] and [st']. *)
Definition logged (st st' : state) (e : level * message) : Prop :=
  exists more, log st' = log st ++ more /\ e ∈ more.

(** [os.path.exists(p)] *)
Definition present (st : state) (p : string) : bool :=
  bool_decide (is_Some (nodes st !! p)).

Module PatchVerifierSpec.
Import PatchVerifier.

(** A change record is confirmed in [content]: in range, and the bytes
    there are the patched ones. *)
Definition change_confirmed (content : bytes) (c : change) : bool :=
  (ch_offset c + Py.len (ch_patched c) <=? Py.len content)%N &&
  Py.bytes_eqb
    (Py.slice content (ch_offset c) (ch_offset c + Py.len (ch_patched c)))
    (ch_patched c).

(** What [verify_changes] logs for a change that is not confirmed. *)
Definition change_warning (content : bytes) (c : change) : level * message :=
  if (ch_offset c + Py.len (ch_patched c) <=? Py.len content)%N
  then (WARNING, MsgPatchNotApplied (ch_offset c))
  else (WARNING, MsgOffsetOutOfRange (ch_offset c)).

(** Byte index [i] lies inside the patched region of [c]. *)
Definition in_patched_region (c : change) (i : nat) : Prop :=
  (ch_offset c <= N.of_nat i < ch_offset c + Py.len (ch_patched c))%N.

(** The precedence of the four fleet statuses, in the words of the
    specification. *)
Definition precedence (results : list module_result) : overall :=
  match results with
  | [] => not_found
  | _ :: _ =>
      if forallb valid results then fully_patched
      else if existsb patched results then partially_patched
      else not_patched
  end.

Fixpoint countb {A} (f : A -> bool) (l : list A) : nat :=
  match l with
  | [] => 0
  | x :: rest => (if f x then 1 else 0) + countb f rest
  end.

(** [result] before the loop of [verify_driver_installation]. *)
Definition initial_result (driver_version : string) : installation_result :=
  {| driver_version := driver_version; modules_checked := 0;
     modules_patched := 0; modules_valid := 0; modules := [];
     overall_status := unknown |}.

End PatchVerifierSpec.

Module BackupManagerSpec.
Import BackupManager.

Section Vocabulary.
Context `{Hashlib}.
Variable backup_dir : string.
Variable get_nvidia_module_paths : driver_info -> state -> result (list string).

(** Lines 47-87 of [create_backup]: everything that runs before the
    index is updated, with the values the update is built from. *)
Definition before_index_update (driver_info : driver_info) (timestamp : string)
  : M (list file_info * nat * list config_info) :=
  let backup_path :=
    Py.path_join backup_dir (backup_name_of (di_version driver_info) timestamp) in
  OS.mkdir backup_path ;;
  logger INFO (MsgCreatingBackup backup_path) ;;
  module_paths ← ask (get_nvidia_module_paths driver_info);
  copied ← backup_module_loop backup_path module_paths [] 0;
  config_files ← _backup_config_files backup_path;
  mret (fst copied, snd copied, config_files).

(** The value stored under the backup name (lines 90-97). *)
Definition new_entry (driver_info : driver_info) (timestamp now_iso : string)
  (files : list file_info) (config_files : list config_info) : backup_info :=
  {| bi_version := di_version driver_info; bi_timestamp := timestamp;
     bi_files := files; bi_config_files := config_files;
     bi_driver_info := driver_info; bi_created_at := now_iso |}.

(** Whether each record of [files], in turn, was restored: what
    [restore_file] returned for it in the state the loop had reached. *)
Fixpoint restore_outcomes (files : list file_info) (st : state) : list bool :=
  match files with
  | [] => []
  | file_info :: rest =>
      let '(r, st1) := restore_file file_info st in
      match r with Ok b => b | Raise _ => false end :: restore_outcomes rest st1
  end.

(** The state in which the [restore_file] of the record after [before]
    runs. *)
Definition state_after (before : list file_info) (st : state) : state :=
  snd (restore_files before 0 st).

End Vocabulary.

(** Where [shutil.copy2(src, dst)] writes. *)
Definition copy_target (st : state) (src dst : string) : string :=
  match nodes st !! dst with
  | Some Dir => Py.path_join dst (Py.basename src)
  | _ => dst
  end.

(** Deleting the snapshot directory [p] raises: the host refuses, or [p]
    is a regular file. *)
Definition delete_blocked (st : state) (p : string) : Prop :=
  fault st (SysRmtree p) = true \/ exists content, nodes st !! p = Some (File content).

(** [a] is not older than [b]. *)
Definition not_older (a b : backup_summary) : Prop :=
  String.ltb (timestamp a) (timestamp b) = false.

End BackupManagerSpec.

(** * Sample inputs *)

Module Samples.
Import PatchVerifier.

(** A stand-in digest: the hexadecimal dump of everything fed to it,
    behind a fixed tag. *)
#[export] Instance dump_hashlib : Hashlib := {|
  sha256 := bytes;
  sha256_new := [];
  sha256_update := fun h chunk => h ++ chunk;
  sha256_hexdigest := fun h => String.append "dump:" (Py.hex h)
|}.

Definition no_faults : syscall -> bool := fun _ => false.

Definition host (files : list (string * node)) (faults : syscall -> bool) : state :=
  {| nodes := list_to_map files; fault := faults; dir_st_size := fun _ => 4096%N;
     index_file := None; backup_data := []; log := [] |}.

Definition marker : bytes := [x4e; x56; x50; x54; x01; x00; x00; x00].

(** A module that carries the marker of 535.274.02 and nothing else. *)
Definition marked_only : state := host [("/m/nvidia.ko", File marker)] no_faults.

(** A catalogue with one short signature, for files of a few bytes. *)
Definition small_signatures : gmap string signature_info :=
  {[ "1.0" := {| magic_bytes := [x4e; x56];
                 patch_offsets := [2%N];
                 expected_changes :=
                   [ {| ch_offset := 2; ch_original := [x85; xc0];
                        ch_patched := [x90; x90] |} ] |} ]}.

Definition small_patched : bytes := [x4e; x56; x90; x90].
Definition small_flipped : bytes := [x4e; x56; x90; x91].

Definition small_host (content : bytes) : state :=
  host [("/m/nvidia.ko", File content)] no_faults.

Definition no_modules : state -> list string := fun _ => [].

(** A host on which module discovery finds nothing. *)
Definition finds_nothing : driver_info -> state -> result (list string) :=
  fun _ _ => Ok [].

Definition driver_535 : driver_info :=
  {| di_version := "535.274.02"; di_other := [] |}.

Definition old_entry : backup_info :=
  {| bi_version := "535.274.02"; bi_timestamp := "20240101_000000";
     bi_files := [ {| fi_original := "/lib/modules/nvidia.ko";
                      fi_backup := "/b/nvidia_535.274.02_20240101_000000/nvidia.ko";
                      fi_size := 4; fi_checksum := "dump:4e569090" |} ];
     bi_config_files := [];
     bi_driver_info := driver_535;
     bi_created_at := "2024-01-01T00:00:00" |}.

(** Module discovery finds the one module of the sample hosts. *)
Definition finds_nvidia_ko : driver_info -> state -> result (list string) :=
  fun _ _ => Ok ["/lib/modules/nvidia.ko"].

(** A ledger with one backup, taken at 2024-01-01 00:00:00, and the live
    module, which has been modified since. *)
Definition one_backup (faults : syscall -> bool) : state :=
  {| nodes := list_to_map
                [ ("/lib/modules/nvidia.ko", File small_flipped);
                  ("/b/nvidia_535.274.02_20240101_000000", Dir);
                  ("/b/nvidia_535.274.02_20240101_000000/nvidia.ko",
                   File small_patched) ];
     fault := faults; dir_st_size := fun _ => 4096%N;
     index_file := Some [("nvidia_535.274.02_20240101_000000", old_entry)];
     backup_data := [("nvidia_535.274.02_20240101_000000", old_entry)];
     log := [] |}.

(** A snapshot of two modules in which the copy of [b.ko] has been
    corrupted: its recorded checksum is that of the byte [02] alone. *)
Definition record_a : file_info :=
  {| fi_original := "/lib/a.ko"; fi_backup := "/b/s/a.ko";
     fi_size := 1; fi_checksum := "dump:01" |}.

Definition record_b : file_info :=
  {| fi_original := "/lib/b.ko"; fi_backup := "/b/s/b.ko";
     fi_size := 1; fi_checksum := "dump:02" |}.

Definition corrupted_snapshot : state :=
  host [ ("/b/s", Dir);
         ("/b/s/a.ko", File [x01]);
         ("/b/s/b.ko", File [x03]);
         ("/lib/a.ko", File [xaa]);
         ("/lib/b.ko", File [xbb]) ] no_faults.

Definition entry_at (timestamp : string) : backup_info :=
  {| bi_version := "1"; bi_timestamp := timestamp; bi_files := [];
     bi_config_files := []; bi_driver_info := {| di_version := "1"; di_other := [] |};
     bi_created_at := "" |}.

(** Three backups, recorded out of chronological order. *)
Definition three_backups (faults : syscall -> bool) : state :=
  {| nodes := list_to_map
                [ ("/b/nvidia_1_20240101_000000", Dir);
                  ("/b/nvidia_1_20240301_000000", Dir);
                  ("/b/nvidia_1_20240201_000000", Dir) ];
     fault := faults; dir_st_size := fun _ => 4096%N;
     index_file := None;
     backup_data :=
       [ ("nvidia_1_20240101_000000", entry_at "20240101_000000");
         ("nvidia_1_20240301_000000", entry_at "20240301_000000");
         ("nvidia_1_20240201_000000", entry_at "20240201_000000") ];
     log := [] |}.

End Samples.

From Stdlib Require Import DecimalString.


(** * Further vocabulary *)

Module LedgerSpec.
Import BackupManager.

(** An entry [_find_latest_backup] may return for [version]: the version
    matches and the timestamp is not empty. *)
Definition candidate (version : string) (item : string * backup_info) : Prop :=
  bi_version (snd item) = version /\ bi_timestamp (snd item) <> "".

(** What the loop of [_find_latest_backup] has established after the
    entries [seen]. *)
Definition latest_so_far (version : string) (seen : ledger)
    (acc : option string * option string) : Prop :=
  match acc with
  | (None, None) => forall item, item ∈ seen -> ~ candidate version item
  | (Some k, Some t) =>
      exists info, (k, info) ∈ seen /\ candidate version (k, info) /\
        t = bi_timestamp info /\
        forall item, item ∈ seen -> bi_version (snd item) = version ->
                     String.ltb t (bi_timestamp (snd item)) = false
  | _ => False
  end.

(** The entries of a list with timestamp [t], in their order. *)
Definition with_timestamp (t : string) (l : list backup_summary)
  : list backup_summary :=
  filter (fun b => timestamp b = t) l.

End LedgerSpec.

(** * Output of the command-line tool *)

(** Text as Python builds it. *)
Module Str.

Definition newline : string := String "010"%char "".

(** [s * n] *)
Fixpoint repeat (s : string) (n : nat) : string :=
  match n with
  | O => ""
  | S n' => s +:+ repeat s n'
  end.

(** [str(n)] for an [int] that is not negative *)
Definition of_nat (n : nat) : string := NilZero.string_of_uint (Nat.to_uint n).
Definition of_N (n : N) : string := NilZero.string_of_uint (N.to_uint n).

(** [sep.join(l)] *)
Definition join (sep : string) (l : list string) : string := String.concat sep l.

(** [if s:] *)
Definition truthy (s : string) : bool := negb (String.eqb s "").

(** [if s:] for an optional string: [None] and [''] are both false. *)
Definition given (value : option string) : option string :=
  match value with
  | Some s => if truthy s then Some s else None
  | None => None
  end.

(** [s[:n]], for text that has one byte per character *)
Fixpoint prefix (n : nat) (s : string) : string :=
  match n, s with
  | S n', String c s' => String c (prefix n' s')
  | _, _ => ""
  end.

End Str.

(** Records of [generate_report] and of [verify_module_integrity], which
    [message] does not list. *)
Inductive session_message :=
(* tools/verify_patch.py *)
| MsgReportSaved (output_file : string)       (* "Отчет сохранен в: ..." *)
| MsgReportSaveError                          (* "Ошибка сохранения отчета: ..." *)
(* src/driver_detector.py *)
| MsgIntegrityError (module_path : string).   (* "Ошибка проверки целостности ...: ..." *)

(** What a run of the tool has besides [state]. *)
Record session := {
  session_log : list (level * session_message);   (* records, oldest first *)
  stdout : list string;            (* the arguments of [print], oldest first *)
  open_w_fault : string -> bool    (* [true]: [open(p, 'w')] raises [OSError] *)
}.

Definition add_session_log (entry : level * session_message) (s : session) : session :=
  {| session_log := session_log s ++ [entry]; stdout := stdout s;
     open_w_fault := open_w_fault s |}.

Definition add_stdout (text : string) (s : session) : session :=
  {| session_log := session_log s; stdout := stdout s ++ [text];
     open_w_fault := open_w_fault s |}.

(** The monad of the code that prints, writes a report or logs a
    [session_message]: a [session] beside the [state]. *)
Abbreviation SM := (LM session).

Definition session_logger (l : level) (msg : session_message) : SM unit :=
  assign (add_session_log (l, msg)).

Definition print (text : string) : SM unit := assign (add_stdout text).

(** [with open(p, 'w', encoding='utf-8') as f: f.write(text)]; parent
    directories are not tracked. *)
Definition write_text (p : string) (text : string) : SM unit := fun '(s, st) =>
  if open_w_fault s p then (Raise OSError, (s, st))
  else
    match nodes st !! p with
    | Some Dir => (Raise IsADirectoryError, (s, st))
    | _ => (Ok tt, (s, set_nodes (insert p (File (list_byte_of_string text))) st))
    end.

(** [d[key]] for a key that may be missing. *)
Definition item {S A} (value : option A) : MS S A :=
  match value with
  | Some a => mret a
  | None => raise KeyError
  end.

Module PatchReport.
Import PatchVerifier.

(** The dictionary [generate_report] is given: [None] is a missing key.
    The elements of ['modules'] are results of [verify_module], which have
    every key. *)
Record verification_result := {
  vr_driver_version : option string;      (* 'driver_version' *)
  vr_modules_checked : option nat;        (* 'modules_checked' *)
  vr_modules_patched : option nat;        (* 'modules_patched' *)
  vr_modules_valid : option nat;          (* 'modules_valid' *)
  vr_modules : option (list module_result);   (* 'modules' *)
  vr_overall_status : option string       (* 'overall_status' *)
}.

(** The value of ['overall_status'] in a result of
    [verify_driver_installation]. *)
Definition status_name (status : overall) : string :=
  match status with
  | unknown => "unknown"
  | not_found => "not_found"
  | fully_patched => "fully_patched"
  | partially_patched => "partially_patched"
  | not_patched => "not_patched"
  end.

(** A result of [verify_driver_installation] as the dictionary it is. *)
Definition as_dict (result : installation_result) : verification_result :=
  {| vr_driver_version := Some (driver_version result);
     vr_modules_checked := Some (modules_checked result);
     vr_modules_patched := Some (modules_patched result);
     vr_modules_valid := Some (modules_valid result);
     vr_modules := Some (modules result);
     vr_overall_status := Some (status_name (overall_status result)) |}.

(** The arguments [main] gets from [parser.parse_args()]. *)
Record arguments := {
  arg_module : option string;     (* --module *)
  arg_version : string;           (* --version, '535.274.02' when not given *)
  arg_output : option string;     (* --output *)
  arg_json : bool;                (* --json *)
  arg_verbose : bool              (* --verbose *)
}.

Section Methods.
Context `{Hashlib}.

(** [str(e)] of the exception an "Ошибка проверки модуля" entry was made
    from; [error_entry] does not keep it. *)
Variable exception_text : string.

(** [json.dumps(result, indent=2, ensure_ascii=False)] *)
Variable json_dumps_module : module_result -> string.
Variable json_dumps_installation : installation_result -> string.

Variable _find_nvidia_modules : state -> list string.

(** The strings [verify_module] appends to ['errors'] (lines 52, 68). *)
Definition error_text (error : error_entry) : string :=
  match error with
  | ErrFileDoesNotExist module_path => "Файл не существует: " +:+ module_path
  | ErrModuleCheck => "Ошибка проверки модуля: " +:+ exception_text
  end.

Definition yes_no (b : bool) : string := if b then "Да" else "Нет".

(** lines 277-296: what one iteration appends to [report]. *)
Definition module_lines (i : nat) (module : module_result) : list string :=
  [ Str.of_nat i +:+ ". " +:+ mr_module_path module;
    "   Существует: " +:+ yes_no (mr_exists module);
    "   Пропатчен: " +:+ yes_no (patched module);
    "   Валиден: " +:+ yes_no (valid module) ] ++
  match details module with
  | Some details =>
      ["   Размер: " +:+ Str.of_N (size details) +:+ " байт"] ++
      (if Str.truthy (sha256_hex details)
       then ["   SHA256: " +:+ Str.prefix 16 (sha256_hex details) +:+ "..."]
       else []) ++
      (if Str.truthy (architecture details)
       then ["   Архитектура: " +:+ architecture details]
       else [])
  | None => []
  end ++
  match errors module with
  | [] => []
  | _ :: _ =>
      "   Ошибки:" :: map (fun error => "     - " +:+ error_text error) (errors module)
  end ++
  [""].

(** [for i, module in enumerate(modules, i)] *)
Fixpoint modules_lines (i : nat) (modules : list module_result) : list string :=
  match modules with
  | [] => []
  | module :: rest => module_lines i module ++ modules_lines (S i) rest
  end.

(** lines 302-314 *)
Definition recommendations (status : string) : list string :=
  if String.eqb status "fully_patched" then
    ["✓ Все модули успешно пропатчены и валидны"]
  else if String.eqb status "partially_patched" then
    ["⚠ Некоторые модули пропатчены, но есть проблемы";
     "  Рекомендуется повторить патчинг"]
  else if String.eqb status "not_patched" then
    ["✗ Модули не пропатчены";
     "  Необходимо применить патч"]
  else if String.eqb status "not_found" then
    ["✗ Модули NVIDIA не найдены";
     "  Убедитесь, что драйвер установлен"]
  else [].

(** lines 259-314: the list [report], with the keys read in the order of
    the source. *)
Definition report_lines {S} (verification_result : verification_result)
  : MS S (list string) :=
  let report :=
    [ Str.repeat "=" 60; "ОТЧЕТ О ПРОВЕРКЕ ПАТЧА NVIDIA ДРАЙВЕРА";
      Str.repeat "=" 60; "" ] in
  driver_version ← item (vr_driver_version verification_result);
  let report := report ++ ["Версия драйвера: " +:+ driver_version] in
  modules_checked ← item (vr_modules_checked verification_result);
  let report := report ++ ["Проверено модулей: " +:+ Str.of_nat modules_checked] in
  modules_patched ← item (vr_modules_patched verification_result);
  let report := report ++ ["Пропатчено модулей: " +:+ Str.of_nat modules_patched] in
  modules_valid ← item (vr_modules_valid verification_result);
  let report := report ++ ["Валидных модулей: " +:+ Str.of_nat modules_valid] in
  overall_status ← item (vr_overall_status verification_result);
  let report := report ++ ["Общий статус: " +:+ overall_status; ""] in
  let report := report ++ ["ДЕТАЛИ ПО МОДУЛЯМ:"; Str.repeat "-" 40] in
  modules ← item (vr_modules verification_result);
  let report := report ++ modules_lines 1 modules in
  let report := report ++ ["РЕКОМЕНДАЦИИ:"; Str.repeat "-" 20] in
  status ← item (vr_overall_status verification_result);
  mret (report ++ recommendations status).

(** lines 257-327; [output_file = None] is the default. *)
Definition generate_report (verification_result : verification_result)
    (output_file : option string) : SM string :=
  report ← report_lines verification_result;
  let report_text := Str.join Str.newline report in
  match Str.given output_file with
  | Some output_file =>
      try_except
        (write_text output_file report_text ;;
         session_logger INFO (MsgReportSaved output_file))
        (session_logger ERROR MsgReportSaveError)
  | None => mret tt
  end ;;
  mret report_text.

(** lines 329-365, after the arguments are parsed.  [--verbose] only
    lowers the level of the root logger, and nothing here logs below
    [INFO]. *)
Definition main (args : arguments) : SM unit :=
  let patch_signatures := default_patch_signatures in
  match Str.given (arg_module args) with
  | Some module_path =>
      result ← call (verify_module patch_signatures module_path (arg_version args));
      if arg_json args then print (json_dumps_module result)
      else
        report ← generate_report
                   {| vr_driver_version := None; vr_modules_checked := None;
                      vr_modules_patched := None; vr_modules_valid := None;
                      vr_modules := Some [result];
                      vr_overall_status := Some "custom" |}
                   None;
        print report
  | None =>
      result ← call (verify_driver_installation patch_signatures
                       _find_nvidia_modules (arg_version args));
      if arg_json args then print (json_dumps_installation result)
      else
        report ← generate_report (as_dict result) (arg_output args);
        print report
  end.

End Methods.

End PatchReport.

(** * src/driver_detector.py *)

Module DriverDetector.

(** lines 240-261 *)
Definition verify_module_integrity (module_path : string) : SM bool :=
  try_except
    (found ← call (OS.path_exists module_path);
     if negb found then mret false
     else
       file_size ← call (OS.getsize module_path);
       if (file_size <? 1024)%N then mret false
       else
         content ← call (OS.read_bytes module_path);
         let magic := take 4 content in
         if negb (Py.bytes_eqb magic [x7f; x45; x4c; x46]) then mret false
         else mret true)
    (session_logger ERROR (MsgIntegrityError module_path) ;;
     mret false).

End DriverDetector.

(** * Vocabulary for the report *)

Module ReportSpec.
Import PatchVerifier PatchVerifierSpec PatchReport.

(** The state of the host is the same and nothing was printed or logged
    by the session. *)
Definition session_kept (s s' : session) : Prop :=
  session_log s' = session_log s /\ stdout s' = stdout s /\
  open_w_fault s' = open_w_fault s.

(** [open(p, 'w')] succeeds. *)
Definition can_write (s : session) (st : state) (p : string) : bool :=
  negb (open_w_fault s p) &&
  match nodes st !! p with Some Dir => false | _ => true end.

(** The advice the report gives for each status of the precedence. *)
Definition advice (status : overall) : list string :=
  match status with
  | fully_patched => ["✓ Все модули успешно пропатчены и валидны"]
  | partially_patched =>
      ["⚠ Некоторые модули пропатчены, но есть проблемы";
       "  Рекомендуется повторить патчинг"]
  | not_patched => ["✗ Модули не пропатчены"; "  Необходимо применить патч"]
  | not_found =>
      ["✗ Модули NVIDIA не найдены"; "  Убедитесь, что драйвер установлен"]
  | unknown => []
  end.

End ReportSpec.

(** * Further sample inputs *)

Module MoreSamples.
Import Samples.

(** The host cannot read the index file. *)
Definition index_unreadable : syscall -> bool := fun call =>
  match call with
  | SysOpenRead p => String.eqb p "/b/backup_index.json"
  | _ => false
  end.

(** A file that starts like an ELF object, mentions a section name and
    ends before the header does. *)
Definition short_elf : bytes :=
  [x7f; x45; x4c; x46; x02; x01; x01; x00; x2e; x74; x65; x78; x74].

(** A run that has printed and logged nothing, on a host where every
    file can be opened for writing. *)
Definition fresh_session : session :=
  {| session_log := []; stdout := []; open_w_fault := fun _ => false |}.

(** [--module /m/nvidia.ko] *)
Definition module_report_args : PatchReport.arguments :=
  {| PatchReport.arg_module := Some "/m/nvidia.ko";
     PatchReport.arg_version := "535.274.02";
     PatchReport.arg_output := None; PatchReport.arg_json := false;
     PatchReport.arg_verbose := false |}.

(** [--output /tmp/report.txt] *)
Definition full_check_args : PatchReport.arguments :=
  {| PatchReport.arg_module := None; PatchReport.arg_version := "535.274.02";
     PatchReport.arg_output := Some "/tmp/report.txt";
     PatchReport.arg_json := false; PatchReport.arg_verbose := false |}.

Definition no_json {A} : A -> string := fun _ => "".

(** An ELF object of 1024 bytes for x86-64: the field at offset 18 is 62. *)
Definition elf_module : bytes :=
  [x7f; x45; x4c; x46; x02; x01; x01; x00] ++ replicate 10 x00 ++
  [x3e; x00] ++ replicate 1004 x00.

End MoreSamples.

(** * Properties *)

(** ** Running computations *)

Lemma only_logged_refl st : only_logged st st.
Proof. repeat split. exists []. by rewrite app_nil_r. Qed.

Lemma only_logged_trans st1 st2 st3 :
  only_logged st1 st2 -> only_logged st2 st3 -> only_logged st1 st3.
Proof.
  intros [(?&?&?&?&?) [m1 ?]] [(?&?&?&?&?) [m2 ?]].
  repeat split; try congruence.
  exists (m1 ++ m2). rewrite app_assoc. congruence.
Qed.

Lemma only_logged_add_log st e : only_logged st (add_log e st).
Proof. repeat split. by exists [e]. Qed.

#[global] Hint Resolve only_logged_refl only_logged_add_log : run.

Lemma read_bytes_run p st :
  OS.read_bytes p st =
    if fault st (SysOpenRead p) then (Raise OSError, st)
    else match nodes st !! p with
         | Some (File content) => (Ok content, st)
         | Some Dir => (Raise IsADirectoryError, st)
         | None => (Raise FileNotFoundError, st)
         end.
Proof.
  unfold OS.read_bytes, OS.syscall_guard, mbind, MS_bind, gets.
  destruct (fault st _); [done|]. by destruct (nodes st !! p) as [[]|].
Qed.

Lemma getsize_run p st :
  OS.getsize p st =
    if fault st (SysStat p) then (Raise OSError, st)
    else match nodes st !! p with
         | Some (File content) => (Ok (Py.len content), st)
         | Some Dir => (Ok (dir_st_size st p), st)
         | None => (Raise FileNotFoundError, st)
         end.
Proof.
  unfold OS.getsize, OS.syscall_guard, mbind, MS_bind, gets.
  destruct (fault st _); [done|]. by destruct (nodes st !! p) as [[]|].
Qed.

Lemma read_bytes_readable st p content :
  readable st p content -> OS.read_bytes p st = (Ok content, st).
Proof. intros [Hn Hf]. by rewrite read_bytes_run, Hf, Hn. Qed.

Lemma read_bytes_cases p st :
  (exists content, readable st p content /\ OS.read_bytes p st = (Ok content, st)) \/
  (exists e, OS.read_bytes p st = (Raise e, st)).
Proof.
  rewrite read_bytes_run. destruct (fault st _) eqn:Hf; [right; eauto|].
  destruct (nodes st !! p) as [[content|]|] eqn:Hn; [|right; eauto..].
  left. exists content. by repeat split.
Qed.

(** ** Composing computations *)

#[global] Instance only_logged_preorder : PreOrder only_logged.
Proof.
  split; [intros st; apply only_logged_refl|].
  intros st1 st2 st3. apply only_logged_trans.
Qed.

#[global] Instance ledger_kept_preorder : PreOrder ledger_kept.
Proof.
  split; [by intros st|].
  intros st1 st2 st3 (?&?&?&?) (?&?&?&?). repeat split; congruence.
Qed.

Lemma only_logged_ledger_kept st st' : only_logged st st' -> ledger_kept st st'.
Proof. intros [(?&?&?&?&?) _]. by repeat split. Qed.

Section Composition.
Context {S : Type} (R : relation state) `{!PreOrder R} (proj : S -> state).

Lemma preserves_ret {A} (a : A) : preserves R proj (mret a).
Proof. by intros s. Qed.

Lemma preserves_raise {A} e : preserves R proj (raise (A:=A) e).
Proof. by intros s. Qed.

Lemma preserves_gets {A} (f : S -> A) : preserves R proj (gets f).
Proof. by intros s. Qed.

Lemma preserves_ask {A} (f : S -> result A) : preserves R proj (ask f).
Proof. by intros s. Qed.

Lemma preserves_bind {A B} (m : MS S A) (k : A -> MS S B) :
  preserves R proj m -> (forall a, preserves R proj (k a)) ->
  preserves R proj (m ≫= k).
Proof.
  intros Hm Hk s. unfold mbind, MS_bind. specialize (Hm s).
  destruct (m s) as [[a|e] s']; simpl in *; [|done].
  etrans; [done|apply Hk].
Qed.

Lemma preserves_try_except {A} (body handler : MS S A) :
  preserves R proj body -> preserves R proj handler ->
  preserves R proj (try_except body handler).
Proof.
  intros Hb Hh s. unfold try_except. specialize (Hb s).
  destruct (body s) as [[a|e] s']; simpl in *; [done|].
  etrans; [done|apply Hh].
Qed.

Lemma total_ret {A} (a : A) : total (S:=S) (mret a).
Proof. intros s. by exists a. Qed.

Lemma total_gets {A} (f : S -> A) : total (gets f).
Proof. intros s. by eexists. Qed.

Lemma total_modify (f : S -> S) : total (modify f).
Proof. intros s. by eexists. Qed.

Lemma total_bind {A B} (m : MS S A) (k : A -> MS S B) :
  total m -> (forall a, total (k a)) -> total (m ≫= k).
Proof.
  intros Hm Hk s. unfold mbind, MS_bind. destruct (Hm s) as [a Ha].
  destruct (m s) as [[a'|e] s']; simpl in *; [apply Hk|done].
Qed.

Lemma total_try_except {A} (body handler : MS S A) :
  total handler -> total (try_except body handler).
Proof.
  intros Hh s. unfold try_except.
  destruct (body s) as [[a|e] s']; simpl; [by exists a|apply Hh].
Qed.
End Composition.

Section Primitives.
Context (R : relation state) `{!PreOrder R}.

Lemma preserves_call {L A} (m : M A) :
  preserves R id m -> preserves R snd (call (R:=L) m).
Proof.
  intros Hm [r st]. unfold call. specialize (Hm st). by destruct (m st).
Qed.

Lemma preserves_assign {L} (f : L -> L) : preserves R snd (assign f).
Proof. by intros [r st]. Qed.

Lemma preserves_returning_local {L} (init : L) (body handler : LM L unit) :
  preserves R snd body -> preserves R snd handler ->
  preserves R id (returning_local init body handler).
Proof.
  intros Hb Hh st. unfold returning_local.
  pose proof (preserves_try_except R snd body handler Hb Hh (init, st)) as Hq.
  by destruct (try_except body handler (init, st)) as [[[]|e] [r st']].
Qed.

Lemma preserves_syscall_guard call : preserves R id (OS.syscall_guard call).
Proof. intros st. unfold OS.syscall_guard. by destruct (fault st call). Qed.

Lemma preserves_path_exists p : preserves R id (OS.path_exists p).
Proof. by apply preserves_gets. Qed.

Lemma preserves_read_bytes p : preserves R id (OS.read_bytes p).
Proof.
  intros st. rewrite read_bytes_run.
  destruct (fault st _); [done|]. by destruct (nodes st !! p) as [[]|].
Qed.

Lemma preserves_getsize p : preserves R id (OS.getsize p).
Proof.
  intros st. rewrite getsize_run.
  destruct (fault st _); [done|]. by destruct (nodes st !! p) as [[]|].
Qed.
End Primitives.

Lemma quiet_logger l msg : quiet id (logger l msg).
Proof. intros s. apply only_logged_add_log. Qed.

Lemma ledger_kept_logger l msg : preserves ledger_kept id (logger l msg).
Proof. by intros s. Qed.

Lemma total_logger l msg : total (logger l msg).
Proof. apply total_modify. Qed.

Lemma total_call {R A} (m : M A) : total m -> total (call (R:=R) m).
Proof.
  intros Hm [r st]. unfold call. destruct (Hm st) as [a Ha].
  destruct (m st) as [x st']. by exists a.
Qed.

Lemma total_assign {R} (f : R -> R) : total (assign f).
Proof. intros [r st]. by eexists. Qed.

Lemma total_returning_local {R} (init : R) (body handler : LM R unit) :
  total handler -> total (returning_local init body handler).
Proof.
  intros Hh st. unfold returning_local.
  destruct (total_try_except body handler Hh (init, st)) as [a Ha].
  destruct (try_except body handler (init, st)) as [[[]|e] [r st']];
    simpl in *; [by exists r|done].
Qed.

Lemma total_path_exists p : total (OS.path_exists p).
Proof. apply total_gets. Qed.

#[global] Hint Resolve preserves_ret preserves_raise preserves_gets preserves_ask
  preserves_assign preserves_syscall_guard preserves_path_exists
  preserves_read_bytes preserves_getsize quiet_logger ledger_kept_logger
  total_ret total_gets total_modify total_logger total_assign total_path_exists : run.

(** Splits a goal [preserves _ _ m] or [total m] along the structure of [m]. *)
Ltac structural :=
  repeat first
    [ progress intros
    | solve [auto with run typeclass_instances]
    | apply preserves_bind | apply preserves_try_except
    | apply preserves_returning_local | apply preserves_call
    | apply total_bind | apply total_try_except | apply total_returning_local
    | apply total_call
    | match goal with
      | |- preserves _ _ (if ?b then _ else _) => destruct b
      | |- total (if ?b then _ else _) => destruct b
      | |- preserves _ _ (match ?x with _ => _ end) => destruct x
      | |- total (match ?x with _ => _ end) => destruct x
      end ].

(** ** tools/verify_patch.py *)

Section PatchVerifierFacts.
Context `{Hashlib}.
Import PatchVerifier PatchVerifierSpec.

Variable patch_signatures : gmap string signature_info.

Lemma verify_changes_all content changes st :
  forallb (change_confirmed content) changes = true ->
  verify_changes content changes st = (Ok true, st).
Proof.
  induction changes as [|c rest IH]; simpl; [done|].
  intros [Hc Hrest]%andb_prop. unfold change_confirmed in Hc.
  apply andb_prop in Hc as [Hr Heq]. rewrite Hr, Heq. simpl. auto.
Qed.

Lemma verify_changes_some content changes st :
  forallb (change_confirmed content) changes = false ->
  exists c, c ∈ changes /\ change_confirmed content c = false /\
    verify_changes content changes st =
      (Ok false, add_log (change_warning content c) st).
Proof.
  induction changes as [|c rest IH]; simpl; [done|].
  destruct (change_confirmed content c) eqn:Hc; simpl.
  - intros Hrest. destruct (IH Hrest) as (c' & Hin & Hbad & Hrun).
    exists c'. split; [by right|]. split; [done|].
    unfold change_confirmed in Hc. apply andb_prop in Hc as [Hr Heq].
    by rewrite Hr, Heq.
  - intros _. exists c. split; [by left|]. split; [done|].
    unfold change_confirmed in Hc. unfold change_warning.
    destruct (_ <=? _)%N; simpl in *; [|done]. by rewrite Hc.
Qed.

Lemma verify_patch_details_run content signature st :
  _verify_patch_details content signature st =
    verify_changes content (expected_changes signature) st.
Proof.
  unfold _verify_patch_details, try_except.
  destruct (forallb (change_confirmed content) (expected_changes signature)) eqn:Hall.
  - by rewrite (verify_changes_all _ _ _ Hall).
  - destruct (verify_changes_some _ _ st Hall) as (c & _ & _ & ->). done.
Qed.

(** [_check_patch_signature] on a file that can be read. *)
Lemma check_patch_signature_readable module_path driver_version st content :
  readable st module_path content ->
  _check_patch_signature patch_signatures module_path driver_version st =
    match patch_signatures !! driver_version with
    | None => (Ok false, add_log (WARNING, MsgNoSignatureInfo driver_version) st)
    | Some signature =>
        if Py.bytes_in (magic_bytes signature) content
        then verify_changes content (expected_changes signature)
               (add_log (INFO, MsgMagicFound module_path) st)
        else (Ok false, st)
    end.
Proof.
  intros Hr. unfold _check_patch_signature, try_except, mbind, MS_bind.
  rewrite (read_bytes_readable _ _ _ Hr).
  destruct (patch_signatures !! driver_version) as [signature|]; [|done].
  destruct (Py.bytes_in _ _); [|done].
  unfold logger, modify. rewrite verify_patch_details_run.
  destruct (forallb (change_confirmed content) (expected_changes signature)) eqn:Hall.
  - by rewrite (verify_changes_all _ _ _ Hall).
  - destruct (verify_changes_some _ _ (add_log (INFO, MsgMagicFound module_path) st) Hall)
      as (c & _ & _ & ->). done.
Qed.

(** [_check_patch_signature] on a file that cannot be read. *)
Lemma check_patch_signature_unreadable module_path driver_version st e :
  OS.read_bytes module_path st = (Raise e, st) ->
  _check_patch_signature patch_signatures module_path driver_version st =
    (Ok false, add_log (ERROR, MsgSignatureCheckError) st).
Proof.
  intros Hr. unfold _check_patch_signature, try_except, mbind, MS_bind.
  by rewrite Hr.
Qed.

Lemma quiet_analyze_module module_path : quiet id (_analyze_module module_path).
Proof. unfold _analyze_module. structural. Qed.

Lemma total_analyze_module module_path : total (_analyze_module module_path).
Proof. unfold _analyze_module. structural. Qed.

Lemma quiet_verify_changes content changes : quiet id (verify_changes content changes).
Proof. induction changes; simpl; structural. Qed.

Lemma total_verify_changes content changes : total (verify_changes content changes).
Proof. induction changes; simpl; structural. Qed.

Lemma quiet_check_patch_signature module_path driver_version :
  quiet id (_check_patch_signature patch_signatures module_path driver_version).
Proof.
  unfold _check_patch_signature, _verify_patch_details.
  pose proof quiet_verify_changes. structural.
Qed.

Lemma total_verify_patch_details content signature :
  total (_verify_patch_details content signature).
Proof. unfold _verify_patch_details. structural. Qed.

Lemma total_check_patch_signature module_path driver_version :
  total (_check_patch_signature patch_signatures module_path driver_version).
Proof. unfold _check_patch_signature. structural. Qed.

End PatchVerifierFacts.

Section PatchVerifierResults.
Context `{Hashlib}.
Import PatchVerifier PatchVerifierSpec.

Variable patch_signatures : gmap string signature_info.

Lemma only_logged_readable st st' p content :
  only_logged st st' -> readable st p content -> readable st' p content.
Proof. intros [(Hn & Hf & _) _] [? ?]. split; congruence. Qed.

Lemma only_logged_can_read st st' p :
  only_logged st st' -> can_read st' p = can_read st p.
Proof. intros [(Hn & Hf & _) _]. unfold can_read. by rewrite Hn, Hf. Qed.

Lemma can_read_readable st p :
  can_read st p = true -> exists content, readable st p content.
Proof.
  unfold can_read, readable. intros [Hf Hn]%andb_prop.
  destruct (nodes st !! p) as [[content|]|]; try done.
  exists content. split; [done|]. by destruct (fault st _).
Qed.

Lemma cannot_read_raises st p :
  can_read st p = false -> exists e, OS.read_bytes p st = (Raise e, st).
Proof.
  unfold can_read. rewrite read_bytes_run. intros Hc.
  destruct (fault st _); [eauto|]. destruct (nodes st !! p) as [[]|]; eauto.
  done.
Qed.

Lemma logged_add_log st e : logged st (add_log e st) e.
Proof. exists [e]. split; [done|]. by left. Qed.

Lemma logged_trans_l st1 st2 st3 e :
  logged st1 st2 e -> only_logged st2 st3 -> logged st1 st3 e.
Proof.
  intros (m1 & H1 & Hin) [_ [m2 H2]]. exists (m1 ++ m2).
  rewrite H2, H1, app_assoc. split; [done|]. apply elem_of_app. by left.
Qed.

Lemma logged_trans_r st1 st2 st3 e :
  only_logged st1 st2 -> logged st2 st3 e -> logged st1 st3 e.
Proof.
  intros [_ [m1 H1]] (m2 & H2 & Hin). exists (m1 ++ m2).
  rewrite H2, H1, app_assoc. split; [done|]. apply elem_of_app. by right.
Qed.

(** What [verify_module] returns, in terms of the two methods it calls. *)
Lemma verify_module_run module_path driver_version st :
  if present st module_path then
    exists d st1 signed st2,
      _analyze_module module_path st = (Ok d, st1) /\
      _check_patch_signature patch_signatures module_path driver_version st1
        = (Ok signed, st2) /\
      verify_module patch_signatures module_path driver_version st =
        (Ok {| mr_module_path := module_path; mr_exists := true;
               patched := signed; valid := signed; details := Some d;
               errors := [] |},
         add_log (if signed then (INFO, MsgModulePatched module_path)
                  else (WARNING, MsgModuleNotPatched module_path)) st2)
  else
    verify_module patch_signatures module_path driver_version st =
      (Ok {| mr_module_path := module_path; mr_exists := false;
             patched := false; valid := false; details := None;
             errors := [ErrFileDoesNotExist module_path] |}, st).
Proof.
  unfold present, verify_module, returning_local, try_except, mbind, MS_bind,
    call, OS.path_exists, gets, assign, modify.
  destruct (bool_decide _); simpl; [|done].
  destruct (_analyze_module module_path st) as [[d|e] st1] eqn:Ha; simpl.
  2: { destruct (total_analyze_module module_path st) as [d Hd].
       rewrite Ha in Hd. discriminate. }
  destruct (_check_patch_signature _ _ _ st1) as [[signed|e] st2] eqn:Hs; simpl.
  2: { destruct (total_check_patch_signature patch_signatures module_path
                   driver_version st1) as [b Hb].
       rewrite Hs in Hb. discriminate. }
  exists d, st1, signed, st2. do 2 (split; [done|]).
  by destruct signed.
Qed.

Lemma verify_module_total module_path driver_version :
  total (verify_module patch_signatures module_path driver_version).
Proof. unfold verify_module. structural. Qed.

Lemma quiet_verify_module module_path driver_version :
  quiet id (verify_module patch_signatures module_path driver_version).
Proof.
  unfold verify_module.
  pose proof quiet_analyze_module. pose proof (quiet_check_patch_signature patch_signatures).
  structural.
Qed.

(** Overwriting a byte inside a confirmed patched region with a different
    byte leaves the change unconfirmed. *)
Lemma flip_breaks_change content c i old new :
  change_confirmed content c = true ->
  in_patched_region c i ->
  content !! i = Some old -> new <> old ->
  change_confirmed (<[i:=new]> content) c = false.
Proof.
  unfold change_confirmed, in_patched_region, Py.slice, Py.len, Py.bytes_eqb.
  intros [Hrange Heq]%andb_prop [Hlo Hhi] Hold Hne.
  apply bool_decide_eq_true in Heq.
  apply andb_false_intro2, bool_decide_eq_false. intros Heq'.
  assert (Hi : i < length content) by (by eapply lookup_lt_Some).
  set (o := N.to_nat (ch_offset c)) in *.
  set (n := N.to_nat (ch_offset c + N.of_nat (length (ch_patched c)) - ch_offset c)) in *.
  assert (Hk : i - o < n) by (unfold o, n; lia).
  assert (Hio : o + (i - o) = i) by (unfold o; lia).
  assert (Hold' : ch_patched c !! (i - o) = Some old).
  { rewrite <- Heq, lookup_take_lt, lookup_drop, Hio; done. }
  assert (Hnew' : ch_patched c !! (i - o) = Some new).
  { rewrite <- Heq', lookup_take_lt, lookup_drop, Hio by done.
    by apply list_lookup_insert_eq. }
  congruence.
Qed.

Lemma forallb_false_elem {A} (f : A -> bool) (l : list A) x :
  x ∈ l -> f x = false -> forallb f l = false.
Proof.
  induction 1 as [x l|x y l _ IH]; simpl; intros Hx.
  - by rewrite Hx.
  - rewrite (IH Hx). apply andb_false_r.
Qed.

(** A readable module with the marker and every change confirmed. *)
Lemma verify_module_confirmed module_path driver_version st content signature :
  readable st module_path content ->
  patch_signatures !! driver_version = Some signature ->
  Py.bytes_in (magic_bytes signature) content = true ->
  forallb (change_confirmed content) (expected_changes signature) = true ->
  exists r st',
    verify_module patch_signatures module_path driver_version st = (Ok r, st') /\
    patched r = true /\ valid r = true /\ errors r = [].
Proof.
  intros Hr Hsig Hmagic Hall.
  pose proof (verify_module_run module_path driver_version st) as Hrun.
  assert (Hp : present st module_path = true).
  { unfold present. apply bool_decide_eq_true. destruct Hr as [-> _]. eauto. }
  rewrite Hp in Hrun. destruct Hrun as (d & st1 & signed & st2 & Ha & Hc & Hv).
  assert (Hr1 : readable st1 module_path content).
  { eapply only_logged_readable; [|done].
    pose proof (quiet_analyze_module module_path st) as Hq. by rewrite Ha in Hq. }
  rewrite (check_patch_signature_readable _ _ _ _ _ Hr1), Hsig, Hmagic in Hc.
  rewrite (verify_changes_all _ _ _ Hall) in Hc. simplify_eq.
  eauto 10.
Qed.

(** A readable module in which some change is not confirmed. *)
Lemma verify_module_unconfirmed module_path driver_version st content signature :
  readable st module_path content ->
  patch_signatures !! driver_version = Some signature ->
  forallb (change_confirmed content) (expected_changes signature) = false ->
  exists r st',
    verify_module patch_signatures module_path driver_version st = (Ok r, st') /\
    patched r = false /\ valid r = false /\ errors r = [] /\
    (Py.bytes_in (magic_bytes signature) content = true ->
     exists c, c ∈ expected_changes signature /\
               change_confirmed content c = false /\
               logged st st' (change_warning content c)).
Proof.
  intros Hr Hsig Hall.
  pose proof (verify_module_run module_path driver_version st) as Hrun.
  assert (Hp : present st module_path = true).
  { unfold present. apply bool_decide_eq_true. destruct Hr as [-> _]. eauto. }
  rewrite Hp in Hrun. destruct Hrun as (d & st1 & signed & st2 & Ha & Hc & Hv).
  assert (Hq : only_logged st st1).
  { pose proof (quiet_analyze_module module_path st) as Hq. by rewrite Ha in Hq. }
  assert (Hr1 : readable st1 module_path content)
    by (by eapply only_logged_readable).
  rewrite (check_patch_signature_readable _ _ _ _ _ Hr1), Hsig in Hc.
  destruct (Py.bytes_in _ _) eqn:Hmagic.
  - destruct (verify_changes_some _ _
                (add_log (INFO, MsgMagicFound module_path) st1) Hall)
      as (c & Hin & Hbad & Hrun).
    rewrite Hrun in Hc. simplify_eq.
    eexists _, _. split; [done|]. do 3 (split; [done|]).
    intros _. exists c. do 2 (split; [done|]).
    eapply logged_trans_r; [done|].
    eapply logged_trans_r; [apply only_logged_add_log|].
    eapply logged_trans_l; [apply logged_add_log|apply only_logged_add_log].
  - simplify_eq. eexists _, _. split; [done|]. by do 3 (split; [done|]).
Qed.

(** The counters after the loop of [verify_driver_installation]. *)
Lemma fold_count_module results acc :
  fold_left count_module results acc =
    {| driver_version := driver_version acc;
       modules_checked := modules_checked acc + length results;
       modules_patched := modules_patched acc + countb patched results;
       modules_valid := modules_valid acc + countb valid results;
       modules := modules acc ++ results;
       overall_status := overall_status acc |}.
Proof.
  revert acc. induction results as [|r rest IH]; intros acc; simpl.
  - destruct acc; simpl. f_equal; try lia. by rewrite app_nil_r.
  - rewrite IH. unfold count_module; simpl. f_equal.
    + lia.
    + destruct (patched r); lia.
    + destruct (valid r); lia.
    + by rewrite <- app_assoc.
Qed.

Lemma countb_le {A} (f : A -> bool) l : countb f l <= length l.
Proof. induction l as [|x l IH]; simpl; [lia|]. destruct (f x); lia. Qed.

Lemma countb_full {A} (f : A -> bool) l :
  Nat.eqb (countb f l) (length l) = forallb f l.
Proof.
  induction l as [|x l IH]; simpl; [done|].
  pose proof (countb_le f l). destruct (f x); simpl; [done|].
  apply Nat.eqb_neq. lia.
Qed.

Lemma countb_positive {A} (f : A -> bool) l :
  Nat.ltb 0 (countb f l) = existsb f l.
Proof.
  induction l as [|x l IH]; simpl; [done|]. destruct (f x); simpl; [|done].
  by apply Nat.ltb_lt; lia.
Qed.

Lemma status_precedence results driver_version :
  overall_status
    (set_overall_status (fold_left count_module results (initial_result driver_version)))
  = precedence results.
Proof.
  rewrite fold_count_module. unfold set_overall_status, precedence; simpl.
  rewrite countb_full, countb_positive.
  by destruct results.
Qed.

Lemma verify_each_run module_paths driver_version acc st :
  exists results st',
    verify_each patch_signatures module_paths driver_version acc st =
      (Ok (fold_left count_module results acc), st') /\
    length results = length module_paths.
Proof.
  revert acc st. induction module_paths as [|p rest IH]; intros acc st; simpl.
  - by exists [], st.
  - unfold mbind, MS_bind.
    destruct (verify_module_total p driver_version st) as [r Hr].
    destruct (verify_module _ p driver_version st) as [[r'|e] st1]; simpl in Hr; [|done].
    destruct (IH (count_module acc r') st1) as (results & st' & Hrun & Hlen).
    exists (r' :: results), st'. simpl. split; [done|]. by rewrite Hlen.
Qed.

End PatchVerifierResults.

(** ** Claims about the patch verifier *)

Section PatchVerifierClaims.
Context `{Hashlib}.
Import PatchVerifier PatchVerifierSpec.

Variable patch_signatures : gmap string signature_info.

(** C10.  Every result of [verify_module] has [patched] equal to [valid]:
    there is no result with [patched = true] and [valid = false].  The call
    always returns; ['exists'] is what [os.path.exists] said, and for a
    path that does not exist both flags are false. *)
Theorem verify_module_patched_eq_valid module_path driver_version st :
  exists r st',
    verify_module patch_signatures module_path driver_version st = (Ok r, st') /\
    patched r = valid r /\
    mr_exists r = present st module_path /\
    (if present st module_path then True
     else patched r = false /\ valid r = false).
Proof.
  pose proof (verify_module_run patch_signatures module_path driver_version st) as Hrun.
  destruct (present st module_path).
  - destruct Hrun as (d & st1 & signed & st2 & _ & _ & ->). by eexists _, _.
  - rewrite Hrun. by eexists _, _.
Qed.

(** C1, as amended.  For a readable file that contains the marker of a
    known version, one unconfirmed change record (wrong bytes, or
    [offset + len(patched)] beyond the end) makes [verify_module] return
    [valid = false] and also [patched = false], with an empty ['errors']
    list; the first failing offset is written to the log as a warning.
    Overwriting one byte inside a patched region of a fully confirmed file
    with a different byte turns [(patched, valid) = (true, true)] into
    [(false, false)]. *)
Theorem verify_module_mismatch_clears_both_flags
    module_path driver_version signature
    (Hsig : patch_signatures !! driver_version = Some signature) :
  (forall st content,
      readable st module_path content ->
      Py.bytes_in (magic_bytes signature) content = true ->
      (exists c, c ∈ expected_changes signature /\
                 change_confirmed content c = false) ->
      exists r st',
        verify_module patch_signatures module_path driver_version st = (Ok r, st') /\
        valid r = false /\ patched r = false /\ errors r = [] /\
        exists c, c ∈ expected_changes signature /\
                  change_confirmed content c = false /\
                  logged st st' (change_warning content c)) /\
  (forall st st2 content c i old new,
      readable st module_path content ->
      Py.bytes_in (magic_bytes signature) content = true ->
      forallb (change_confirmed content) (expected_changes signature) = true ->
      c ∈ expected_changes signature ->
      in_patched_region c i ->
      content !! i = Some old -> new <> old ->
      readable st2 module_path (<[i:=new]> content) ->
      exists r st' r2 st2',
        verify_module patch_signatures module_path driver_version st = (Ok r, st') /\
        patched r = true /\ valid r = true /\
        verify_module patch_signatures module_path driver_version st2 = (Ok r2, st2') /\
        patched r2 = false /\ valid r2 = false).
Proof.
  split.
  - intros st content Hr Hmagic (c & Hin & Hbad).
    destruct (verify_module_unconfirmed patch_signatures module_path driver_version
                st content signature Hr Hsig
                (forallb_false_elem _ _ _ Hin Hbad))
      as (r & st' & Hrun & Hp & Hv & He & Hlog).
    exists r, st'. split; [done|]. do 3 (split; [done|]). by apply Hlog.
  - intros st st2 content c i old new Hr Hmagic Hall Hin Hreg Hold Hne Hr2.
    destruct (verify_module_confirmed patch_signatures module_path driver_version
                st content signature Hr Hsig Hmagic Hall)
      as (r & st' & Hrun & Hp & Hv & _).
    assert (Hc : change_confirmed content c = true).
    { rewrite forallb_forall in Hall. apply Hall. by apply list_elem_of_In. }
    pose proof (flip_breaks_change content c i old new Hc Hreg Hold Hne) as Hbad.
    destruct (verify_module_unconfirmed patch_signatures module_path driver_version
                st2 _ signature Hr2 Hsig
                (forallb_false_elem _ _ _ Hin Hbad))
      as (r2 & st2' & Hrun2 & Hp2 & Hv2 & _).
    exists r, st', r2, st2'. by repeat split.
Qed.

(** C5, as amended.  For an existing path and a version without a
    signature in the catalogue, [verify_module] returns [patched = false]
    and [valid = false] with an empty ['errors'] list.  The missing
    signature is reported in the log only: as the warning "no patch
    information for this version" when the file can be read, and
    otherwise the read failure is what gets logged. *)
Theorem verify_module_unknown_version module_path driver_version st
    (Hpresent : present st module_path = true)
    (Hsig : patch_signatures !! driver_version = None) :
  exists r st',
    verify_module patch_signatures module_path driver_version st = (Ok r, st') /\
    mr_exists r = true /\ patched r = false /\ valid r = false /\
    errors r = [] /\
    logged st st'
      (if can_read st module_path
       then (WARNING, MsgNoSignatureInfo driver_version)
       else (ERROR, MsgSignatureCheckError)).
Proof.
  pose proof (verify_module_run patch_signatures module_path driver_version st) as Hrun.
  rewrite Hpresent in Hrun.
  destruct Hrun as (d & st1 & signed & st2 & Ha & Hc & Hv).
  assert (Hq : only_logged st st1).
  { pose proof (quiet_analyze_module module_path st) as Hq. by rewrite Ha in Hq. }
  rewrite <- (only_logged_can_read _ _ module_path Hq).
  destruct (can_read st1 module_path) eqn:Hcr.
  - destruct (can_read_readable _ _ Hcr) as [content Hr].
    rewrite (check_patch_signature_readable _ _ _ _ _ Hr), Hsig in Hc.
    simplify_eq. eexists _, _. split; [done|]. do 4 (split; [done|]).
    eapply logged_trans_r; [done|].
    eapply logged_trans_l; [apply logged_add_log|apply only_logged_add_log].
  - destruct (cannot_read_raises _ _ Hcr) as [e Hraise].
    rewrite (check_patch_signature_unreadable _ _ _ _ _ Hraise) in Hc.
    simplify_eq. eexists _, _. split; [done|]. do 4 (split; [done|]).
    eapply logged_trans_r; [done|].
    eapply logged_trans_l; [apply logged_add_log|apply only_logged_add_log].
Qed.

Variable _find_nvidia_modules : state -> list string.

(** C2.  The fleet status follows the precedence: no module checked gives
    [not_found]; otherwise all modules valid gives [fully_patched];
    otherwise some module patched gives [partially_patched]; otherwise
    [not_patched].  This holds for the counting loop over any list of
    module results, and [verify_driver_installation] always returns a
    result whose status is the precedence of its own ['modules']. *)
Theorem fleet_status_precedence :
  (forall results driver_version,
      overall_status
        (set_overall_status
           (fold_left count_module results (initial_result driver_version)))
      = precedence results) /\
  (forall driver_version st,
      exists result st',
        verify_driver_installation patch_signatures _find_nvidia_modules
          driver_version st = (Ok result, st') /\
        length (modules result) = length (_find_nvidia_modules st) /\
        overall_status result = precedence (modules result)).
Proof.
  split; [apply status_precedence|].
  intros driver_version st.
  unfold verify_driver_installation, mbind, MS_bind, gets.
  destruct (verify_each_run patch_signatures (_find_nvidia_modules st) driver_version
              (initial_result driver_version) st)
    as (results & st' & Hrun & Hlen).
  fold (initial_result driver_version). rewrite Hrun.
  eexists _, _. split; [done|].
  rewrite status_precedence, fold_count_module. simpl. done.
Qed.

End PatchVerifierClaims.

Section PatchVerifierExamples.
#[local] Existing Instance Samples.dump_hashlib.

(** C1, as stated, fails: the sample module carries the marker of
  535.274.02 and its change records are out of range, yet the result has
  [patched = false] and no entry in ['errors']. *)
Lemma marked_module_with_mismatch_not_patched :
let content := Samples.marker in
let st := Samples.marked_only in
readable st "/m/nvidia.ko" content /\
(exists signature,
    PatchVerifier.default_patch_signatures !! "535.274.02" = Some signature /\
    Py.bytes_in (PatchVerifier.magic_bytes signature) content = true /\
    forallb (PatchVerifierSpec.change_confirmed content)
      (PatchVerifier.expected_changes signature) = false) /\
exists r st',
  PatchVerifier.verify_module PatchVerifier.default_patch_signatures
    "/m/nvidia.ko" "535.274.02" st = (Ok r, st') /\
  PatchVerifier.patched r = false /\ PatchVerifier.valid r = false /\
  PatchVerifier.errors r = [].
Proof.
simpl. split; [by split|]. split.
- eexists. split; [reflexivity|]. by split.
- eexists _, _. split; [vm_compute; reflexivity|]. by repeat split.
Qed.

Lemma verify_module_mismatch_clears_both_flags_witness :
let p := "/m/nvidia.ko" in
let c := {| PatchVerifier.ch_offset := 2; PatchVerifier.ch_original := [x85; xc0];
            PatchVerifier.ch_patched := [x90; x90] |} in
(exists r st',
    PatchVerifier.verify_module Samples.small_signatures p "1.0"
      (Samples.small_host Samples.small_flipped) = (Ok r, st') /\
    PatchVerifier.valid r = false /\ PatchVerifier.patched r = false /\
    PatchVerifier.errors r = [] /\
    exists c', c' ∈ [c] /\
      PatchVerifierSpec.change_confirmed Samples.small_flipped c' = false /\
      logged (Samples.small_host Samples.small_flipped) st'
        (PatchVerifierSpec.change_warning Samples.small_flipped c')) /\
(exists r st' r2 st2',
    PatchVerifier.verify_module Samples.small_signatures p "1.0"
      (Samples.small_host Samples.small_patched) = (Ok r, st') /\
    PatchVerifier.patched r = true /\ PatchVerifier.valid r = true /\
    PatchVerifier.verify_module Samples.small_signatures p "1.0"
      (Samples.small_host Samples.small_flipped) = (Ok r2, st2') /\
    PatchVerifier.patched r2 = false /\ PatchVerifier.valid r2 = false).
Proof.
intros p c.
destruct (verify_module_mismatch_clears_both_flags Samples.small_signatures p "1.0"
            {| PatchVerifier.magic_bytes := [x4e; x56];
               PatchVerifier.patch_offsets := [2%N];
               PatchVerifier.expected_changes := [c] |} eq_refl) as [Hone Hflip].
simpl in Hone, Hflip. split.
- apply (Hone (Samples.small_host Samples.small_flipped) Samples.small_flipped).
  + by split.
  + reflexivity.
  + exists c. split; [by left|reflexivity].
- apply (Hflip (Samples.small_host Samples.small_patched)
           (Samples.small_host Samples.small_flipped)
           Samples.small_patched c 3 x90 x91).
  + by split.
  + reflexivity.
  + reflexivity.
  + by left.
  + unfold PatchVerifierSpec.in_patched_region, Py.len; simpl. lia.
  + reflexivity.
  + discriminate.
  + by split.
Defined.

(** C5, as stated, fails: the module exists, version 999.0 has no
  signature, and the result carries no entry in ['errors']. *)
Lemma unknown_version_leaves_errors_empty :
present Samples.marked_only "/m/nvidia.ko" = true /\
PatchVerifier.default_patch_signatures !! "999.0" = None /\
exists r st',
  PatchVerifier.verify_module PatchVerifier.default_patch_signatures
    "/m/nvidia.ko" "999.0" Samples.marked_only = (Ok r, st') /\
  PatchVerifier.errors r = [].
Proof.
split; [reflexivity|]. split; [reflexivity|].
eexists _, _. split; [vm_compute; reflexivity|]. reflexivity.
Qed.

Lemma verify_module_unknown_version_witness :
exists r st',
  PatchVerifier.verify_module PatchVerifier.default_patch_signatures
    "/m/nvidia.ko" "999.0" Samples.marked_only = (Ok r, st') /\
  PatchVerifier.mr_exists r = true /\ PatchVerifier.patched r = false /\
  PatchVerifier.valid r = false /\ PatchVerifier.errors r = [] /\
  logged Samples.marked_only st' (WARNING, MsgNoSignatureInfo "999.0").
Proof.
apply (verify_module_unknown_version PatchVerifier.default_patch_signatures
         "/m/nvidia.ko" "999.0" Samples.marked_only); reflexivity.
Defined.

End PatchVerifierExamples.

(** ** src/backup_manager.py *)

Section DictFacts.
Context {V : Type}.
Implicit Types d : list (string * V).

Lemma dict_get_None k d : Dict.get k d = None <-> k ∉ Dict.keys d.
Proof.
  induction d as [|[k' v] d IH]; simpl.
  - split; [intros _; apply not_elem_of_nil|done].
  - rewrite not_elem_of_cons. destruct (String.eqb_spec k k') as [->|Hne].
    + split; [done|]. by intros [? _].
    + rewrite IH. tauto.
Qed.

Lemma dict_contains_keys k d : Dict.contains k d = true <-> k ∈ Dict.keys d.
Proof.
  unfold Dict.contains. destruct (Dict.get k d) eqn:Hg.
  - split; [intros _|done]. destruct (decide (k ∈ Dict.keys d)); [done|].
    apply dict_get_None in n. congruence.
  - apply dict_get_None in Hg. split; [done|]. intros; contradiction.
Qed.

Lemma dict_get_set k v d k' :
  Dict.get k' (Dict.set k v d) = if String.eqb k' k then Some v else Dict.get k' d.
Proof.
  induction d as [|[k0 v0] d IH]; simpl.
  - by destruct (String.eqb k' k).
  - destruct (String.eqb_spec k k0) as [->|Hne]; simpl.
    + by destruct (String.eqb_spec k' k0).
    + destruct (String.eqb_spec k' k0) as [->|Hne'].
      * destruct (String.eqb_spec k0 k); [congruence|done].
      * apply IH.
Qed.

Lemma dict_keys_set_present k v d :
  k ∈ Dict.keys d -> Dict.keys (Dict.set k v d) = Dict.keys d.
Proof.
  induction d as [|[k0 v0] d IH]; simpl.
  - intros Hin. by apply elem_of_nil in Hin.
  - intros Hin. destruct (String.eqb_spec k k0) as [->|Hne]; simpl; [done|].
    apply elem_of_cons in Hin as [?|Hin]; [done|]. by rewrite IH.
Qed.

Lemma dict_keys_set_absent k v d :
  k ∉ Dict.keys d -> Dict.keys (Dict.set k v d) = Dict.keys d ++ [k].
Proof.
  induction d as [|[k0 v0] d IH]; simpl; [done|].
  intros [Hne Hnin]%not_elem_of_cons.
  destruct (String.eqb_spec k k0) as [->|_]; [done|]. simpl. by rewrite IH.
Qed.

Lemma dict_del_absent k d : k ∉ Dict.keys d -> Dict.del k d = d.
Proof.
  induction d as [|[k0 v0] d IH]; simpl; [done|].
  intros [Hne Hnin]%not_elem_of_cons.
  destruct (String.eqb_spec k k0) as [->|_]; [done|]. by rewrite IH.
Qed.

Lemma dict_keys_del k d k' :
  Dict.wf d -> k' ∈ Dict.keys (Dict.del k d) <-> k' ∈ Dict.keys d /\ k' <> k.
Proof.
  unfold Dict.wf. induction d as [|[k0 v0] d IH]; simpl.
  - intros _. split; [intros Hin; by apply elem_of_nil in Hin|].
    intros [Hin _]. by apply elem_of_nil in Hin.
  - intros [Hnin Hnd]%NoDup_cons.
    destruct (String.eqb_spec k k0) as [->|Hne]; simpl.
    + rewrite elem_of_cons. split.
      * intros Hin. split; [by right|]. intros ->. done.
      * intros [[->|Hin] Hne]; done.
    + rewrite !elem_of_cons, (IH Hnd). split.
      * intros [->|[Hin Hne']]; split; auto.
      * intros [[->|Hin] Hne']; auto.
Qed.

Lemma dict_wf_del k d : Dict.wf d -> Dict.wf (Dict.del k d).
Proof.
  unfold Dict.wf. induction d as [|[k0 v0] d IH]; simpl; [done|].
  intros [Hnin Hnd]%NoDup_cons.
  destruct (String.eqb_spec k k0) as [->|Hne]; simpl; [done|].
  apply NoDup_cons. split; [|by apply IH].
  intros Hin. apply (dict_keys_del k d k0 Hnd) in Hin as [Hin _]. done.
Qed.

Lemma dict_get_del k d k' :
  k' <> k -> Dict.get k' (Dict.del k d) = Dict.get k' d.
Proof.
  intros Hne. induction d as [|[k0 v0] d IH]; simpl; [done|].
  destruct (String.eqb_spec k k0) as [->|Hne0]; simpl.
  - by destruct (String.eqb_spec k' k0).
  - by rewrite IH.
Qed.

Lemma dict_length_del k d :
  k ∈ Dict.keys d -> S (length (Dict.del k d)) = length d.
Proof.
  induction d as [|[k0 v0] d IH]; simpl.
  - intros Hin. by apply elem_of_nil in Hin.
  - intros Hin. destruct (String.eqb_spec k k0) as [->|Hne]; simpl; [done|].
    apply elem_of_cons in Hin as [?|Hin]; [done|]. by rewrite IH.
Qed.
End DictFacts.

Section BackupManagerFacts.
Context `{Hashlib}.
Import BackupManager BackupManagerSpec.

Variable backup_dir : string.
Variable get_nvidia_module_paths : driver_info -> state -> result (list string).

Lemma ledger_kept_set_nodes f st : ledger_kept st (set_nodes f st).
Proof. done. Qed.

Lemma preserves_modify {S} (R : relation state) (proj : S -> state) (f : S -> S) :
  (forall s, R (proj s) (proj (f s))) -> preserves R proj (modify f).
Proof. intros Hf s. apply Hf. Qed.

Lemma ledger_kept_copy2 src dst : preserves ledger_kept id (OS.copy2 src dst).
Proof.
  unfold OS.copy2. structural; by apply preserves_modify.
Qed.

Lemma ledger_kept_mkdir p : preserves ledger_kept id (OS.mkdir p).
Proof. unfold OS.mkdir. structural; by apply preserves_modify. Qed.

Lemma save_backup_index_run st :
  save_backup_index st =
    (Ok tt, if fault st SysWriteIndex then add_log (ERROR, MsgIndexSaveError) st
            else set_index_file (Some (backup_data st)) st).
Proof.
  unfold save_backup_index, try_except, mbind, MS_bind, OS.syscall_guard.
  by destruct (fault st SysWriteIndex).
Qed.

Lemma calculate_checksum_readable file_path st content :
  readable st file_path content ->
  _calculate_checksum file_path st = (Ok (file_digest content), st).
Proof.
  intros Hr. unfold _calculate_checksum, try_except, mbind, MS_bind.
  by rewrite (read_bytes_readable _ _ _ Hr).
Qed.

Lemma calculate_checksum_unreadable file_path st :
  can_read st file_path = false ->
  _calculate_checksum file_path st =
    (Ok "", add_log (ERROR, MsgChecksumError file_path) st).
Proof.
  intros Hc. unfold _calculate_checksum, try_except, mbind, MS_bind.
  destruct (cannot_read_raises _ _ Hc) as [e ->]. done.
Qed.

Lemma quiet_calculate_checksum file_path : quiet id (_calculate_checksum file_path).
Proof. unfold _calculate_checksum. structural. Qed.

Lemma total_calculate_checksum file_path : total (_calculate_checksum file_path).
Proof. unfold _calculate_checksum. structural. Qed.

Lemma ledger_kept_calculate_checksum file_path :
  preserves ledger_kept id (_calculate_checksum file_path).
Proof. unfold _calculate_checksum. structural. Qed.

Lemma ledger_kept_backup_module_file backup_path module_path :
  preserves ledger_kept id (backup_module_file backup_path module_path).
Proof.
  unfold backup_module_file.
  pose proof ledger_kept_copy2. pose proof ledger_kept_calculate_checksum.
  structural.
Qed.

Lemma total_backup_module_file backup_path module_path :
  total (backup_module_file backup_path module_path).
Proof. unfold backup_module_file. structural. Qed.

Lemma ledger_kept_backup_module_loop backup_path module_paths files n :
  preserves ledger_kept id (backup_module_loop backup_path module_paths files n).
Proof.
  revert files n. pose proof ledger_kept_backup_module_file.
  induction module_paths; simpl; structural.
Qed.

Lemma total_backup_module_loop backup_path module_paths files n :
  total (backup_module_loop backup_path module_paths files n).
Proof.
  revert files n. pose proof total_backup_module_file.
  induction module_paths; simpl; structural.
Qed.

(** [success_count] is the number of records appended. *)
Lemma backup_module_loop_count backup_path module_paths files n st files' n' st' :
  backup_module_loop backup_path module_paths files n st = (Ok (files', n'), st') ->
  n' + length files = n + length files'.
Proof.
  revert files n st. induction module_paths as [|p rest IH]; intros files n st; simpl.
  - intros [= <- <- <-]. lia.
  - unfold mbind, MS_bind.
    destruct (backup_module_file backup_path p st) as [[[f|]|e] st1]; [| |done].
    + intros Hrun. apply IH in Hrun. rewrite length_app in Hrun. simpl in Hrun. lia.
    + apply IH.
Qed.

Lemma ledger_kept_backup_config_files backup_path :
  preserves ledger_kept id (_backup_config_files backup_path).
Proof.
  unfold _backup_config_files. pose proof ledger_kept_mkdir.
  assert (forall dir todo acc,
             preserves ledger_kept id (backup_config_loop dir todo acc)) as Hloop.
  { intros dir todo. induction todo; intros acc; simpl; [structural|].
    unfold backup_config_file. pose proof ledger_kept_copy2. structural. }
  structural.
Qed.

Lemma ledger_kept_before_index_update driver_info timestamp :
  preserves ledger_kept id
    (before_index_update backup_dir get_nvidia_module_paths driver_info timestamp).
Proof.
  unfold before_index_update.
  pose proof ledger_kept_mkdir. pose proof ledger_kept_backup_module_loop.
  pose proof ledger_kept_backup_config_files.
  structural.
Qed.

(** [create_backup] in terms of what runs before the index update. *)
Lemma create_backup_run driver_info timestamp now_iso st :
  create_backup backup_dir get_nvidia_module_paths driver_info timestamp now_iso st =
    match before_index_update backup_dir get_nvidia_module_paths
            driver_info timestamp st with
    | (Ok (files, success_count, config_files), st1) =>
        let backup_name := backup_name_of (di_version driver_info) timestamp in
        let st2 :=
          set_backup_data
            (Dict.set backup_name
               (new_entry driver_info timestamp now_iso files config_files)) st1 in
        let st3 :=
          if fault st2 SysWriteIndex then add_log (ERROR, MsgIndexSaveError) st2
          else set_index_file (Some (backup_data st2)) st2 in
        if Nat.ltb 0 success_count
        then (Ok (Some (Py.path_join backup_dir backup_name)),
              add_log (INFO, MsgBackupCreated backup_name) st3)
        else (Ok None, add_log (ERROR, MsgNothingCopied) st3)
    | (Raise e, st1) => (Ok None, add_log (ERROR, MsgCreateBackupError) st1)
    end.
Proof.
  unfold create_backup, before_index_update, try_except, mbind, MS_bind.
  destruct (OS.mkdir _ st) as [[[]|e] st1]; [|reflexivity].
  unfold logger at 1 3, modify at 1 3, ask.
  simpl.
  destruct (get_nvidia_module_paths driver_info _) as [module_paths|e]; [|reflexivity].
  destruct (backup_module_loop _ _ _ _ _) as [[[files n]|e] st2]; [|reflexivity].
  destruct (_backup_config_files _ st2) as [[config_files|e] st3]; [|reflexivity].
  simpl. rewrite save_backup_index_run.
  unfold new_entry. destruct (Nat.ltb 0 n); reflexivity.
Qed.

End BackupManagerFacts.

(** ** Claims about checksums and [create_backup] *)

Section CreateBackupClaims.
Context `{Hashlib}.
Import BackupManager BackupManagerSpec.

Variable backup_dir : string.
Variable get_nvidia_module_paths : driver_info -> state -> result (list string).

(** C3, as amended.  For a path whose content cannot be read (the open
    fails, the path is missing, or it is a directory),
    [_calculate_checksum] does not raise and returns no error value: it
    logs an error and returns the empty string as the digest. *)
Theorem calculate_checksum_unreadable_is_empty file_path st
    (Hunreadable : can_read st file_path = false) :
  _calculate_checksum file_path st =
    (Ok "", add_log (ERROR, MsgChecksumError file_path) st).
Proof. by apply calculate_checksum_unreadable. Qed.

(** C4, as amended.  When the backup name is already a key of the ledger
    and the run gets as far as the index update, [create_backup] raises
    nothing and replaces the entry under that name with the new backup;
    the keys, their order and every other entry stay as they were. *)
Theorem create_backup_replaces_existing_entry
    driver_info timestamp now_iso st files success_count config_files st1
    (Hexists : Dict.contains (backup_name_of (di_version driver_info) timestamp)
                 (backup_data st) = true)
    (Hreached : before_index_update backup_dir get_nvidia_module_paths
                  driver_info timestamp st
                = (Ok (files, success_count, config_files), st1)) :
  let backup_name := backup_name_of (di_version driver_info) timestamp in
  exists r st',
    create_backup backup_dir get_nvidia_module_paths driver_info timestamp now_iso st
      = (Ok r, st') /\
    Dict.get backup_name (backup_data st') =
      Some (new_entry driver_info timestamp now_iso files config_files) /\
    Dict.keys (backup_data st') = Dict.keys (backup_data st) /\
    (forall k, k <> backup_name ->
               Dict.get k (backup_data st') = Dict.get k (backup_data st)).
Proof.
  intros backup_name. rewrite create_backup_run, Hreached. fold backup_name.
  pose proof (ledger_kept_before_index_update backup_dir get_nvidia_module_paths
                driver_info timestamp st) as Hkept.
  rewrite Hreached in Hkept. destruct Hkept as (_ & _ & _ & Hdata). simpl in Hdata.
  set (entry := new_entry driver_info timestamp now_iso files config_files).
  assert (Hafter : forall st3 : state,
             backup_data st3 = Dict.set backup_name entry (backup_data st) ->
             Dict.get backup_name (backup_data st3) = Some entry /\
             Dict.keys (backup_data st3) = Dict.keys (backup_data st) /\
             (forall k, k <> backup_name ->
                        Dict.get k (backup_data st3) = Dict.get k (backup_data st))).
  { intros st3 ->. rewrite dict_get_set, String.eqb_refl. split; [done|]. split.
    - apply dict_keys_set_present. by apply dict_contains_keys.
    - intros k Hne. rewrite dict_get_set.
      by destruct (String.eqb_spec k backup_name). }
  simpl. destruct (fault st1 SysWriteIndex), (Nat.ltb 0 success_count);
    eexists _, _; (split; [reflexivity|]); apply Hafter; simpl; by rewrite Hdata.
Qed.

(** C9.  Whenever [create_backup] gets through the copy loop and the
    config step (nothing raises before the index update), a new entry named
    from version and timestamp is put into the ledger and the index is
    saved, also when no driver file was copied and the call then reports
    failure by returning [None].  A failing write of the index file is
    only logged. *)
Theorem create_backup_records_even_when_empty
    driver_info timestamp now_iso st files success_count config_files st1
    (Hreached : before_index_update backup_dir get_nvidia_module_paths
                  driver_info timestamp st
                = (Ok (files, success_count, config_files), st1)) :
  let backup_name := backup_name_of (di_version driver_info) timestamp in
  let entry := new_entry driver_info timestamp now_iso files config_files in
  exists st',
    create_backup backup_dir get_nvidia_module_paths driver_info timestamp now_iso st
      = (Ok (if Nat.ltb 0 (length files)
             then Some (Py.path_join backup_dir backup_name) else None), st') /\
    success_count = length files /\
    backup_data st' = Dict.set backup_name entry (backup_data st) /\
    Dict.get backup_name (backup_data st') = Some entry /\
    index_file st' =
      if fault st SysWriteIndex then index_file st else Some (backup_data st').
Proof.
  intros backup_name entry. rewrite create_backup_run, Hreached.
  fold backup_name entry.
  pose proof (ledger_kept_before_index_update backup_dir get_nvidia_module_paths
                driver_info timestamp st) as Hkept.
  rewrite Hreached in Hkept. destruct Hkept as (Hfault & _ & Hindex & Hdata).
  simpl in Hfault, Hindex, Hdata.
  assert (Hcount : success_count = length files).
  { unfold before_index_update, mbind, MS_bind in Hreached.
    destruct (OS.mkdir _ st) as [[[]|e] s1]; [|done].
    unfold logger at 1, modify at 1, ask in Hreached.
    destruct (get_nvidia_module_paths driver_info _) as [module_paths|e]; [|done].
    destruct (backup_module_loop _ _ _ _ _) as [[[fs n]|e] s2] eqn:Hloop; [|done].
    destruct (_backup_config_files _ s2) as [[cs|e] s3]; [|done].
    apply backup_module_loop_count in Hloop. simpl in *.
    injection Hreached as <- <- <- <-. lia. }
  subst success_count. simpl. rewrite Hfault.
  destruct (fault st SysWriteIndex), (Nat.ltb 0 (length files));
    eexists; (split; [reflexivity|]); simpl; rewrite ?Hdata, ?Hindex;
    by rewrite dict_get_set, String.eqb_refl.
Qed.

(** What happens otherwise: when a step before the index update raises
    (the snapshot directory or its [config] directory cannot be created, or
    module discovery raises), the outer handler logs the error and returns
    [None], and the ledger is as it was. *)
Lemma create_backup_raise_before_update driver_info timestamp now_iso st e st1 :
  before_index_update backup_dir get_nvidia_module_paths driver_info timestamp st
    = (Raise e, st1) ->
  create_backup backup_dir get_nvidia_module_paths driver_info timestamp now_iso st
    = (Ok None, add_log (ERROR, MsgCreateBackupError) st1) /\
  backup_data st1 = backup_data st /\ index_file st1 = index_file st.
Proof.
  intros Hraise. rewrite create_backup_run, Hraise. split; [done|].
  pose proof (ledger_kept_before_index_update backup_dir get_nvidia_module_paths
                driver_info timestamp st) as Hkept.
  rewrite Hraise in Hkept. by destruct Hkept as (_ & _ & ? & ?).
Qed.

End CreateBackupClaims.

Section CreateBackupExamples.
#[local] Existing Instance Samples.dump_hashlib.
Import BackupManager BackupManagerSpec Samples.

(** C3, as stated, fails: nothing can be read at the path, and the call
  returns normally with the empty string. *)
Lemma checksum_of_missing_file_is_empty_string :
can_read (host [] no_faults) "/missing" = false /\
fst (_calculate_checksum "/missing" (host [] no_faults)) = Ok "".
Proof. split; reflexivity. Qed.

Lemma calculate_checksum_unreadable_is_empty_witness :
_calculate_checksum "/missing" (host [] no_faults) =
  (Ok "", add_log (ERROR, MsgChecksumError "/missing") (host [] no_faults)).
Proof.
apply (calculate_checksum_unreadable_is_empty "/missing" (host [] no_faults)).
reflexivity.
Defined.

(** C4, as stated, fails: the ledger already has the name, the call
  returns the snapshot path, and the entry under the name is no longer the
  one that was there. *)
Lemma create_backup_overwrites_existing_name :
let st := one_backup no_faults in
let backup_name := "nvidia_535.274.02_20240101_000000" in
Dict.get backup_name (backup_data st) = Some old_entry /\
exists st' entry,
  create_backup "/b" finds_nvidia_ko driver_535 "20240101_000000"
    "2024-06-01T10:00:00" st
  = (Ok (Some "/b/nvidia_535.274.02_20240101_000000"), st') /\
  Dict.get backup_name (backup_data st') = Some entry /\
  bi_created_at entry = "2024-06-01T10:00:00" /\
  entry <> old_entry.
Proof.
simpl. split; [reflexivity|].
eexists _, _. split; [vm_compute; reflexivity|].
split; [vm_compute; reflexivity|]. split; [reflexivity|]. discriminate.
Qed.

Lemma create_backup_replaces_existing_entry_witness :
exists r st',
  create_backup "/b" finds_nothing driver_535 "20240101_000000"
    "2024-06-01T10:00:00" (one_backup no_faults) = (Ok r, st') /\
  Dict.get "nvidia_535.274.02_20240101_000000" (backup_data st') =
    Some (new_entry driver_535 "20240101_000000" "2024-06-01T10:00:00" [] []) /\
  Dict.keys (backup_data st') = Dict.keys (backup_data (one_backup no_faults)) /\
  (forall k, k <> "nvidia_535.274.02_20240101_000000" ->
             Dict.get k (backup_data st') =
             Dict.get k (backup_data (one_backup no_faults))).
Proof.
eapply (create_backup_replaces_existing_entry "/b" finds_nothing driver_535
          "20240101_000000" "2024-06-01T10:00:00" (one_backup no_faults) [] 0 []).
- reflexivity.
- vm_compute. reflexivity.
Defined.

Lemma create_backup_records_even_when_empty_witness :
exists st',
  create_backup "/b" finds_nothing driver_535 "20240601_100000"
    "2024-06-01T10:00:00" (one_backup no_faults) = (Ok None, st') /\
  0 = 0 /\
  backup_data st' =
    Dict.set "nvidia_535.274.02_20240601_100000"
      (new_entry driver_535 "20240601_100000" "2024-06-01T10:00:00" [] [])
      (backup_data (one_backup no_faults)) /\
  Dict.get "nvidia_535.274.02_20240601_100000" (backup_data st') =
    Some (new_entry driver_535 "20240601_100000" "2024-06-01T10:00:00" [] []) /\
  index_file st' = Some (backup_data st').
Proof.
eapply (create_backup_records_even_when_empty "/b" finds_nothing driver_535
          "20240601_100000" "2024-06-01T10:00:00" (one_backup no_faults) [] 0 []).
vm_compute. reflexivity.
Defined.

End CreateBackupExamples.

(** ** [restore_backup] *)

Section RestoreFacts.
Context `{Hashlib}.
Import BackupManager BackupManagerSpec PatchVerifierSpec.

Variable backup_dir : string.

Lemma copy2_run src dst st :
  OS.copy2 src dst st =
    if fault st (SysCopy src dst) then (Raise OSError, st)
    else match nodes st !! src with
         | Some (File content) =>
             (Ok tt, set_nodes (insert (copy_target st src dst) (File content)) st)
         | Some Dir => (Raise IsADirectoryError, st)
         | None => (Raise FileNotFoundError, st)
         end.
Proof.
  unfold OS.copy2, OS.syscall_guard, mbind, MS_bind, gets, copy_target.
  destruct (fault st _); [done|]. by destruct (nodes st !! src) as [[]|].
Qed.

Lemma readable_present st p content : readable st p content -> present st p = true.
Proof. intros [Hn _]. unfold present. apply bool_decide_eq_true. by rewrite Hn. Qed.

(** [restore_file] on a record whose backup copy can be read. *)
Lemma restore_file_readable file_info st content :
  readable st (fi_backup file_info) content ->
  restore_file file_info st =
    if String.eqb (file_digest content) (fi_checksum file_info) then
      if fault st (SysCopy (fi_backup file_info) (fi_original file_info))
      then (Ok false, add_log (ERROR, MsgRestoreError (fi_original file_info)) st)
      else (Ok true,
            add_log (INFO, MsgRestored (fi_original file_info))
              (set_nodes
                 (insert (copy_target st (fi_backup file_info) (fi_original file_info))
                    (File content)) st))
    else (Ok false, add_log (WARNING, MsgChecksumMismatch (fi_original file_info)) st).
Proof.
  intros Hr. unfold restore_file, try_except, mbind, MS_bind, OS.path_exists, gets.
  pose proof (readable_present _ _ _ Hr) as Hp. unfold present in Hp. rewrite Hp.
  rewrite (calculate_checksum_readable _ _ _ Hr).
  destruct (String.eqb _ _); [|done].
  rewrite copy2_run. destruct Hr as [-> _].
  by destruct (fault st (SysCopy _ _)).
Qed.

Lemma total_restore_file file_info : total (restore_file file_info).
Proof. unfold restore_file. structural. Qed.

Lemma ledger_kept_restore_file file_info :
  preserves ledger_kept id (restore_file file_info).
Proof.
  unfold restore_file.
  pose proof ledger_kept_copy2. pose proof ledger_kept_calculate_checksum.
  structural.
Qed.

(** A record counts as restored only after its backup copy was copied. *)
Lemma restore_file_true file_info st st' :
  restore_file file_info st = (Ok true, st') ->
  exists content,
    nodes st !! fi_backup file_info = Some (File content) /\
    nodes st' !! copy_target st (fi_backup file_info) (fi_original file_info)
      = Some (File content).
Proof.
  unfold restore_file, try_except, mbind, MS_bind, OS.path_exists, gets.
  destruct (bool_decide _); simpl; [|by intros [=]].
  pose proof (quiet_calculate_checksum (fi_backup file_info) st) as Hq.
  destruct (total_calculate_checksum (fi_backup file_info) st) as [digest Hd].
  destruct (_calculate_checksum _ st) as [[d|e] st1]; simpl in *; [|done].
  destruct Hq as [(Hn & Hf & _) _].
  destruct (String.eqb d _); [|by intros [=]].
  rewrite copy2_run, Hf, Hn. unfold copy_target. rewrite Hn.
  destruct (fault st _); [by intros [=]|].
  destruct (nodes st !! fi_backup file_info) as [[content|]|]; [|by intros [=]..].
  intros [= <-]. exists content. split; [done|]. simpl.
  by rewrite lookup_insert_eq.
Qed.

Lemma restore_files_run files n st :
  exists st',
    restore_files files n st =
      (Ok (n + countb id (restore_outcomes files st)), st').
Proof.
  revert n st. induction files as [|f rest IH]; intros n st; simpl.
  - exists st. by rewrite Nat.add_0_r.
  - unfold mbind, MS_bind. destruct (total_restore_file f st) as [b Hb].
    destruct (restore_file f st) as [[b'|e] st1]; simpl in Hb; [|done].
    destruct (IH (if b' then n + 1 else n) st1) as [st' ->].
    exists st'. do 2 f_equal. destruct b'; simpl; lia.
Qed.

Lemma restore_files_app before after n st :
  restore_files (before ++ after) n st =
    match restore_files before n st with
    | (Ok n1, st1) => restore_files after n1 st1
    | (Raise e, st1) => (Raise e, st1)
    end.
Proof.
  revert n st. induction before as [|f rest IH]; intros n st; simpl; [done|].
  unfold mbind, MS_bind.
  destruct (restore_file f st) as [[b|e] st1]; [apply IH|done].
Qed.

Lemma ledger_kept_restore_files files n :
  preserves ledger_kept id (restore_files files n).
Proof.
  revert n. pose proof ledger_kept_restore_file.
  induction files; simpl; structural.
Qed.

Lemma total_restore_config config_info : total (restore_config config_info).
Proof. unfold restore_config. structural. Qed.

Lemma total_for_each {A} (xs : list A) (body : A -> M unit) :
  (forall x, total (body x)) -> total (for_each xs body).
Proof. intros Hb. induction xs; simpl; structural. Qed.

Lemma is_under_path_join directory name :
  OS.is_under directory (Py.path_join directory name) = true.
Proof.
  unfold OS.is_under, Py.path_join.
  induction directory as [|c d IH]; simpl.
  - by destruct name.
  - destruct (ascii_dec c c); [done|congruence].
Qed.

(** What one [restore_file] can change on disk: at most its copy target. *)
Lemma restore_file_frame file_info st p :
  p <> fi_original file_info ->
  OS.is_under (fi_original file_info) p = false ->
  nodes (snd (restore_file file_info st)) !! p = nodes st !! p.
Proof.
  intros Hne Hunder.
  unfold restore_file, try_except, mbind, MS_bind, OS.path_exists, gets.
  destruct (bool_decide _); simpl; [|done].
  pose proof (quiet_calculate_checksum (fi_backup file_info) st) as Hq.
  destruct (total_calculate_checksum (fi_backup file_info) st) as [digest Hd].
  destruct (_calculate_checksum _ st) as [[d|e] st1]; simpl in *; [|done].
  destruct Hq as [(Hn & Hf & _) _]. rewrite <- Hn.
  destruct (String.eqb d _); [|done].
  rewrite copy2_run.
  destruct (fault st1 _); [done|].
  destruct (nodes st1 !! fi_backup file_info) as [[content|]|]; [|done..].
  simpl. rewrite lookup_insert_ne; [done|].
  unfold copy_target. destruct (nodes st1 !! fi_original file_info) as [[]|]; try done.
  intros <-. by rewrite is_under_path_join in Hunder.
Qed.

Lemma restore_files_frame files n st p :
  (forall f, f ∈ files ->
             p <> fi_original f /\ OS.is_under (fi_original f) p = false) ->
  nodes (snd (restore_files files n st)) !! p = nodes st !! p.
Proof.
  revert n st. induction files as [|f rest IH]; intros n st Hsep; simpl; [done|].
  unfold mbind, MS_bind.
  destruct (Hsep f) as [Hne Hunder]; [by left|].
  pose proof (restore_file_frame f st p Hne Hunder) as Hf.
  destruct (total_restore_file f st) as [b Hb].
  destruct (restore_file f st) as [[b'|e] st1]; simpl in *; [|done].
  rewrite IH, Hf; [done|]. intros f' Hin. apply Hsep. by right.
Qed.

End RestoreFacts.

(** ** Claims about [restore_backup] *)

Section RestoreClaims.
Context `{Hashlib}.
Import BackupManager BackupManagerSpec PatchVerifierSpec.

Variable backup_dir : string.

(** C6.  Each record of a backup is checked in the state the loop has
    reached, and the digest that is compared with the recorded checksum is
    that of the backup copy.  On a mismatch the record is skipped: a
    checksum-mismatch warning is logged, nothing is copied, the count is
    not raised, and the loop goes on with the records after it.  On a
    match the backup copy is copied over the original and the record
    counts as restored; only a failing copy (logged as an error) prevents
    that.  Records restored or skipped earlier do not change this, as long
    as no backup copy lies at or below an original path. *)
Theorem restore_gates_each_file_on_backup_digest
    files st before file_info after content
    (Hseparate : forall f g, f ∈ files -> g ∈ files ->
                   fi_backup g <> fi_original f /\
                   OS.is_under (fi_original f) (fi_backup g) = false)
    (Hposition : files = before ++ file_info :: after)
    (Hcopy : readable st (fi_backup file_info) content) :
  let st_i := state_after before st in
  let original_path := fi_original file_info in
  let backup_path_file := fi_backup file_info in
  readable st_i backup_path_file content /\
  (exists n_i restored st',
      restore_files before 0 st = (Ok n_i, st_i) /\
      restore_file file_info st_i = (Ok restored, st') /\
      restore_files files 0 st =
        restore_files after (if restored then n_i + 1 else n_i) st') /\
  (file_digest content <> fi_checksum file_info ->
   restore_file file_info st_i =
     (Ok false, add_log (WARNING, MsgChecksumMismatch original_path) st_i)) /\
  (file_digest content = fi_checksum file_info ->
   restore_file file_info st_i =
     if fault st (SysCopy backup_path_file original_path)
     then (Ok false, add_log (ERROR, MsgRestoreError original_path) st_i)
     else (Ok true,
           add_log (INFO, MsgRestored original_path)
             (set_nodes
                (insert (copy_target st_i backup_path_file original_path)
                   (File content)) st_i))).
Proof.
  intros st_i original_path backup_path_file.
  assert (Hkept : ledger_kept st st_i) by apply ledger_kept_restore_files.
  destruct Hkept as (Hfault & _).
  assert (Hr : readable st_i backup_path_file content).
  { destruct Hcopy as [Hn Hf]. split; [|by rewrite Hfault].
    unfold st_i, state_after. rewrite restore_files_frame; [done|].
    intros f Hin. apply Hseparate; subst files.
    - apply elem_of_app. by left.
    - apply elem_of_app. right. by left. }
  split; [done|].
  pose proof (restore_file_readable file_info st_i content Hr) as Hstep.
  split; [|split].
  - destruct (restore_files_run before 0 st) as [st1 Hbefore].
    assert (st1 = st_i) as -> by (unfold st_i, state_after; by rewrite Hbefore).
    destruct (total_restore_file file_info st_i) as [b Hb].
    destruct (restore_file file_info st_i) as [[b'|e] st'] eqn:Hrun;
      simpl in Hb; [|done].
    eexists _, b', st'. split; [done|]. split; [done|].
    subst files. rewrite restore_files_app, Hbefore. simpl.
    unfold mbind, MS_bind. by rewrite Hrun.
  - intros Hne. rewrite Hstep.
    by destruct (String.eqb_spec (file_digest content) (fi_checksum file_info)).
  - intros Heq. rewrite Hstep, Heq, String.eqb_refl, Hfault. done.
Qed.

(** C7.  When [restore_backup] resolves a backup, the flag it returns is
    true exactly when at least one record of ['files'] was restored, that
    is, when [restore_file] copied the backup copy over the original for at
    least one of them.  What happens to the config files has no part in
    it: with no record restored the flag is false. *)
Theorem restore_succeeds_iff_some_file_restored
    driver_info st latest_backup backup_info
    (Hlatest : _find_latest_backup (di_version driver_info) st
               = (Ok (Some latest_backup), st))
    (Hname : latest_backup <> "")
    (Hinfo : Dict.get latest_backup (backup_data st) = Some backup_info) :
  let st1 :=
    add_log (INFO, MsgRestoringFrom (Py.path_join backup_dir latest_backup)) st in
  let outcomes := restore_outcomes (bi_files backup_info) st1 in
  (exists st',
      restore_backup backup_dir driver_info st = (Ok (existsb id outcomes), st')) /\
  length outcomes = length (bi_files backup_info) /\
  (forall file_info s s',
      restore_file file_info s = (Ok true, s') ->
      exists content,
        nodes s !! fi_backup file_info = Some (File content) /\
        nodes s' !! copy_target s (fi_backup file_info) (fi_original file_info)
          = Some (File content)).
Proof.
  intros st1 outcomes. split; [|split].
  - unfold restore_backup, try_except. unfold mbind at 1, MS_bind at 1.
    rewrite Hlatest. destruct latest_backup as [|c rest]; [done|].
    unfold mbind at 1, MS_bind at 1, gets at 1. rewrite Hinfo.
    unfold mbind at 1, MS_bind at 1, logger at 1, modify at 1.
    fold st1. unfold mbind at 1, MS_bind at 1.
    destruct (restore_files_run (bi_files backup_info) 0 st1) as [st2 ->].
    fold outcomes. simpl.
    unfold mbind at 1, MS_bind at 1.
    destruct (total_for_each (bi_config_files backup_info) restore_config
                total_restore_config st2) as [[] Hcfg].
    destruct (for_each _ _ st2) as [[[]|e] st3]; simpl in Hcfg; [|done].
    rewrite countb_positive.
    destruct (existsb id outcomes); eexists; reflexivity.
  - unfold outcomes. generalize st1.
    induction (bi_files backup_info) as [|f rest IH]; intros s; simpl; [done|].
    destruct (restore_file f s) as [r s1]. simpl. by rewrite IH.
  - apply restore_file_true.
Qed.

End RestoreClaims.

Section RestoreExamples.
#[local] Existing Instance Samples.dump_hashlib.
Import BackupManager BackupManagerSpec Samples.

Lemma restore_gates_each_file_on_backup_digest_witness :
let st := corrupted_snapshot in
let after_b := add_log (WARNING, MsgChecksumMismatch "/lib/b.ko") st in
restore_file record_b st = (Ok false, after_b) /\
readable after_b "/b/s/a.ko" [x01] /\
restore_file record_a after_b =
  (Ok true,
   add_log (INFO, MsgRestored "/lib/a.ko")
     (set_nodes (insert "/lib/a.ko" (File [x01])) after_b)) /\
fst (restore_files [record_b; record_a] 0 st) = Ok 1.
Proof.
intros st after_b.
assert (Hseparate : forall f g, f ∈ [record_b; record_a] -> g ∈ [record_b; record_a] ->
          fi_backup g <> fi_original f /\
          OS.is_under (fi_original f) (fi_backup g) = false).
{ intros f g Hf Hg.
  repeat (apply elem_of_cons in Hf as [->|Hf]); [| |by apply elem_of_nil in Hf];
    repeat (apply elem_of_cons in Hg as [->|Hg]); try (by apply elem_of_nil in Hg);
    split; (discriminate || reflexivity). }
destruct (restore_gates_each_file_on_backup_digest
            [record_b; record_a] st [] record_b [record_a] [x03]
            Hseparate eq_refl) as (_ & _ & Hskip & _); [by split|].
destruct (restore_gates_each_file_on_backup_digest
            [record_b; record_a] st [record_b] record_a [] [x01]
            Hseparate eq_refl) as (Hread & _ & _ & Hrestore); [by split|].
split; [apply Hskip; discriminate|].
split; [exact Hread|]. split; [apply Hrestore; reflexivity|].
vm_compute. reflexivity.
Defined.

Lemma restore_succeeds_iff_some_file_restored_witness :
exists st', restore_backup "/b" driver_535 (one_backup no_faults) = (Ok true, st').
Proof.
destruct (restore_succeeds_iff_some_file_restored "/b" driver_535
            (one_backup no_faults) "nvidia_535.274.02_20240101_000000" old_entry)
  as [[st' Hrun] _].
- reflexivity.
- discriminate.
- reflexivity.
- exists st'. exact Hrun.
Defined.

End RestoreExamples.

(** ** [list_backups], [delete_backup], [cleanup_old_backups] *)

Section StringOrder.

Lemma ascii_compare_lt_trans a b c :
  Ascii.compare a b = Lt -> Ascii.compare b c = Lt -> Ascii.compare a c = Lt.
Proof. unfold Ascii.compare. rewrite !N.compare_lt_iff. lia. Qed.

Lemma string_compare_lt_trans a b c :
  String.compare a b = Lt -> String.compare b c = Lt -> String.compare a c = Lt.
Proof.
  revert b c. induction a as [|x a IH]; intros [|y b] [|z c]; simpl; try done.
  destruct (Ascii.compare x y) eqn:Exy; try done;
    destruct (Ascii.compare y z) eqn:Eyz; try done.
  - apply Ascii.compare_eq_iff in Exy as ->. rewrite Eyz. apply IH.
  - apply Ascii.compare_eq_iff in Exy as ->. by rewrite Eyz.
  - apply Ascii.compare_eq_iff in Eyz as <-. by rewrite Exy.
  - by rewrite (ascii_compare_lt_trans _ _ _ Exy Eyz).
Qed.

Lemma string_ltb_asym a b : String.ltb a b = true -> String.ltb b a = false.
Proof.
  unfold String.ltb. rewrite (String.compare_antisym a b).
  by destruct (String.compare b a).
Qed.

Lemma string_not_ltb_trans a b c :
  String.ltb a b = false -> String.ltb b c = false -> String.ltb a c = false.
Proof.
  unfold String.ltb. intros Hab Hbc.
  destruct (String.compare a c) eqn:Hac; try done.
  destruct (String.compare a b) eqn:Eab; try done.
  - apply String.compare_eq_iff in Eab as ->. by rewrite Hac in Hbc.
  - assert (String.compare b a = Lt) as Hba.
    { rewrite String.compare_antisym, Eab. done. }
    by rewrite (string_compare_lt_trans _ _ _ Hba Hac) in Hbc.
Qed.

End StringOrder.

Section SortingFacts.
Import BackupManager BackupManagerSpec.

Lemma map_fmap {A B} (f : A -> B) (l : list A) : map f l = f <$> l.
Proof. reflexivity. Qed.

Lemma insert_by_timestamp_perm x l : insert_by_timestamp x l ≡ₚ x :: l.
Proof.
  induction l as [|y l IH]; simpl; [done|].
  destruct (String.ltb _ _); [|done]. rewrite IH. apply Permutation_swap.
Qed.

Lemma sorted_by_timestamp_reverse_perm l : sorted_by_timestamp_reverse l ≡ₚ l.
Proof.
  induction l as [|x l IH]; simpl; [done|].
  rewrite insert_by_timestamp_perm. by rewrite IH.
Qed.

Lemma insert_by_timestamp_sorted x l :
  StronglySorted not_older l -> StronglySorted not_older (insert_by_timestamp x l).
Proof.
  induction 1 as [|y l Hl IH Hy]; simpl.
  - repeat constructor.
  - destruct (String.ltb (timestamp x) (timestamp y)) eqn:Hxy.
    + constructor; [done|].
      rewrite Forall_forall. intros z Hz.
      rewrite insert_by_timestamp_perm in Hz.
      apply elem_of_cons in Hz as [->|Hz].
      * by apply string_ltb_asym.
      * rewrite Forall_forall in Hy. by apply Hy.
    + constructor; [by constructor|].
      constructor; [done|].
      rewrite Forall_forall in Hy |- *. intros z Hz.
      eapply string_not_ltb_trans; [exact Hxy|by apply Hy].
Qed.

(** The list is in descending order of timestamp. *)
Lemma sorted_by_timestamp_reverse_sorted l :
  StronglySorted not_older (sorted_by_timestamp_reverse l).
Proof.
  induction l as [|x l IH]; simpl; [constructor|].
  by apply insert_by_timestamp_sorted.
Qed.

End SortingFacts.

Section DeleteFacts.
Context `{Hashlib}.
Import BackupManager BackupManagerSpec.

Variable backup_dir : string.

#[local] Instance shrunk_preorder : PreOrder shrunk.
Proof.
  split; [by intros st|].
  intros st1 st2 st3 [Hf1 Hn1] [Hf2 Hn2]. split; [congruence|]. auto.
Qed.

Lemma rmtree_run p st :
  OS.rmtree p st =
    if fault st (SysRmtree p) then (Raise OSError, st)
    else match nodes st !! p with
         | Some Dir =>
             (Ok tt,
              set_nodes (fun m =>
                filter (fun kv => OS.is_under p (fst kv) = false) (delete p m)) st)
         | Some (File _) => (Raise NotADirectoryError, st)
         | None => (Raise FileNotFoundError, st)
         end.
Proof.
  unfold OS.rmtree, OS.syscall_guard, mbind, MS_bind, gets.
  destruct (fault st _); [done|]. by destruct (nodes st !! p) as [[]|].
Qed.

Lemma delete_blocked_shrunk st st' p :
  shrunk st st' -> delete_blocked st' p -> delete_blocked st p.
Proof.
  intros [Hf Hn] [Hb|[content Hb]]; [left; congruence|].
  right. exists content. by apply Hn.
Qed.

(** What one [delete_backup] does. *)
Lemma delete_backup_run backup_name st :
  exists deleted st',
    delete_backup backup_dir backup_name st = (Ok deleted, st') /\
    shrunk st st' /\
    if deleted
    then Dict.contains backup_name (backup_data st) = true /\
         backup_data st' = Dict.del backup_name (backup_data st)
    else backup_data st' = backup_data st /\
         (Dict.contains backup_name (backup_data st) = true ->
          delete_blocked st (Py.path_join backup_dir backup_name)).
Proof.
  unfold delete_backup, try_except, mbind, MS_bind, gets, OS.path_exists.
  destruct (Dict.contains backup_name (backup_data st)) eqn:Hc; simpl.
  2: { eexists _, _. split; [reflexivity|]. by repeat split. }
  set (p := Py.path_join backup_dir backup_name).
  destruct (bool_decide (is_Some (nodes st !! p))) eqn:Hp; simpl.
  - rewrite rmtree_run. destruct (fault st (SysRmtree p)) eqn:Hf; simpl.
    { eexists false, _. split; [reflexivity|]. split; [done|].
      split; [done|]. intros _. by left. }
    destruct (nodes st !! p) as [[content|]|] eqn:Hn; simpl.
    + eexists false, _. split; [reflexivity|]. split; [done|].
      split; [done|]. intros _. right. by exists content.
    + rewrite save_backup_index_run. simpl.
      eexists true, _. split; [reflexivity|].
      split; [|by destruct (fault st SysWriteIndex)].
      split; [by destruct (fault st SysWriteIndex)|].
      intros q content Hq.
      assert (filter (fun kv : string * node => OS.is_under p kv.1 = false)
                (delete p (nodes st)) !! q = Some (File content)) as Hq'
        by (by destruct (fault st SysWriteIndex)).
      apply map_lookup_filter_Some in Hq' as [Hq' _].
      by apply lookup_delete_Some in Hq' as [_ Hq'].
    + apply bool_decide_eq_true in Hp. by destruct Hp.
  - rewrite save_backup_index_run. simpl.
    eexists true, _. split; [reflexivity|].
    by destruct (fault st SysWriteIndex).
Qed.

(** The loop of [cleanup_old_backups]. *)
Lemma delete_each_run to_delete deleted_count st :
  Dict.wf (backup_data st) ->
  exists n st',
    delete_each backup_dir to_delete deleted_count st = (Ok n, st') /\
    shrunk st st' /\
    Dict.wf (backup_data st') /\
    (forall k, k ∉ map name to_delete ->
               Dict.get k (backup_data st') = Dict.get k (backup_data st)) /\
    (forall k, k ∈ Dict.keys (backup_data st') -> k ∈ Dict.keys (backup_data st)) /\
    n + length (backup_data st') = deleted_count + length (backup_data st) /\
    (forall b, b ∈ to_delete -> name b ∈ Dict.keys (backup_data st') ->
               delete_blocked st (Py.path_join backup_dir (name b))).
Proof.
  revert deleted_count st.
  induction to_delete as [|b0 rest IH]; intros deleted_count st Hwf; simpl.
  - exists deleted_count, st. split; [done|]. split; [done|].
    do 4 (split; [done|]). intros b Hb. by apply elem_of_nil in Hb.
  - unfold mbind, MS_bind.
    destruct (delete_backup_run (name b0) st) as (deleted & st1 & -> & Hs1 & Hres).
    assert (Hwf1 : Dict.wf (backup_data st1)).
    { destruct deleted; destruct Hres as [H1 H2]; rewrite ?H2, ?H1; [|done].
      by apply dict_wf_del. }
    destruct (IH (if deleted then deleted_count + 1 else deleted_count) st1 Hwf1)
      as (n & st' & -> & Hs & Hwf' & Hget & Hkeys & Hcount & Hblocked).
    assert (Hkeys1 : forall k, k ∈ Dict.keys (backup_data st1) ->
                               k ∈ Dict.keys (backup_data st)).
    { intros k. destruct deleted; destruct Hres as [H1 H2]; rewrite ?H2, ?H1; [|done].
      intros Hk. by apply (dict_keys_del _ _ _ Hwf) in Hk as [Hk _]. }
    exists n, st'. split; [done|]. split; [by etrans|]. split; [done|].
    split; [|split; [|split]].
    + intros k [Hne Hnin]%not_elem_of_cons. rewrite (Hget k Hnin).
      destruct deleted; destruct Hres as [H1 H2]; rewrite ?H2, ?H1; [|done].
      by apply dict_get_del.
    + auto.
    + destruct deleted; destruct Hres as [H1 H2].
      * apply dict_contains_keys, dict_length_del in H1. rewrite H2 in Hcount. lia.
      * rewrite H1 in Hcount. lia.
    + intros b [->|Hb]%elem_of_cons Hin.
      * apply Hkeys in Hin. destruct deleted; destruct Hres as [H1 H2].
        -- rewrite H2 in Hin. by apply (dict_keys_del _ _ _ Hwf) in Hin as [_ Hne].
        -- apply H2, dict_contains_keys. by rewrite <- H1.
      * eapply delete_blocked_shrunk; [exact Hs1|]. by apply Hblocked.
Qed.

End DeleteFacts.

(** ** Claim about [cleanup_old_backups] *)

Section CleanupClaims.
Context `{Hashlib}.
Import BackupManager BackupManagerSpec.

Variable backup_dir : string.

Lemma names_of_summaries (d : ledger) :
  map name (map (summary_of backup_dir) d) = Dict.keys d.
Proof. unfold Dict.keys. rewrite map_map. done. Qed.

(** C8.  With [keep_count = N >= 0] and a ledger of [M] backups,
    [cleanup_old_backups] works on the list of [list_backups], which is in
    descending order of timestamp, so that its first [N] elements are the
    most recent.  With [M <= N] it deletes nothing and returns 0.  With
    [M > N] it leaves the first [N] untouched, adds nothing, returns the
    number of entries it removed, and goes on after a failed delete: an
    entry beyond the first [N] survives only if deleting its snapshot
    directory was refused.  When no delete is refused, the surviving
    entries are exactly the [N] most recent. *)
Theorem cleanup_keeps_most_recent keep_count st
    (Hwf : Dict.wf (backup_data st))
    (Hkeep : (0 <= keep_count)%Z) :
  let backups :=
    sorted_by_timestamp_reverse (map (summary_of backup_dir) (backup_data st)) in
  let N := Z.to_nat keep_count in
  let kept := take N backups in
  let to_delete := drop N backups in
  list_backups backup_dir st = (Ok backups, st) /\
  length backups = length (backup_data st) /\
  (forall a b, a ∈ kept -> b ∈ to_delete -> not_older a b) /\
  (length backups <= N ->
   cleanup_old_backups backup_dir keep_count st = (Ok 0, st)) /\
  (N < length backups ->
   exists deleted_count st',
     cleanup_old_backups backup_dir keep_count st = (Ok deleted_count, st') /\
     (forall b, b ∈ kept ->
                Dict.get (name b) (backup_data st') =
                Dict.get (name b) (backup_data st)) /\
     (forall k, k ∈ Dict.keys (backup_data st') -> k ∈ Dict.keys (backup_data st)) /\
     (forall b, b ∈ to_delete -> name b ∈ Dict.keys (backup_data st') ->
                delete_blocked st (Py.path_join backup_dir (name b))) /\
     deleted_count = length (backup_data st) - length (backup_data st') /\
     ((forall b, b ∈ to_delete ->
                 ~ delete_blocked st (Py.path_join backup_dir (name b))) ->
      Dict.keys (backup_data st') ≡ₚ map name kept /\
      length (backup_data st') = N /\
      deleted_count = length backups - N)).
Proof.
  intros backups N kept to_delete.
  assert (Hperm : backups ≡ₚ map (summary_of backup_dir) (backup_data st))
    by apply sorted_by_timestamp_reverse_perm.
  assert (Hlen : length backups = length (backup_data st)).
  { rewrite Hperm. apply length_map. }
  assert (Hnames : map name backups ≡ₚ Dict.keys (backup_data st)).
  { rewrite <- names_of_summaries, !map_fmap. by rewrite Hperm. }
  assert (Hsplit : map name kept ++ map name to_delete = map name backups).
  { rewrite <- map_app. unfold kept, to_delete. by rewrite take_drop. }
  assert (Hnodup : NoDup (map name kept ++ map name to_delete)).
  { rewrite Hsplit, Hnames. exact Hwf. }
  apply NoDup_app in Hnodup as (Hnd_kept & Hdisjoint & _).
  split; [reflexivity|]. split; [done|]. split; [|split].
  - intros a b Ha Hb.
    eapply (StronglySorted_app_1_elem_of not_older kept to_delete); [|done..].
    unfold kept, to_delete. rewrite take_drop.
    apply sorted_by_timestamp_reverse_sorted.
  - intros Hle. unfold cleanup_old_backups, try_except, mbind, MS_bind.
    unfold list_backups, mbind, MS_bind, gets. simpl. fold backups.
    destruct (Z.leb_spec (Z.of_nat (length backups)) keep_count); [done|lia].
  - intros Hlt. unfold cleanup_old_backups, try_except, mbind, MS_bind.
    unfold list_backups, mbind, MS_bind, gets. simpl. fold backups.
    destruct (Z.leb_spec (Z.of_nat (length backups)) keep_count); [lia|].
    unfold slice_from. destruct (Z.ltb_spec keep_count 0); [lia|].
    fold N to_delete.
    destruct (delete_each_run backup_dir to_delete 0 st Hwf)
      as (n & st' & -> & _ & Hwf' & Hget & Hkeys & Hcount & Hblocked).
    simpl. eexists n, _. split; [reflexivity|]. simpl.
    split; [|split; [done|split; [done|split; [lia|]]]].
    + intros b Hb. apply Hget. apply Hdisjoint.
      rewrite map_fmap. by apply list_elem_of_fmap_2.
    + intros Hfree.
      assert (Hexact : Dict.keys (backup_data st') ≡ₚ map name kept).
      { apply NoDup_Permutation; [exact Hwf'|exact Hnd_kept|].
        intros k. split.
        - intros Hk. pose proof (Hkeys k Hk) as Hk0.
          rewrite <- Hnames, <- Hsplit in Hk0.
          apply elem_of_app in Hk0 as [Hk0|Hk0]; [done|].
          rewrite map_fmap in Hk0.
          apply list_elem_of_fmap in Hk0 as (b & -> & Hb).
          destruct (Hfree b Hb). by apply Hblocked.
        - intros Hk. pose proof (Hdisjoint k Hk) as Hnot.
          rewrite map_fmap in Hk.
          apply list_elem_of_fmap in Hk as (b & -> & Hb).
          destruct (decide (name b ∈ Dict.keys (backup_data st'))) as [|Hout];
            [done|].
          apply dict_get_None in Hout. rewrite (Hget _ Hnot) in Hout.
          apply dict_get_None in Hout. destruct Hout.
          rewrite <- Hnames, <- Hsplit. apply elem_of_app. left.
          rewrite map_fmap. by apply list_elem_of_fmap_2. }
      assert (HlenN : length (backup_data st') = N).
      { transitivity (length (Dict.keys (backup_data st'))).
        - unfold Dict.keys. by rewrite length_map.
        - rewrite Hexact, length_map. unfold kept. rewrite length_take. lia. }
      split; [done|]. split; [done|]. lia.
Qed.

End CleanupClaims.

Section CleanupExamples.
#[local] Existing Instance Samples.dump_hashlib.
Import BackupManager BackupManagerSpec Samples.

Lemma cleanup_keeps_most_recent_witness :
exists deleted_count st',
  cleanup_old_backups "/b" 1 (three_backups no_faults) = (Ok deleted_count, st') /\
  Dict.get "nvidia_1_20240301_000000" (backup_data st') =
    Some (entry_at "20240301_000000") /\
  length (backup_data st') = 1 /\
  deleted_count = 2.
Proof.
destruct (cleanup_keeps_most_recent "/b" 1 (three_backups no_faults))
  as (_ & _ & _ & _ & Hmore).
- unfold Dict.wf. apply (bool_decide_unpack _). vm_compute. exact I.
- lia.
- destruct Hmore as (n & st' & Hrun & Hkept & _ & _ & _ & Hexact).
  + simpl. lia.
  + exists n, st'. split; [exact Hrun|]. split.
    * apply (Hkept (summary_of "/b"
                      ("nvidia_1_20240301_000000", entry_at "20240301_000000"))).
      by left.
    * destruct Hexact as (_ & Hlen & Hn).
      -- intros b Hb. simpl in Hb.
         repeat (apply elem_of_cons in Hb as [->|Hb]);
           [..|apply elem_of_nil in Hb; destruct Hb];
           (intros [Hf|[content Hc]];
            [vm_compute in Hf; discriminate|vm_compute in Hc; discriminate]).
      -- split; [exact Hlen|exact Hn].
Defined.

(** A negative [keep_count] is a slice from the end: [backups[-1:]] is the
    oldest backup alone. *)
Example cleanup_with_negative_keep_count :
  let r := cleanup_old_backups "/b" (-1) (three_backups no_faults) in
  fst r = Ok 1 /\
  Dict.keys (backup_data (snd r)) =
    ["nvidia_1_20240301_000000"; "nvidia_1_20240201_000000"].
Proof. vm_compute. by split. Qed.

End CleanupExamples.

(** * Further properties of src/backup_manager.py *)

Section LatestBackup.
Context `{Hashlib}.
Import BackupManager BackupManagerSpec LedgerSpec.

Lemma string_ltb_empty_r s : String.ltb s "" = false.
Proof. by destruct s. Qed.

Lemma string_compare_refl s : String.compare s s = Eq.
Proof.
  pose proof (String.compare_antisym s s) as Hs.
  by destruct (String.compare s s).
Qed.

Lemma string_ltb_irrefl s : String.ltb s s = false.
Proof. unfold String.ltb. by rewrite string_compare_refl. Qed.

Lemma latest_step_keeps version seen acc item :
  latest_so_far version seen acc ->
  latest_so_far version (seen ++ [item]) (latest_step version acc item).
Proof.
  destruct item as [k info]. unfold latest_step. simpl.
  destruct (String.eqb_spec (bi_version info) version) as [Hv|Hv].
  - destruct (String.eqb_spec (bi_timestamp info) "") as [Ht|Ht]; simpl.
    + (* an empty timestamp never wins *)
      destruct acc as [[k0|] [t0|]]; simpl; try done.
      * intros (info0 & Hin & Hc & -> & Hmax). exists info0.
        split; [apply elem_of_app; by left|]. split; [done|]. split; [done|].
        intros item [Hitem|Hitem%list_elem_of_singleton]%elem_of_app Hver;
          [by apply Hmax|].
        subst item. simpl. rewrite Ht. apply string_ltb_empty_r.
      * intros Hnone item [Hitem|Hitem%list_elem_of_singleton]%elem_of_app;
          [by apply Hnone|].
        subst item. by intros [_ Hne].
    + destruct acc as [[k0|] [t0|]]; simpl; try done.
      * intros (info0 & Hin & Hc & -> & Hmax).
        destruct (String.ltb (bi_timestamp info0) (bi_timestamp info)) eqn:Hlt.
        -- exists info. split; [apply elem_of_app; right; by left|].
           split; [by split|]. split; [done|].
           intros item [Hitem|Hitem%list_elem_of_singleton]%elem_of_app Hver.
           ++ eapply string_not_ltb_trans; [|by apply Hmax].
              by apply string_ltb_asym.
           ++ subst item. apply string_ltb_irrefl.
        -- exists info0. split; [apply elem_of_app; by left|].
           split; [done|]. split; [done|].
           intros item [Hitem|Hitem%list_elem_of_singleton]%elem_of_app Hver;
             [by apply Hmax|].
           by subst item.
      * intros Hnone. exists info. split; [apply elem_of_app; right; by left|].
        split; [by split|]. split; [done|].
        intros item [Hitem|Hitem%list_elem_of_singleton]%elem_of_app Hver.
        -- destruct (String.eqb_spec (bi_timestamp (snd item)) "") as [->|Hne].
           ++ apply string_ltb_empty_r.
           ++ destruct (Hnone item Hitem). by split.
        -- subst item. apply string_ltb_irrefl.
  - destruct acc as [[k0|] [t0|]]; simpl; try done.
    + intros (info0 & Hin & Hc & -> & Hmax). exists info0.
      split; [apply elem_of_app; by left|]. split; [done|]. split; [done|].
      intros item [Hitem|Hitem%list_elem_of_singleton]%elem_of_app Hver;
        [by apply Hmax|].
      subst item. done.
    + intros Hnone item [Hitem|Hitem%list_elem_of_singleton]%elem_of_app;
        [by apply Hnone|].
      subst item. by intros [Hver _].
Qed.

Lemma latest_fold version seen rest acc :
  latest_so_far version seen acc ->
  latest_so_far version (seen ++ rest) (fold_left (latest_step version) rest acc).
Proof.
  revert seen acc. induction rest as [|item rest IH]; intros seen acc Hacc; simpl.
  - by rewrite app_nil_r.
  - replace (seen ++ item :: rest) with ((seen ++ [item]) ++ rest)
      by (by rewrite <- app_assoc).
    apply IH. by apply latest_step_keeps.
Qed.

Lemma latest_of_ledger version (d : ledger) :
  latest_so_far version d (fold_left (latest_step version) d (None, None)).
Proof.
  apply (latest_fold version [] d (None, None)).
  intros item Hitem. by apply elem_of_nil in Hitem.
Qed.

(** X1.  [_find_latest_backup] leaves the state alone and returns the name
    of an entry of the requested version whose timestamp is not empty and
    is not below that of any entry of that version; it returns [None]
    exactly when the ledger has no entry of that version with a non-empty
    timestamp. *)
Theorem find_latest_backup_is_newest version st :
  exists r,
    _find_latest_backup version st = (Ok r, st) /\
    match r with
    | None => forall item, item ∈ backup_data st -> ~ candidate version item
    | Some k =>
        exists info,
          (k, info) ∈ backup_data st /\
          bi_version info = version /\ bi_timestamp info <> "" /\
          forall item, item ∈ backup_data st ->
                       bi_version (snd item) = version ->
                       String.ltb (bi_timestamp info) (bi_timestamp (snd item)) = false
    end.
Proof.
  eexists. split; [reflexivity|].
  pose proof (latest_of_ledger version (backup_data st)) as Hlatest.
  destruct (fold_left _ _ _) as [[k|] [t|]]; simpl in *; try done.
  destruct Hlatest as (info & Hin & [Hv Ht] & -> & Hmax). by exists info.
Qed.

End LatestBackup.

Section ListBackups.
Context `{Hashlib}.
Import BackupManager BackupManagerSpec LedgerSpec.

Variable backup_dir : string.

Lemma insert_by_timestamp_stable t x l :
  with_timestamp t (insert_by_timestamp x l) = with_timestamp t (x :: l).
Proof.
  unfold with_timestamp. induction l as [|y l IH]; simpl; [done|].
  destruct (String.ltb (timestamp x) (timestamp y)) eqn:Hlt; [|done].
  rewrite !filter_cons in *. rewrite IH.
  destruct (decide (timestamp y = t)) as [Hy|Hy];
    destruct (decide (timestamp x = t)) as [Hx|Hx]; try done.
  rewrite Hx, Hy, string_ltb_irrefl in Hlt. done.
Qed.

Lemma sorted_by_timestamp_reverse_stable t l :
  with_timestamp t (sorted_by_timestamp_reverse l) = with_timestamp t l.
Proof.
  induction l as [|x l IH]; simpl; [done|].
  rewrite insert_by_timestamp_stable. unfold with_timestamp in *.
  by rewrite !filter_cons, IH.
Qed.

(** X2.  [list_backups] leaves the state alone and returns one summary per
    ledger entry, in descending order of timestamp; entries with the same
    timestamp keep the order they have in the ledger. *)
Theorem list_backups_sorted_and_stable st :
  exists backups,
    list_backups backup_dir st = (Ok backups, st) /\
    backups ≡ₚ map (summary_of backup_dir) (backup_data st) /\
    StronglySorted not_older backups /\
    forall t, with_timestamp t backups =
              with_timestamp t (map (summary_of backup_dir) (backup_data st)).
Proof.
  eexists. split; [reflexivity|]. split; [|split].
  - apply sorted_by_timestamp_reverse_perm.
  - apply sorted_by_timestamp_reverse_sorted.
  - intros t. apply sorted_by_timestamp_reverse_stable.
Qed.

End ListBackups.

Section DeleteBackup.
Context `{Hashlib}.
Import BackupManager BackupManagerSpec.

Variable backup_dir : string.



End DeleteBackup.

Section DeleteBackupExamples.
#[local] Existing Instance Samples.dump_hashlib.
Import BackupManager BackupManagerSpec Samples.


End DeleteBackupExamples.

Section BackupRoundTrip.
Context `{Hashlib}.
Import BackupManager BackupManagerSpec.

(** What [backup_module_file] did when it appended a record. *)
Lemma backup_module_file_some backup_path module_path st f st1 :
  backup_module_file backup_path module_path st = (Ok (Some f), st1) ->
  let backup_file := Py.path_join backup_path (Py.basename module_path) in
  exists content,
    nodes st !! module_path = Some (File content) /\
    fault st (SysCopy module_path backup_file) = false /\
    f = {| fi_original := module_path; fi_backup := backup_file;
           fi_size := Py.len content;
           fi_checksum := if fault st (SysOpenRead module_path) then ""
                          else file_digest content |} /\
    nodes st1 =
      <[copy_target st module_path backup_file := File content]> (nodes st) /\
    fault st1 = fault st.
Proof.
  intros Hrun backup_file. revert Hrun.
  unfold backup_module_file, try_except, mbind, MS_bind, OS.path_exists, gets.
  fold backup_file.
  destruct (bool_decide _); simpl; [|by intros [=]].
  rewrite copy2_run.
  destruct (fault st (SysCopy module_path backup_file)) eqn:Hcopy; [by intros [=]|].
  destruct (nodes st !! module_path) as [[content|]|] eqn:Hsrc; [|by intros [=]..].
  set (target := copy_target st module_path backup_file).
  set (st_c := set_nodes (insert target (File content)) st).
  assert (Hsrc_c : nodes st_c !! module_path = Some (File content)).
  { simpl. destruct (decide (target = module_path)) as [->|Hne].
    - apply lookup_insert_eq.
    - by rewrite lookup_insert_ne. }
  rewrite getsize_run. change (fault st_c) with (fault st).
  destruct (fault st (SysStat module_path)); [by intros [=]|].
  rewrite Hsrc_c.
  unfold _calculate_checksum, try_except, mbind, MS_bind.
  rewrite read_bytes_run. change (fault st_c) with (fault st). rewrite Hsrc_c.
  destruct (fault st (SysOpenRead module_path)); simpl;
    intros [= <- <-]; exists content; by repeat split.
Qed.

(** X4.  Backing a module up and restoring it is a round trip.  When
    [backup_module_file] appends a record for a module whose content
    could be read, and the snapshot path is not a directory, the record
    names the module, its size and the digest of its content, and the
    snapshot holds a copy of that content.  In any later state in which the
    copy is still there, [restore_file] accepts the record and writes that
    content back over the module, whatever the module has become in the
    meantime. *)
Theorem backup_then_restore_round_trip backup_path module_path st f st1 st2
    (Hbackup : backup_module_file backup_path module_path st = (Ok (Some f), st1))
    (Hread : fault st (SysOpenRead module_path) = false)
    (Hslot : nodes st !! Py.path_join backup_path (Py.basename module_path)
             <> Some Dir)
    (Hkept : nodes st2 !! fi_backup f = nodes st1 !! fi_backup f)
    (Hread2 : fault st2 (SysOpenRead (fi_backup f)) = false)
    (Hcopy2 : fault st2 (SysCopy (fi_backup f) module_path) = false)
    (Hfile2 : nodes st2 !! module_path <> Some Dir) :
  exists content,
    nodes st !! module_path = Some (File content) /\
    fi_original f = module_path /\
    fi_size f = Py.len content /\
    fi_checksum f = file_digest content /\
    nodes st1 !! fi_backup f = Some (File content) /\
    exists st3,
      restore_file f st2 = (Ok true, st3) /\
      nodes st3 !! module_path = Some (File content).
Proof.
  destruct (backup_module_file_some _ _ _ _ _ Hbackup)
    as (content & Hsrc & _ & Hf & Hnodes & _).
  rewrite Hread in Hf.
  set (backup_file := Py.path_join backup_path (Py.basename module_path)) in *.
  assert (Htarget : copy_target st module_path backup_file = backup_file).
  { unfold copy_target. by destruct (nodes st !! backup_file) as [[]|]. }
  rewrite Htarget in Hnodes.
  assert (Hcopy : nodes st1 !! fi_backup f = Some (File content)).
  { rewrite Hf, Hnodes. simpl. apply lookup_insert_eq. }
  exists content. rewrite Hf at 1 2 3. simpl.
  do 4 (split; [done|]). split; [exact Hcopy|].
  assert (Hr : readable st2 (fi_backup f) content).
  { split; [by rewrite Hkept|done]. }
  rewrite (restore_file_readable f st2 content Hr).
  replace (fi_checksum f) with (file_digest content) by (by rewrite Hf).
  replace (fi_original f) with module_path by (by rewrite Hf).
  rewrite String.eqb_refl, Hcopy2.
  eexists. split; [reflexivity|]. simpl.
  unfold copy_target. destruct (nodes st2 !! module_path) as [[]|] eqn:Hm;
    try done; apply lookup_insert_eq.
Qed.

End BackupRoundTrip.

Section BackupRoundTripExamples.
#[local] Existing Instance Samples.dump_hashlib.
Import BackupManager BackupManagerSpec Samples.

Lemma backup_then_restore_round_trip_witness :
  exists f st1 st3,
    backup_module_file "/b/s" "/lib/a.ko" (host [("/lib/a.ko", File [x01])] no_faults)
      = (Ok (Some f), st1) /\
    fi_checksum f = "dump:01" /\
    restore_file f (set_nodes (insert "/lib/a.ko" (File [x90])) st1) = (Ok true, st3) /\
    nodes st3 !! "/lib/a.ko" = Some (File [x01]).
Proof.
  set (st := host [("/lib/a.ko", File [x01])] no_faults).
  destruct (backup_module_file "/b/s" "/lib/a.ko" st) as [r st1] eqn:Hrun.
  assert (Hr : r = Ok (Some {| fi_original := "/lib/a.ko"; fi_backup := "/b/s/a.ko";
                               fi_size := 1; fi_checksum := "dump:01" |})).
  { change r with (fst (r, st1)). rewrite <- Hrun. vm_compute. reflexivity. }
  subst r.
  assert (Hn1 : nodes st1 !! "/b/s/a.ko" = Some (File [x01])).
  { change st1 with (snd (Ok (Some {| fi_original := "/lib/a.ko";
                                      fi_backup := "/b/s/a.ko"; fi_size := 1;
                                      fi_checksum := "dump:01" |}), st1)).
    rewrite <- Hrun. vm_compute. reflexivity. }
  assert (Hf1 : fault st1 = no_faults).
  { change st1 with (snd (Ok (Some {| fi_original := "/lib/a.ko";
                                      fi_backup := "/b/s/a.ko"; fi_size := 1;
                                      fi_checksum := "dump:01" |}), st1)).
    rewrite <- Hrun. vm_compute. reflexivity. }
  destruct (backup_then_restore_round_trip "/b/s" "/lib/a.ko" st _ st1
              (set_nodes (insert "/lib/a.ko" (File [x90])) st1) Hrun)
    as (content & Hsrc & _ & _ & Hsum & _ & st3 & Hrestore & Hback).
  - reflexivity.
  - discriminate.
  - simpl. by rewrite lookup_insert_ne.
  - simpl. by rewrite Hf1.
  - simpl. by rewrite Hf1.
  - simpl. rewrite lookup_insert_eq. discriminate.
  - assert (content = [x01]) as -> by (vm_compute in Hsrc; congruence).
    eexists _, st1, st3. split; [reflexivity|]. split; [reflexivity|].
    split; [exact Hrestore|exact Hback].
Defined.

End BackupRoundTripExamples.

Section BackupLoop.
Context `{Hashlib}.
Import BackupManager BackupManagerSpec.

Variable backup_dir : string.

Lemma backup_module_loop_added backup_path module_paths files success_count st :
  exists added st',
    backup_module_loop backup_path module_paths files success_count st =
      (Ok (files ++ added, success_count + length added), st') /\
    sublist (map fi_original added) module_paths /\
    Forall (fun f => fi_backup f =
                     Py.path_join backup_path (Py.basename (fi_original f))) added.
Proof.
  revert files success_count st.
  induction module_paths as [|p rest IH]; intros files n st; simpl.
  - exists [], st. rewrite app_nil_r, Nat.add_0_r. by repeat split.
  - unfold mbind, MS_bind.
    destruct (total_backup_module_file backup_path p st) as [r Hr].
    destruct (backup_module_file backup_path p st) as [[[f|]|e] st1] eqn:Hrun;
      simpl in Hr; [| |done].
    + destruct (backup_module_file_some _ _ _ _ _ Hrun) as (content & _ & _ & Hf & _).
      destruct (IH (files ++ [f]) (n + 1) st1) as (added & st' & -> & Hsub & Hall).
      exists (f :: added), st'. split; [|split].
      * simpl. rewrite <- app_assoc. simpl. do 3 f_equal. lia.
      * simpl. replace (fi_original f) with p by (by rewrite Hf).
        by apply sublist_skip.
      * constructor; [by rewrite Hf|done].
    + destruct (IH files n st1) as (added & st' & -> & Hsub & Hall).
      exists added, st'. split; [done|]. split; [by apply sublist_cons|done].
Qed.

(** X5.  The copy loop of [create_backup] never raises.  The records it
    produces are for discovered module paths, at most one per position and
    in the order of discovery; each names the copy inside the snapshot
    directory under the module's base name; and [success_count] is the
    number of records. *)
Theorem backup_module_loop_records backup_path module_paths st :
  exists files st',
    backup_module_loop backup_path module_paths [] 0 st =
      (Ok (files, length files), st') /\
    sublist (map fi_original files) module_paths /\
    Forall (fun f => fi_backup f =
                     Py.path_join backup_path (Py.basename (fi_original f))) files.
Proof.
  destruct (backup_module_loop_added backup_path module_paths [] 0 st)
    as (added & st' & Hrun & Hsub & Hall).
  exists added, st'. by rewrite Hrun.
Qed.

Lemma load_backup_index_run st :
  load_backup_index backup_dir st =
    (Ok tt,
     match index_file st with
     | Some d =>
         if fault st (SysOpenRead (Py.path_join backup_dir "backup_index.json"))
         then set_backup_data (fun _ => [])
                (add_log (ERROR, MsgIndexLoadError) st)
         else set_backup_data (fun _ => d) st
     | None => set_backup_data (fun _ => []) st
     end).
Proof.
  unfold load_backup_index, try_except, mbind, MS_bind, gets, OS.syscall_guard.
  destruct (index_file st); [|done]. by destruct (fault st _).
Qed.

(** X6.  What one manager saves, the next one loads: after
    [save_backup_index] has written the index, [load_backup_index] in any
    state that still holds that index (for instance a new process, with
    another ledger in memory) sets the ledger to the one that was saved. *)
Theorem saved_index_is_loaded_back st st2
    (Hwrite : fault st SysWriteIndex = false)
    (Hstored : index_file st2 = index_file (snd (save_backup_index st)))
    (Hread : fault st2 (SysOpenRead (Py.path_join backup_dir "backup_index.json"))
             = false) :
  exists st3,
    load_backup_index backup_dir st2 = (Ok tt, st3) /\
    backup_data st3 = backup_data st /\
    nodes st3 = nodes st2 /\ log st3 = log st2.
Proof.
  rewrite save_backup_index_run, Hwrite in Hstored. simpl in Hstored.
  rewrite load_backup_index_run, Hstored, Hread.
  eexists. split; [reflexivity|]. done.
Qed.

(** X7.  An index that cannot be read is treated as empty: the ledger in
    memory becomes empty, only an error is logged, and the next save
    replaces the stored index by the empty ledger, so that the backups it
    listed are no longer known. *)
Theorem unreadable_index_is_overwritten st d
    (Hstored : index_file st = Some d)
    (Hread : fault st (SysOpenRead (Py.path_join backup_dir "backup_index.json"))
             = true)
    (Hwrite : fault st SysWriteIndex = false) :
  exists st1 st2,
    load_backup_index backup_dir st = (Ok tt, st1) /\
    backup_data st1 = [] /\
    logged st st1 (ERROR, MsgIndexLoadError) /\
    save_backup_index st1 = (Ok tt, st2) /\
    index_file st2 = Some [].
Proof.
  rewrite load_backup_index_run, Hstored, Hread.
  eexists _, _. split; [reflexivity|]. split; [done|]. split.
  - exists [(ERROR, MsgIndexLoadError)]. split; [done|]. by left.
  - rewrite save_backup_index_run. simpl. rewrite Hwrite. done.
Qed.

Lemma no_candidate_no_latest version (d : ledger) :
  (forall item, item ∈ d -> ~ LedgerSpec.candidate version item) ->
  fst (fold_left (latest_step version) d (None, None)) = None.
Proof.
  intros Hnone. pose proof (latest_of_ledger version d) as Hlatest.
  destruct (fold_left _ _ _) as [[k|] [t|]]; simpl in *; try done.
  destruct Hlatest as (info & Hin & Hc & _). destruct (Hnone _ Hin Hc).
Qed.

(** X8.  Without a usable backup there is nothing to restore: when the
    ledger has no entry of the driver's version with a non-empty timestamp,
    [restore_backup] returns [False], logs that no backup was found, and
    changes neither the disk nor the ledger. *)
Theorem restore_without_backup_changes_nothing driver_info st
    (Hnone : forall item, item ∈ backup_data st ->
                          ~ LedgerSpec.candidate (di_version driver_info) item) :
  restore_backup backup_dir driver_info st =
    (Ok false, add_log (ERROR, MsgNoBackupForVersion (di_version driver_info)) st).
Proof.
  unfold restore_backup, try_except, _find_latest_backup, mbind, MS_bind, gets.
  simpl. by rewrite (no_candidate_no_latest _ _ Hnone).
Qed.

Lemma ledger_kept_restore_config config_info :
  preserves ledger_kept id (restore_config config_info).
Proof. unfold restore_config. pose proof ledger_kept_copy2. structural. Qed.

Lemma preserves_for_each {A} (R : relation state) `{!PreOrder R}
    (xs : list A) (body : A -> M unit) :
  (forall x, preserves R id (body x)) -> preserves R id (for_each xs body).
Proof. intros Hb. induction xs; simpl; structural. Qed.

(** X9.  [restore_backup] reads the ledger and never changes it: whatever
    it restores or fails to restore, the ledger in memory, the stored index
    and the behaviour of the host are afterwards what they were. *)
Theorem restore_backup_keeps_ledger driver_info st :
  ledger_kept st (snd (restore_backup backup_dir driver_info st)).
Proof.
  revert st. change (preserves ledger_kept id (restore_backup backup_dir driver_info)).
  unfold restore_backup, _find_latest_backup.
  pose proof ledger_kept_restore_files.
  pose proof (preserves_for_each (A:=config_info) ledger_kept) as Hloop.
  pose proof ledger_kept_restore_config.
  structural.
Qed.

End BackupLoop.

Section BackupLoopExamples.
#[local] Existing Instance Samples.dump_hashlib.
Import BackupManager BackupManagerSpec Samples MoreSamples.

Lemma saved_index_is_loaded_back_witness :
  exists st3,
    load_backup_index "/b"
      (set_backup_data (fun _ => []) (snd (save_backup_index (three_backups no_faults))))
      = (Ok tt, st3) /\
    backup_data st3 = backup_data (three_backups no_faults).
Proof.
  destruct (saved_index_is_loaded_back "/b" (three_backups no_faults)
              (set_backup_data (fun _ => [])
                 (snd (save_backup_index (three_backups no_faults)))))
    as (st3 & Hrun & Hdata & _); [reflexivity..|].
  exists st3. by split.
Defined.

Lemma unreadable_index_is_overwritten_witness :
  exists st1 st2,
    load_backup_index "/b" (one_backup index_unreadable) = (Ok tt, st1) /\
    backup_data st1 = [] /\
    save_backup_index st1 = (Ok tt, st2) /\
    index_file st2 = Some [].
Proof.
  destruct (unreadable_index_is_overwritten "/b" (one_backup index_unreadable)
              [("nvidia_535.274.02_20240101_000000", old_entry)])
    as (st1 & st2 & Hload & Hempty & _ & Hsave & Hindex); [reflexivity..|].
  exists st1, st2. by repeat split.
Defined.

Lemma restore_without_backup_changes_nothing_witness :
  restore_backup "/b" {| di_version := "470.00"; di_other := [] |}
    (one_backup no_faults)
  = (Ok false, add_log (ERROR, MsgNoBackupForVersion "470.00") (one_backup no_faults)).
Proof.
  apply (restore_without_backup_changes_nothing "/b"
           {| di_version := "470.00"; di_other := [] |} (one_backup no_faults)).
  intros item Hitem [Hversion _].
  apply list_elem_of_singleton in Hitem. subst item. discriminate.
Defined.

End BackupLoopExamples.

(** * Further properties of tools/verify_patch.py *)

Section VerifierMore.
Context `{Hashlib}.
Import PatchVerifier PatchVerifierSpec.

Variable patch_signatures : gmap string signature_info.
Variable _find_nvidia_modules : state -> list string.

(** X10.  For a readable file of a known version, [verify_module] reports
    [valid] exactly when the marker occurs in the file and every expected
    change is confirmed, that is, in range and carrying the patched bytes;
    [patched] says the same, ['errors'] stays empty, and the original bytes
    of the change records play no part. *)
Theorem verify_module_verdict module_path driver_version st content signature
    (Hread : readable st module_path content)
    (Hsig : patch_signatures !! driver_version = Some signature) :
  exists r st',
    verify_module patch_signatures module_path driver_version st = (Ok r, st') /\
    valid r = Py.bytes_in (magic_bytes signature) content &&
              forallb (change_confirmed content) (expected_changes signature) /\
    patched r = valid r /\ mr_exists r = true /\ errors r = [].
Proof.
  destruct (Py.bytes_in (magic_bytes signature) content) eqn:Hmagic;
    destruct (forallb (change_confirmed content) (expected_changes signature))
      eqn:Hall; simpl.
  - destruct (verify_module_confirmed patch_signatures _ _ _ _ _ Hread Hsig Hmagic Hall)
      as (r & st' & Hrun & Hp & Hv & He).
    exists r, st'. split; [done|]. rewrite Hp, Hv. do 2 (split; [done|]).
    split; [|done].
    pose proof (verify_module_run patch_signatures module_path driver_version st) as Hr.
    rewrite (readable_present _ _ _ Hread) in Hr.
    destruct Hr as (? & ? & ? & ? & _ & _ & Hr). rewrite Hr in Hrun. by simplify_eq.
  - destruct (verify_module_unconfirmed patch_signatures _ _ _ _ _ Hread Hsig Hall)
      as (r & st' & Hrun & Hp & Hv & He & _).
    exists r, st'. split; [done|]. rewrite Hp, Hv. do 2 (split; [done|]).
    split; [|done].
    pose proof (verify_module_run patch_signatures module_path driver_version st) as Hr.
    rewrite (readable_present _ _ _ Hread) in Hr.
    destruct Hr as (? & ? & ? & ? & _ & _ & Hr). rewrite Hr in Hrun. by simplify_eq.
  - pose proof (verify_module_run patch_signatures module_path driver_version st) as Hr.
    rewrite (readable_present _ _ _ Hread) in Hr.
    destruct Hr as (d & st1 & signed & st2 & Ha & Hc & Hr).
    assert (Hr1 : readable st1 module_path content).
    { eapply only_logged_readable; [|done].
      pose proof (quiet_analyze_module module_path st) as Hq. by rewrite Ha in Hq. }
    rewrite (check_patch_signature_readable _ _ _ _ _ Hr1), Hsig, Hmagic in Hc.
    simplify_eq. by eexists _, _.
  - pose proof (verify_module_run patch_signatures module_path driver_version st) as Hr.
    rewrite (readable_present _ _ _ Hread) in Hr.
    destruct Hr as (d & st1 & signed & st2 & Ha & Hc & Hr).
    assert (Hr1 : readable st1 module_path content).
    { eapply only_logged_readable; [|done].
      pose proof (quiet_analyze_module module_path st) as Hq. by rewrite Ha in Hq. }
    rewrite (check_patch_signature_readable _ _ _ _ _ Hr1), Hsig, Hmagic in Hc.
    simplify_eq. by eexists _, _.
Qed.

Lemma quiet_verify_each module_paths driver_version acc :
  quiet id (verify_each patch_signatures module_paths driver_version acc).
Proof.
  revert acc. pose proof (quiet_verify_module patch_signatures).
  induction module_paths; simpl; structural.
Qed.

(** X11.  Verification is read-only: [verify_driver_installation], and
    with it every [verify_module] it runs, adds records to the log and
    changes nothing else, neither on disk nor in the ledger. *)
Theorem verification_only_logs driver_version st :
  only_logged st
    (snd (verify_driver_installation patch_signatures _find_nvidia_modules
            driver_version st)).
Proof.
  revert st.
  change (quiet id (verify_driver_installation patch_signatures
                      _find_nvidia_modules driver_version)).
  unfold verify_driver_installation. pose proof quiet_verify_each. structural.
Qed.

Lemma verify_each_results module_paths driver_version acc st :
  exists results st',
    verify_each patch_signatures module_paths driver_version acc st =
      (Ok (fold_left count_module results acc), st') /\
    length results = length module_paths /\
    Forall (fun r => patched r = valid r) results.
Proof.
  revert acc st. induction module_paths as [|p rest IH]; intros acc st; simpl.
  - by exists [], st.
  - unfold mbind, MS_bind.
    pose proof (verify_module_run patch_signatures p driver_version st) as Hrun.
    destruct (present st p).
    + destruct Hrun as (d & st1 & signed & st2 & _ & _ & ->).
      destruct (IH (count_module acc
                      {| mr_module_path := p; mr_exists := true; patched := signed;
                         valid := signed; details := Some d; errors := [] |})
                  (add_log (if signed then (INFO, MsgModulePatched p)
                            else (WARNING, MsgModuleNotPatched p)) st2))
        as (results & st' & -> & Hlen & Hall).
      eexists (_ :: results), st'. simpl. split; [done|].
      split; [by rewrite Hlen|]. by constructor.
    + rewrite Hrun.
      destruct (IH (count_module acc
                      {| mr_module_path := p; mr_exists := false; patched := false;
                         valid := false; details := None;
                         errors := [ErrFileDoesNotExist p] |}) st)
        as (results & st' & -> & Hlen & Hall).
      eexists (_ :: results), st'. simpl. split; [done|].
      split; [by rewrite Hlen|]. by constructor.
Qed.

Lemma countb_ext {A} (f g : A -> bool) l :
  Forall (fun x => f x = g x) l -> countb f l = countb g l.
Proof. induction 1 as [|x l Hx _ IH]; simpl; [done|]. by rewrite Hx, IH. Qed.

(** X12.  In every result of [verify_driver_installation] the counter of
    patched modules equals the counter of valid modules and
    ['modules_checked'] is the number of modules found.  Hence the status is
    [partially_patched] exactly when some module is valid and some module is
    not, and [not_patched] exactly when modules were found and none is
    valid. *)
Theorem installation_counters driver_version st :
  exists result st',
    verify_driver_installation patch_signatures _find_nvidia_modules
      driver_version st = (Ok result, st') /\
    modules_checked result = length (_find_nvidia_modules st) /\
    modules_patched result = modules_valid result /\
    modules_valid result = countb valid (modules result) /\
    overall_status result =
      match modules result with
      | [] => not_found
      | _ :: _ =>
          if forallb valid (modules result) then fully_patched
          else if existsb valid (modules result) then partially_patched
          else not_patched
      end.
Proof.
  unfold verify_driver_installation, mbind, MS_bind, gets.
  destruct (verify_each_results (_find_nvidia_modules st) driver_version
              (initial_result driver_version) st)
    as (results & st' & Hrun & Hlen & Hall).
  fold (initial_result driver_version). rewrite Hrun.
  eexists _, _. split; [reflexivity|].
  rewrite fold_count_module. unfold set_overall_status. simpl.
  rewrite (countb_ext patched valid results Hall).
  split; [done|]. split; [done|]. split; [done|].
  rewrite countb_full, countb_positive. by destruct results.
Qed.

End VerifierMore.

Section VerifierMoreExamples.
#[local] Existing Instance Samples.dump_hashlib.
Import PatchVerifier PatchVerifierSpec Samples.

Lemma verify_module_verdict_witness :
  exists r st',
    verify_module small_signatures "/m/nvidia.ko" "1.0" (small_host small_patched)
      = (Ok r, st') /\
    valid r = true /\ patched r = true.
Proof.
  destruct (verify_module_verdict small_signatures "/m/nvidia.ko" "1.0"
              (small_host small_patched) small_patched
              {| magic_bytes := [x4e; x56]; patch_offsets := [2%N];
                 expected_changes :=
                   [ {| ch_offset := 2; ch_original := [x85; xc0];
                        ch_patched := [x90; x90] |} ] |})
    as (r & st' & Hrun & Hv & Hp & _).
  - by split.
  - reflexivity.
  - exists r, st'. split; [exact Hrun|]. rewrite Hp, Hv. by split.
Defined.

End VerifierMoreExamples.

Section AnalyzeModule.
Context `{Hashlib}.
Import PatchVerifier PatchVerifierSpec.

#[local] Opaque Py.starts_with Py.unpack_le_u16 Py.slice Py.hex.

(** [details] once size, digest and first bytes have been filled in. *)
Lemma analyze_module_readable module_path st content :
  readable st module_path content ->
  fault st (SysStat module_path) = false ->
  let filled :=
    {| size := Py.len content;
       sha256_hex := sha256_hexdigest (sha256_update sha256_new content);
       magic := Py.hex (take 16 content); architecture := ""; sections := [] |} in
  _analyze_module module_path st =
    if Py.starts_with [x7f; x45; x4c; x46] content then
      match Py.unpack_le_u16 (Py.slice content 18 20) with
      | Some machine =>
          (Ok (set_sections (_find_sections content)
                 (set_architecture (if (machine =? 62)%N then "x86_64" else "x86")
                    filled)), st)
      | None => (Ok filled, add_log (ERROR, MsgAnalyzeError) st)
      end
    else (Ok (set_sections (_find_sections content) filled), st).
Proof.
  intros [Hn Hf] Hstat filled.
  unfold _analyze_module, returning_local, try_except, call, assign, modify,
    mbind, MS_bind.
  rewrite getsize_run, Hstat, Hn. simpl.
  rewrite read_bytes_run, Hf, Hn. simpl.
  rewrite read_bytes_run, Hf, Hn. simpl.
  destruct (Py.starts_with _ content); simpl; [|reflexivity].
  destruct (Py.unpack_le_u16 _); reflexivity.
Qed.

#[local] Transparent Py.starts_with Py.unpack_le_u16 Py.slice Py.hex.

Lemma unpack_header_field content :
  Py.unpack_le_u16 (Py.slice content 18 20) = None <-> length content < 20.
Proof.
  unfold Py.slice. change (N.to_nat (20 - 18)) with 2. change (N.to_nat 18) with 18.
  destruct (take 2 (drop 18 content)) as [|a [|b [|c rest]]] eqn:Ht;
    apply (f_equal length) in Ht; rewrite length_take, length_drop in Ht;
    cbn [length] in Ht; unfold Py.unpack_le_u16;
    (split; [intros Hnone; try discriminate Hnone; lia|intros Hshort; try done; lia]).
Qed.

(** X13.  For a readable file that starts with the ELF magic number,
    [_analyze_module] always fills in size, digest and the hexadecimal dump
    of the first 16 bytes.  With at least 20 bytes the architecture is
    ["x86_64"] when the little-endian 16-bit field at offset 18 is 62 and
    ["x86"] otherwise, and the section names are searched.  With fewer than
    20 bytes unpacking that field raises: the error is logged, the
    architecture stays empty and the section names are not searched at
    all. *)
Theorem analyze_module_elf_header module_path st content
    (Hread : readable st module_path content)
    (Hstat : fault st (SysStat module_path) = false)
    (Helf : Py.starts_with [x7f; x45; x4c; x46] content = true) :
  exists d st',
    _analyze_module module_path st = (Ok d, st') /\
    size d = Py.len content /\
    sha256_hex d = sha256_hexdigest (sha256_update sha256_new content) /\
    magic d = Py.hex (take 16 content) /\
    if bool_decide (length content < 20) then
      architecture d = "" /\ sections d = [] /\
      st' = add_log (ERROR, MsgAnalyzeError) st
    else
      (exists machine,
          Py.unpack_le_u16 (Py.slice content 18 20) = Some machine /\
          architecture d = if (machine =? 62)%N then "x86_64" else "x86") /\
      sections d = _find_sections content /\ st' = st.
Proof.
  rewrite (analyze_module_readable _ _ _ Hread Hstat), Helf.
  destruct (Py.unpack_le_u16 (Py.slice content 18 20)) as [machine|] eqn:Hfield.
  - eexists _, _. split; [reflexivity|]. do 3 (split; [done|]).
    rewrite bool_decide_eq_false_2.
    + split; [by exists machine|done].
    + intros Hshort. apply unpack_header_field in Hshort. congruence.
  - eexists _, _. split; [reflexivity|]. do 3 (split; [done|]).
    rewrite bool_decide_eq_true_2; [done|]. by apply unpack_header_field.
Qed.

Lemma read_chunks_concat fuel data :
  length data <= fuel -> concat (BackupManager.read_chunks fuel data) = data.
Proof.
  revert data. induction fuel as [|fuel IH]; intros data Hlen.
  - destruct data; [done|]. simpl in Hlen. lia.
  - destruct data as [|b data]; [done|].
    change (BackupManager.read_chunks (S fuel) (b :: data))
      with (take 4096 (b :: data)
              :: BackupManager.read_chunks fuel (drop 4096 (b :: data))).
    change (concat (?x :: ?l)) with (x ++ concat l).
    rewrite IH; [apply take_drop|].
    rewrite length_drop. simpl in *. lia.
Qed.

Lemma fold_update_concat chunks h :
  (forall h a b, sha256_update (sha256_update h a) b = sha256_update h (a ++ b)) ->
  (forall h, sha256_update h [] = h) ->
  fold_left sha256_update chunks h = sha256_update h (concat chunks).
Proof.
  intros Hstream Hempty. revert h.
  induction chunks as [|c chunks IH]; intros h; simpl; [by rewrite Hempty|].
  by rewrite IH, Hstream.
Qed.

(** X14.  Reading a file in chunks of 4096 bytes gives the digest of the
    whole content, for every hash object for which feeding data in pieces
    is the same as feeding it at once.  The checksum that the backup manager
    records for a file is then the ['sha256'] that the verifier reports for
    it. *)
Theorem checksum_is_digest_of_content module_path st content
    (Hstream : forall h a b,
        sha256_update (sha256_update h a) b = sha256_update h (a ++ b))
    (Hempty : forall h, sha256_update h [] = h)
    (Hread : readable st module_path content)
    (Hstat : fault st (SysStat module_path) = false) :
  BackupManager.file_digest content =
    sha256_hexdigest (sha256_update sha256_new content) /\
  exists d st',
    _analyze_module module_path st = (Ok d, st') /\
    BackupManager._calculate_checksum module_path st = (Ok (sha256_hex d), st).
Proof.
  assert (Hdigest : BackupManager.file_digest content =
                    sha256_hexdigest (sha256_update sha256_new content)).
  { unfold BackupManager.file_digest.
    by rewrite (fold_update_concat _ _ Hstream Hempty), read_chunks_concat. }
  split; [done|].
  rewrite (calculate_checksum_readable _ _ _ Hread), Hdigest.
  rewrite (analyze_module_readable _ _ _ Hread Hstat).
  destruct (Py.starts_with _ content); [|by eexists _, _].
  destruct (Py.unpack_le_u16 _); by eexists _, _.
Qed.

End AnalyzeModule.

Section AnalyzeModuleExamples.
#[local] Existing Instance Samples.dump_hashlib.
Import PatchVerifier PatchVerifierSpec Samples MoreSamples.

Lemma analyze_module_elf_header_witness :
  exists d st',
    _analyze_module "/m/nvidia.ko" (small_host short_elf) = (Ok d, st') /\
    architecture d = "" /\ sections d = [] /\
    st' = add_log (ERROR, MsgAnalyzeError) (small_host short_elf).
Proof.
  destruct (analyze_module_elf_header "/m/nvidia.ko" (small_host short_elf) short_elf)
    as (d & st' & Hrun & _ & _ & _ & Hcase).
  - by split.
  - reflexivity.
  - reflexivity.
  - exists d, st'. split; [exact Hrun|]. exact Hcase.
Defined.

Lemma checksum_is_digest_of_content_witness :
  exists d st',
    _analyze_module "/m/nvidia.ko" (small_host small_patched) = (Ok d, st') /\
    BackupManager._calculate_checksum "/m/nvidia.ko" (small_host small_patched)
      = (Ok (sha256_hex d), small_host small_patched).
Proof.
  destruct (checksum_is_digest_of_content "/m/nvidia.ko" (small_host small_patched)
              small_patched) as [_ Hagree].
  - intros h a b. simpl. by rewrite <- app_assoc.
  - intros h. simpl. apply app_nil_r.
  - by split.
  - reflexivity.
  - exact Hagree.
Defined.

End AnalyzeModuleExamples.

Section CreateThenLatest.
Context `{Hashlib}.
Import BackupManager BackupManagerSpec LedgerSpec.

Variable backup_dir : string.
Variable get_nvidia_module_paths : driver_info -> state -> result (list string).

Lemma elem_of_dict_set {V} k (v : V) d :
  (k, v) ∈ Dict.set k v d.
Proof.
  induction d as [|[k0 v0] d IH]; simpl; [by left|].
  destruct (String.eqb k k0); [by left|by right].
Qed.

Lemma elem_of_dict_set_inv {V} k (v : V) d k' v' :
  (k', v') ∈ Dict.set k v d -> (k' = k /\ v' = v) \/ (k', v') ∈ d.
Proof.
  induction d as [|[k0 v0] d IH]; simpl.
  - intros Hin%list_elem_of_singleton. left. by simplify_eq.
  - destruct (String.eqb k k0).
    + intros [Hin|Hin]%elem_of_cons; [left; by simplify_eq|right; by right].
    + intros [Hin|Hin]%elem_of_cons; [right; rewrite Hin; by left|].
      destruct (IH Hin) as [?|?]; [by left|right; by right].
Qed.

(** The ledger after a [create_backup] that got to the index update. *)
Lemma create_backup_ledger driver_info timestamp now_iso st files n config_files st1 :
  before_index_update backup_dir get_nvidia_module_paths driver_info timestamp st
    = (Ok (files, n, config_files), st1) ->
  exists r st',
    create_backup backup_dir get_nvidia_module_paths driver_info timestamp now_iso st
      = (Ok r, st') /\
    backup_data st' =
      Dict.set (backup_name_of (di_version driver_info) timestamp)
        (new_entry driver_info timestamp now_iso files config_files)
        (backup_data st).
Proof.
  intros Hreached. rewrite create_backup_run, Hreached.
  pose proof (ledger_kept_before_index_update backup_dir get_nvidia_module_paths
                driver_info timestamp st) as Hkept.
  rewrite Hreached in Hkept. destruct Hkept as (_ & _ & _ & Hdata). simpl in Hdata.
  simpl. destruct (fault st1 SysWriteIndex), (Nat.ltb 0 n);
    eexists _, _; (split; [reflexivity|]); simpl; by rewrite Hdata.
Qed.

(** X15.  A new backup is the one a later restore will use: when
    [create_backup] gets to the index update with a non-empty timestamp that
    is above the timestamps of all other backups of that driver version,
    [_find_latest_backup] for that version then returns the name of the
    new backup. *)
Theorem new_backup_becomes_latest
    driver_info timestamp now_iso st files n config_files st1
    (Hreached : before_index_update backup_dir get_nvidia_module_paths
                  driver_info timestamp st
                = (Ok (files, n, config_files), st1))
    (Hstamp : timestamp <> "")
    (Hnewer : forall item, item ∈ backup_data st ->
                bi_version (snd item) = di_version driver_info ->
                fst item <> backup_name_of (di_version driver_info) timestamp ->
                String.ltb (bi_timestamp (snd item)) timestamp = true) :
  exists r st',
    create_backup backup_dir get_nvidia_module_paths driver_info timestamp now_iso st
      = (Ok r, st') /\
    _find_latest_backup (di_version driver_info) st' =
      (Ok (Some (backup_name_of (di_version driver_info) timestamp)), st').
Proof.
  destruct (create_backup_ledger driver_info timestamp now_iso _ _ _ _ _ Hreached)
    as (r & st' & Hrun & Hdata).
  exists r, st'. split; [done|].
  unfold _find_latest_backup, mbind, MS_bind, gets. simpl.
  set (backup_name := backup_name_of (di_version driver_info) timestamp) in *.
  set (entry := new_entry driver_info timestamp now_iso files config_files) in *.
  pose proof (latest_of_ledger (di_version driver_info) (backup_data st')) as Hlatest.
  assert (Hnew : (backup_name, entry) ∈ backup_data st')
    by (rewrite Hdata; apply elem_of_dict_set).
  destruct (fold_left _ _ _) as [[k|] [t|]]; simpl in *; try done.
  - destruct Hlatest as (info & Hin & [Hv Ht] & -> & Hmax).
    enough (k = backup_name) as -> by reflexivity.
    destruct (decide (k = backup_name)) as [|Hne]; [done|].
    rewrite Hdata in Hin.
    apply elem_of_dict_set_inv in Hin as [[? _]|Hin]; [done|].
    pose proof (Hnewer (k, info) Hin Hv Hne) as Hold. simpl in Hold.
    pose proof (Hmax (backup_name, entry) Hnew eq_refl) as Hge. simpl in Hge.
    congruence.
  - destruct (Hlatest _ Hnew). by split.
Qed.

(** X16.  A deleted backup is never chosen for a restore: after
    [delete_backup] has returned [True] for a name, [_find_latest_backup]
    does not return that name, for any version. *)
Theorem deleted_backup_is_never_latest backup_name version st st'
    (Hwf : Dict.wf (backup_data st))
    (Hdeleted : delete_backup backup_dir backup_name st = (Ok true, st')) :
  fst (_find_latest_backup version st') <> Ok (Some backup_name).
Proof.
  destruct (delete_backup_run backup_dir backup_name st)
    as (deleted & st2 & Hrun & _ & Hres).
  rewrite Hdeleted in Hrun. simplify_eq. destruct Hres as [_ Hdata].
  unfold _find_latest_backup, mbind, MS_bind, gets. simpl. intros [= Hlatest].
  pose proof (latest_of_ledger version (backup_data st2)) as Hinv.
  destruct (fold_left _ _ _) as [[k|] [t|]]; simpl in *; try done.
  simplify_eq. destruct Hinv as (info & Hin & _).
  assert (Hkey : backup_name ∈ Dict.keys (backup_data st2)).
  { unfold Dict.keys. rewrite map_fmap.
    by apply (list_elem_of_fmap_2 fst _ (backup_name, info)). }
  rewrite Hdata in Hkey.
  by apply (dict_keys_del _ _ _ Hwf) in Hkey as [_ Hne].
Qed.

End CreateThenLatest.

Section CreateThenLatestExamples.
#[local] Existing Instance Samples.dump_hashlib.
Import BackupManager BackupManagerSpec Samples.

Lemma new_backup_becomes_latest_witness :
  exists r st',
    create_backup "/b" finds_nvidia_ko driver_535 "20240601_100000"
      "2024-06-01T10:00:00" (one_backup no_faults) = (Ok r, st') /\
    _find_latest_backup "535.274.02" st' =
      (Ok (Some "nvidia_535.274.02_20240601_100000"), st').
Proof.
  destruct (before_index_update "/b" finds_nvidia_ko driver_535 "20240601_100000"
              (one_backup no_faults)) as [[[[files n] config_files]|e] st1] eqn:Hreached.
  - apply (new_backup_becomes_latest "/b" finds_nvidia_ko driver_535
             "20240601_100000" "2024-06-01T10:00:00" (one_backup no_faults)
             files n config_files st1 Hreached).
    + discriminate.
    + intros item Hitem _ _. apply list_elem_of_singleton in Hitem.
      subst item. reflexivity.
  - assert (Hok : exists v, fst (before_index_update "/b" finds_nvidia_ko driver_535
                                   "20240601_100000" (one_backup no_faults)) = Ok v)
      by (eexists; vm_compute; reflexivity).
    destruct Hok as [v Hv]. rewrite Hreached in Hv. discriminate.
Defined.

Lemma deleted_backup_is_never_latest_witness :
  exists st',
    delete_backup "/b" "nvidia_1_20240301_000000" (three_backups no_faults)
      = (Ok true, st') /\
    fst (_find_latest_backup "1" st') <> Ok (Some "nvidia_1_20240301_000000").
Proof.
  destruct (delete_backup "/b" "nvidia_1_20240301_000000" (three_backups no_faults))
    as [r st'] eqn:Hrun.
  assert (r = Ok true) as ->.
  { change r with (fst (r, st')). rewrite <- Hrun. vm_compute. reflexivity. }
  exists st'. split; [reflexivity|].
  apply (deleted_backup_is_never_latest "/b" "nvidia_1_20240301_000000" "1"
           (three_backups no_faults) st'); [|exact Hrun].
  unfold Dict.wf. apply (bool_decide_unpack _). vm_compute. exact I.
Defined.

End CreateThenLatestExamples.

(** * The report of [tools/verify_patch.py] *)

Section ReportFacts.
Context `{Hashlib}.
Import PatchVerifier PatchVerifierSpec PatchReport ReportSpec.

Variable exception_text : string.
Variable json_dumps_module : module_result -> string.
Variable json_dumps_installation : installation_result -> string.
Variable _find_nvidia_modules : state -> list string.

Lemma recommendations_advice status :
  recommendations (status_name status) = advice status.
Proof. by destruct status. Qed.

(** The lines of the report of a full check: they depend on the result
    only, and end with the advice for its status. *)
Lemma report_lines_as_dict result :
  exists body, forall S (s : S),
    report_lines exception_text (as_dict result) s =
      (Ok (body ++ advice (overall_status result)), s).
Proof.
  eexists. intros S s.
  unfold report_lines, as_dict, item, mbind, MS_bind, mret, MS_ret.
  cbn [vr_driver_version vr_modules_checked vr_modules_patched vr_modules_valid
       vr_modules vr_overall_status].
  by rewrite recommendations_advice.
Qed.

Lemma write_text_run p text s st :
  write_text p text (s, st) =
    if can_write s st p
    then (Ok tt, (s, set_nodes (insert p (File (list_byte_of_string text))) st))
    else (Raise (if open_w_fault s p then OSError else IsADirectoryError), (s, st)).
Proof.
  unfold write_text, can_write.
  destruct (open_w_fault s p); [done|]. by destruct (nodes st !! p) as [[]|].
Qed.

Lemma generate_report_run result :
  exists body, forall output_file s st,
    let report_text :=
      Str.join Str.newline (body ++ advice (overall_status result)) in
    generate_report exception_text (as_dict result) output_file (s, st) =
      match Str.given output_file with
      | Some p =>
          if can_write s st p then
            (Ok report_text,
             (add_session_log (INFO, MsgReportSaved p) s,
              set_nodes (insert p (File (list_byte_of_string report_text))) st))
          else
            (Ok report_text, (add_session_log (ERROR, MsgReportSaveError) s, st))
      | None => (Ok report_text, (s, st))
      end.
Proof.
  destruct (report_lines_as_dict result) as [body Hlines].
  exists body. intros output_file s st report_text.
  unfold generate_report, mbind, MS_bind. rewrite Hlines. fold report_text.
  destruct (Str.given output_file) as [p|]; [|reflexivity].
  unfold try_except. rewrite write_text_run.
  by destruct (can_write s st p).
Qed.

Lemma installation_run driver_version st :
  exists result st',
    verify_driver_installation default_patch_signatures _find_nvidia_modules
      driver_version st = (Ok result, st') /\
    overall_status result = precedence (modules result) /\
    only_logged st st'.
Proof.
  pose proof (quiet_verify_each default_patch_signatures
                (_find_nvidia_modules st) driver_version
                (initial_result driver_version) st) as Hquiet.
  unfold verify_driver_installation, mbind, MS_bind, gets.
  destruct (verify_each_run default_patch_signatures (_find_nvidia_modules st)
              driver_version (initial_result driver_version) st)
    as (results & st' & Hrun & _).
  fold (initial_result driver_version). rewrite Hrun in *.
  eexists _, st'. split; [reflexivity|]. split; [|exact Hquiet].
  rewrite status_precedence, fold_count_module. by unfold set_overall_status.
Qed.

(** X17.  Asking for the report of one module always fails: with
    [--module] given and without [--json], [main] raises [KeyError] after
    [verify_module] has run, because the dictionary it hands to
    [generate_report] has no ['driver_version'].  Nothing is printed, no
    report is written, and the host is as [verify_module] left it: only
    the log has grown. *)
Theorem single_module_report_raises args module_path s st
    (Hmodule : Str.given (arg_module args) = Some module_path)
    (Hjson : arg_json args = false) :
  exists st',
    main exception_text json_dumps_module json_dumps_installation
      _find_nvidia_modules args (s, st) = (Raise KeyError, (s, st')) /\
    only_logged st st'.
Proof.
  unfold main. rewrite Hmodule, Hjson.
  pose proof (quiet_verify_module default_patch_signatures module_path
                (arg_version args) st) as Hquiet.
  destruct (verify_module_total default_patch_signatures module_path
              (arg_version args) st) as [result Hresult].
  unfold mbind at 1. unfold MS_bind, call.
  destruct (verify_module _ module_path (arg_version args) st) as [[r|e] st'];
    simpl in Hresult; [|done].
  by exists st'.
Qed.

(** X18.  The text [generate_report] returns for a result of
    [verify_driver_installation] depends on that result only, not on the
    output file or on the host, and the call never raises.  Without an
    output file (none, or the empty string) nothing changes.  With one, the
    file is written with exactly the returned text and this is logged; when
    the file cannot be opened for writing, an error is logged, the disk
    stays as it was and the text is returned all the same.  Nothing is
    printed and the ledger is not touched in any case. *)
Theorem generate_report_saves_what_it_returns result :
  exists report_text, forall output_file s st,
    exists s' st',
      generate_report exception_text (as_dict result) output_file (s, st)
        = (Ok report_text, (s', st')) /\
      stdout s' = stdout s /\ open_w_fault s' = open_w_fault s /\
      ledger_kept st st' /\ log st' = log st /\
      match Str.given output_file with
      | None => session_log s' = session_log s /\ nodes st' = nodes st
      | Some p =>
          if can_write s st p then
            session_log s' = session_log s ++ [(INFO, MsgReportSaved p)] /\
            nodes st' = <[p := File (list_byte_of_string report_text)]> (nodes st)
          else
            session_log s' = session_log s ++ [(ERROR, MsgReportSaveError)] /\
            nodes st' = nodes st
      end.
Proof.
  destruct (generate_report_run result) as [body Hrun].
  eexists. intros output_file s st. rewrite Hrun.
  destruct (Str.given output_file) as [p|]; [destruct (can_write s st p)|];
    eexists _, _; (split; [reflexivity|]); by repeat split.
Qed.

(** X19.  A full check without [--json] never raises and prints exactly
    one text, the report of the result of [verify_driver_installation].
    The report ends with the advice for the precedence of the module
    results: all valid, some patched, none patched, or no module found.
    With [--output] the same text is in the output file when it can be
    opened for writing; otherwise the disk is unchanged. *)
Theorem full_check_prints_report args s st
    (Hfull : Str.given (arg_module args) = None)
    (Hjson : arg_json args = false) :
  exists result st1 body s' st',
    verify_driver_installation default_patch_signatures _find_nvidia_modules
      (arg_version args) st = (Ok result, st1) /\
    main exception_text json_dumps_module json_dumps_installation
      _find_nvidia_modules args (s, st) = (Ok tt, (s', st')) /\
    let report :=
      Str.join Str.newline (body ++ advice (precedence (modules result))) in
    stdout s' = stdout s ++ [report] /\
    match Str.given (arg_output args) with
    | Some p =>
        if can_write s st p
        then nodes st' = <[p := File (list_byte_of_string report)]> (nodes st)
        else nodes st' = nodes st
    | None => nodes st' = nodes st
    end.
Proof.
  unfold main. rewrite Hfull, Hjson.
  destruct (installation_run (arg_version args) st)
    as (result & st1 & Hrun & Hstatus & [(Hnodes & _) _]).
  destruct (generate_report_run result) as [body Hreport].
  exists result, st1, body.
  unfold mbind at 1. unfold MS_bind at 1. unfold call. rewrite Hrun.
  unfold mbind, MS_bind. rewrite Hreport, Hstatus.
  assert (Hwrite : forall p, can_write s st1 p = can_write s st p)
    by (intros p; unfold can_write; by rewrite Hnodes).
  destruct (Str.given (arg_output args)) as [p|].
  - rewrite Hwrite. destruct (can_write s st p);
      eexists _, _; (split; [reflexivity|]); split; [reflexivity| |reflexivity|];
      simpl; by rewrite ?Hnodes.
  - eexists _, _. split; [reflexivity|]. split; [reflexivity|].
    split; [reflexivity|done].
Qed.

End ReportFacts.

Section ReportExamples.
#[local] Existing Instance Samples.dump_hashlib.
Import PatchVerifier PatchVerifierSpec PatchReport ReportSpec Samples MoreSamples.

Lemma single_module_report_raises_witness :
  exists st',
    main "" no_json no_json no_modules module_report_args
      (fresh_session, marked_only) = (Raise KeyError, (fresh_session, st')) /\
    only_logged marked_only st'.
Proof.
  apply (single_module_report_raises "" no_json no_json no_modules
           module_report_args "/m/nvidia.ko" fresh_session marked_only);
    reflexivity.
Defined.

Lemma full_check_prints_report_witness :
  exists result st1 body s' st',
    verify_driver_installation default_patch_signatures no_modules
      "535.274.02" marked_only = (Ok result, st1) /\
    main "" no_json no_json no_modules full_check_args
      (fresh_session, marked_only) = (Ok tt, (s', st')) /\
    let report :=
      Str.join Str.newline (body ++ advice (precedence (modules result))) in
    stdout s' = [report] /\
    nodes st' =
      <["/tmp/report.txt" := File (list_byte_of_string report)]> (nodes marked_only).
Proof.
  apply (full_check_prints_report "" no_json no_json no_modules
           full_check_args fresh_session marked_only); reflexivity.
Defined.

End ReportExamples.

(** * [verify_module_integrity] of [src/driver_detector.py] *)

Section Integrity.
Context `{Hashlib}.
Import PatchVerifier DriverDetector ReportSpec.

Lemma starts_with_take needle content :
  Py.starts_with needle content = true <-> take (length needle) content = needle.
Proof.
  revert content. induction needle as [|a needle IH]; intros [|b content]; simpl;
    try done.
  rewrite andb_true_iff, IH. split.
  - intros [Hab ->]. apply Byte.byte_dec_bl in Hab. by subst.
  - intros [= -> Htake]. split; [apply Byte.byte_dec_lb; done|done].
Qed.

(** What [verify_module_integrity] does, case by case. *)
Lemma verify_module_integrity_run module_path s st :
  let failed := add_session_log (ERROR, MsgIntegrityError module_path) s in
  verify_module_integrity module_path (s, st) =
    match nodes st !! module_path with
    | None => (Ok false, (s, st))
    | Some nd =>
        if fault st (SysStat module_path) then (Ok false, (failed, st))
        else
          match nd with
          | File content =>
              if (Py.len content <? 1024)%N then (Ok false, (s, st))
              else if fault st (SysOpenRead module_path)
                   then (Ok false, (failed, st))
              else (Ok (Py.bytes_eqb (take 4 content) [x7f; x45; x4c; x46]),
                    (s, st))
          | Dir =>
              if (dir_st_size st module_path <? 1024)%N then (Ok false, (s, st))
              else (Ok false, (failed, st))
          end
    end.
Proof.
  intros failed.
  unfold verify_module_integrity, try_except, mbind, MS_bind, call,
    OS.path_exists, gets.
  destruct (nodes st !! module_path) as [nd|] eqn:Hn; simpl.
  - rewrite ?bool_decide_eq_true_2 by (by eexists). simpl.
    rewrite getsize_run, Hn.
    destruct (fault st (SysStat module_path)); [reflexivity|].
    destruct nd as [content|].
    + destruct (Py.len content <? 1024)%N; [reflexivity|].
      rewrite read_bytes_run, Hn.
      destruct (fault st (SysOpenRead module_path)); [reflexivity|].
      by destruct (Py.bytes_eqb _ _).
    + destruct (dir_st_size st module_path <? 1024)%N; [reflexivity|].
      rewrite read_bytes_run, Hn.
      by destruct (fault st (SysOpenRead module_path)).
  - rewrite ?bool_decide_eq_false_2 by (by intros [? ?]). reflexivity.
Qed.

(** X20.  [verify_module_integrity] never raises and never changes the
    host or prints.  It returns [True] exactly for a regular file that can
    be stat-ed and opened, has at least 1024 bytes and starts with the four
    bytes of the ELF magic number; then nothing is logged.  Everything else
    gives [False]: silently for a missing path, a short file or a wrong
    magic number, with one error record when [stat] or [open] raised. *)
Theorem verify_module_integrity_verdict module_path s st :
  exists b s',
    verify_module_integrity module_path (s, st) = (Ok b, (s', st)) /\
    stdout s' = stdout s /\ open_w_fault s' = open_w_fault s /\
    (b = true <->
     exists content,
       nodes st !! module_path = Some (File content) /\
       fault st (SysStat module_path) = false /\
       fault st (SysOpenRead module_path) = false /\
       (1024 <= Py.len content)%N /\
       take 4 content = [x7f; x45; x4c; x46]) /\
    (b = true -> s' = s) /\
    (session_log s' = session_log s \/
     session_log s' = session_log s ++ [(ERROR, MsgIntegrityError module_path)]) /\
    (nodes st !! module_path = None -> s' = s).
Proof.
  rewrite verify_module_integrity_run.
  destruct (nodes st !! module_path) as [[content|]|] eqn:Hn.
  - destruct (fault st (SysStat module_path)) eqn:Hstat.
    { eexists _, _. split; [reflexivity|]. do 2 (split; [done|]).
      split; [|repeat split; (done || (by left) || (by right))]. split; [done|]. intros (c & _ & ? & _). congruence. }
    destruct (Py.len content <? 1024)%N eqn:Hsize.
    { eexists _, _. split; [reflexivity|]. do 2 (split; [done|]).
      split; [|repeat split; (done || (by left) || (by right))]. split; [done|]. intros (c & [= <-] & _ & _ & Hlen & _).
      apply N.ltb_lt in Hsize. lia. }
    destruct (fault st (SysOpenRead module_path)) eqn:Hopen.
    { eexists _, _. split; [reflexivity|]. do 2 (split; [done|]).
      split; [|repeat split; (done || (by left) || (by right))]. split; [done|]. intros (c & _ & _ & ? & _). congruence. }
    eexists _, _. split; [reflexivity|]. do 2 (split; [done|]).
    split; [|repeat split; (done || (by left) || (by right))]. unfold Py.bytes_eqb. rewrite bool_decide_eq_true.
    apply N.ltb_ge in Hsize. split.
    + intros Hmagic. by exists content.
    + by intros (c & [= <-] & _ & _ & _ & Hmagic).
  - destruct (fault st (SysStat module_path)) eqn:Hstat;
      [|destruct (dir_st_size st module_path <? 1024)%N];
      eexists _, _; (split; [reflexivity|]); do 2 (split; [done|]);
      (split; [|repeat split; (done || (by left) || (by right))]); (split; [done|]); by intros (c & [=] & _).
  - eexists _, _. split; [reflexivity|]. do 2 (split; [done|]).
    split; [|repeat split; (done || (by left) || (by right))]. split; [done|]. by intros (c & [=] & _).
Qed.

(** X21.  A module that passes [verify_module_integrity] is one that
    [_analyze_module] can analyse completely: on the same host the analysis
    logs no error, reports a size of at least 1024 bytes, a first-bytes
    dump that begins with [7f454c46], and an architecture, ["x86_64"] or
    ["x86"]. *)
Theorem integrity_checked_module_is_analysed module_path s st s' st'
    (Hintegrity : verify_module_integrity module_path (s, st)
                  = (Ok true, (s', st'))) :
  exists d content,
    nodes st !! module_path = Some (File content) /\
    _analyze_module module_path st = (Ok d, st) /\
    (1024 <= size d)%N /\
    Str.prefix 8 (magic d) = "7f454c46" /\
    (architecture d = "x86_64" \/ architecture d = "x86") /\
    sections d = _find_sections content.
Proof.
  rewrite verify_module_integrity_run in Hintegrity.
  destruct (nodes st !! module_path) as [[content|]|] eqn:Hn;
    [|by destruct (fault st _), (dir_st_size st module_path <? 1024)%N|done].
  destruct (fault st (SysStat module_path)) eqn:Hstat; [done|].
  destruct (Py.len content <? 1024)%N eqn:Hsize; [done|].
  destruct (fault st (SysOpenRead module_path)) eqn:Hopen; [done|].
  injection Hintegrity as Hmagic _ _.
  unfold Py.bytes_eqb in Hmagic. apply bool_decide_eq_true in Hmagic.
  apply N.ltb_ge in Hsize.
  assert (Hlen : 1024 <= length content) by (unfold Py.len in Hsize; lia).
  assert (Helf : Py.starts_with [x7f; x45; x4c; x46] content = true)
    by (by apply starts_with_take).
  assert (Hread : readable st module_path content) by done.
  rewrite (analyze_module_readable module_path st content Hread Hstat), Helf.
  destruct (Py.unpack_le_u16 (Py.slice content 18 20)) as [machine|] eqn:Hfield.
  - eexists _, content. split; [done|]. split; [reflexivity|]. simpl.
    split; [done|].
    split; [|split; [by destruct (machine =? 62)%N; auto|done]].
    destruct content as [|b0 [|b1 [|b2 [|b3 rest]]]]; try discriminate Hmagic.
    by simplify_eq/=.
  - apply unpack_header_field in Hfield. lia.
Qed.

End Integrity.

Section IntegrityExamples.
#[local] Existing Instance Samples.dump_hashlib.
Import PatchVerifier DriverDetector ReportSpec Samples MoreSamples.

Lemma integrity_checked_module_is_analysed_witness :
  exists d,
    _analyze_module "/m/nvidia.ko" (small_host elf_module)
      = (Ok d, small_host elf_module) /\
    (1024 <= size d)%N /\ architecture d = "x86_64".
Proof.
  destruct (integrity_checked_module_is_analysed "/m/nvidia.ko" fresh_session
              (small_host elf_module) fresh_session (small_host elf_module))
    as (d & content & _ & Hrun & Hsize & _ & _ & _).
  - vm_compute. reflexivity.
  - exists d. split; [exact Hrun|]. split; [exact Hsize|].
    assert (Harch : architecture d = architecture
              (match fst (_analyze_module "/m/nvidia.ko" (small_host elf_module)) with
               | Ok d' => d'
               | Raise _ => d
               end)) by (by rewrite Hrun).
    rewrite Harch. vm_compute. reflexivity.
Defined.

End IntegrityExamples.

Section ReportContent.
Context `{Hashlib}.
Import PatchVerifier PatchVerifierSpec PatchReport ReportSpec.

Variable exception_text : string.

Lemma generate_report_text verification_result lines output_file s st :
  report_lines exception_text verification_result (s, st) = (Ok lines, (s, st)) ->
  fst (generate_report exception_text verification_result output_file (s, st))
    = Ok (Str.join Str.newline lines).
Proof.
  intros Hlines. unfold generate_report, mbind, MS_bind. rewrite Hlines.
  destruct (Str.given output_file) as [p|]; [|reflexivity].
  unfold try_except. rewrite write_text_run.
  by destruct (can_write s st p).
Qed.

Lemma module_lines_heading i module :
  (Str.of_nat i +:+ ". " +:+ mr_module_path module)
    ∈ module_lines exception_text i module.
Proof. unfold module_lines. rewrite !elem_of_app. left. by left. Qed.

Lemma module_lines_error i module error :
  error ∈ errors module ->
  ("     - " +:+ error_text exception_text error)
    ∈ module_lines exception_text i module.
Proof.
  intros Hin. unfold module_lines. rewrite !elem_of_app. right. right. left.
  destruct (errors module) as [|e rest] eqn:He; [by apply elem_of_nil in Hin|].
  right. by apply (list_elem_of_fmap_2 (fun error => "     - " +:+ error_text _ error)).
Qed.

Lemma modules_lines_block first modules i module :
  modules !! i = Some module ->
  forall line, line ∈ module_lines exception_text (first + i) module ->
               line ∈ modules_lines exception_text first modules.
Proof.
  revert first i. induction modules as [|m rest IH]; intros first i Hi line Hline;
    [done|].
  change (modules_lines exception_text first (m :: rest))
    with (module_lines exception_text first m
            ++ modules_lines exception_text (S first) rest).
  rewrite elem_of_app. destruct i as [|i]; simpl in Hi.
  - simplify_eq. left. by rewrite Nat.add_0_r in Hline.
  - right. apply (IH (S first) i Hi).
    by replace (S first + i) with (first + S i) by lia.
Qed.

(** X22.  The report leaves no module out.  For a result of
    [verify_driver_installation], whatever the output file, the text
    [generate_report] returns is its lines joined by newlines, and among
    those lines every module of the result has its heading, numbered from 1
    in the order of the result, and one line for each of its errors. *)
Theorem report_lists_every_module result :
  exists lines,
    (forall output_file s st,
        fst (generate_report exception_text (as_dict result) output_file (s, st))
        = Ok (Str.join Str.newline lines)) /\
    forall i module,
      modules result !! i = Some module ->
      (Str.of_nat (S i) +:+ ". " +:+ mr_module_path module) ∈ lines /\
      forall error, error ∈ errors module ->
                    ("     - " +:+ error_text exception_text error) ∈ lines.
Proof.
  eexists. split.
  - intros output_file s st. apply generate_report_text.
    unfold report_lines, as_dict, item, mbind, MS_bind, mret, MS_ret.
    cbn [vr_driver_version vr_modules_checked vr_modules_patched vr_modules_valid
         vr_modules vr_overall_status].
    reflexivity.
  - intros i module Hi.
    pose proof (modules_lines_block 1 (modules result) i module Hi) as Hblock.
    split; [|intros error Herror];
      rewrite !elem_of_app; left; left; right; apply Hblock.
    + apply module_lines_heading.
    + by apply module_lines_error.
Qed.

End ReportContent.

Section FailedBackup.
Context `{Hashlib}.
Import BackupManager BackupManagerSpec LedgerSpec.

Variable backup_dir : string.
Variable get_nvidia_module_paths : driver_info -> state -> result (list string).

Lemma before_index_update_count driver_info timestamp st files success_count
    config_files st1 :
  before_index_update backup_dir get_nvidia_module_paths driver_info timestamp st
    = (Ok (files, success_count, config_files), st1) ->
  success_count = length files.
Proof.
  intros Hreached. unfold before_index_update, mbind, MS_bind in Hreached.
  destruct (OS.mkdir _ st) as [[[]|e] s1]; [|done].
  unfold logger at 1, modify at 1, ask in Hreached.
  destruct (get_nvidia_module_paths driver_info _) as [module_paths|e]; [|done].
  destruct (backup_module_loop _ _ _ _ _) as [[[fs n]|e] s2] eqn:Hloop; [|done].
  destruct (_backup_config_files _ s2) as [[cs|e] s3]; [|done].
  apply backup_module_loop_count in Hloop. simpl in *.
  injection Hreached as <- <- <- <-. lia.
Qed.

(** The entry put last into the ledger is the latest of its version when
    its timestamp is above those of the others. *)
Lemma latest_after_set version backup_name entry (d : ledger) :
  bi_version entry = version ->
  bi_timestamp entry <> "" ->
  (forall item, item ∈ d -> bi_version (snd item) = version ->
                fst item <> backup_name ->
                String.ltb (bi_timestamp (snd item)) (bi_timestamp entry) = true) ->
  fst (fold_left (latest_step version) (Dict.set backup_name entry d)
         (None, None)) = Some backup_name.
Proof.
  intros Hversion Hstamp Hnewer.
  pose proof (latest_of_ledger version (Dict.set backup_name entry d)) as Hlatest.
  pose proof (elem_of_dict_set backup_name entry d) as Hnew.
  destruct (fold_left _ _ _) as [[k|] [t|]]; simpl in *; try done.
  - destruct Hlatest as (info & Hin & [Hv Ht] & -> & Hmax). f_equal.
    destruct (decide (k = backup_name)) as [|Hne]; [done|].
    apply elem_of_dict_set_inv in Hin as [[? _]|Hin]; [done|].
    pose proof (Hnewer (k, info) Hin Hv Hne) as Hold. simpl in Hold.
    pose proof (Hmax (backup_name, entry) Hnew Hversion) as Hge. simpl in Hge.
    congruence.
  - destruct (Hlatest _ Hnew). by split.
Qed.

Lemma elem_of_dict_set_other {V} k (v : V) d item :
  item ∈ d -> fst item <> k -> item ∈ Dict.set k v d.
Proof.
  intros Hin Hne. induction d as [|[k0 v0] d IH]; simpl.
  - by apply elem_of_nil in Hin.
  - apply elem_of_cons in Hin as [->|Hin]; simpl in *.
    + destruct (String.eqb_spec k k0) as [->|_]; [done|by left].
    + destruct (String.eqb k k0); right; [done|by apply IH].
Qed.

(** X23.  A backup that copied no module still hides the older backups.
    When [create_backup] gets to the index update without having copied a
    single module file, it returns [None], yet its entry is in the ledger;
    if its timestamp is not empty and above those of the other backups of
    that version, a [restore_backup] that follows picks this empty backup,
    restores no file and returns [False], although the older backups are
    all still in the ledger. *)
Theorem failed_backup_shadows_older_backups
    driver_info timestamp now_iso st files config_files st1
    (Hreached : before_index_update backup_dir get_nvidia_module_paths
                  driver_info timestamp st
                = (Ok (files, 0, config_files), st1))
    (Hstamp : timestamp <> "")
    (Hnewer : forall item, item ∈ backup_data st ->
                bi_version (snd item) = di_version driver_info ->
                fst item <> backup_name_of (di_version driver_info) timestamp ->
                String.ltb (bi_timestamp (snd item)) timestamp = true) :
  exists st2 st3,
    create_backup backup_dir get_nvidia_module_paths driver_info timestamp now_iso st
      = (Ok None, st2) /\
    restore_backup backup_dir driver_info st2 = (Ok false, st3) /\
    (ERROR, MsgNothingRestored) ∈ log st3 /\
    backup_data st3 =
      Dict.set (backup_name_of (di_version driver_info) timestamp)
        (new_entry driver_info timestamp now_iso [] config_files) (backup_data st) /\
    forall item, item ∈ backup_data st ->
                 fst item <> backup_name_of (di_version driver_info) timestamp ->
                 item ∈ backup_data st3.
Proof.
  pose proof (before_index_update_count _ _ _ _ _ _ _ Hreached) as Hcount.
  destruct files; [clear Hcount|done].
  pose proof (ledger_kept_before_index_update backup_dir get_nvidia_module_paths
                driver_info timestamp st) as Hkept.
  rewrite Hreached in Hkept. destruct Hkept as (_ & _ & _ & Hdata). simpl in Hdata.
  set (backup_name := backup_name_of (di_version driver_info) timestamp) in *.
  set (entry := new_entry driver_info timestamp now_iso [] config_files).
  rewrite create_backup_run, Hreached. fold backup_name entry.
  cbn [Nat.ltb Nat.leb].
  match goal with |- exists st2 st3, (_, ?s) = _ /\ _ => set (st2 := s) end.
  assert (Hdata2 : backup_data st2 = Dict.set backup_name entry (backup_data st)).
  { subst st2. simpl. destruct (fault st1 SysWriteIndex); simpl; by rewrite Hdata. }
  clearbody st2. exists st2.
  assert (Hlatest : _find_latest_backup (di_version driver_info) st2
                    = (Ok (Some backup_name), st2)).
  { unfold _find_latest_backup, mbind, MS_bind, gets, mret, MS_ret.
    by rewrite Hdata2, (latest_after_set (di_version driver_info)). }
  assert (Hget : Dict.get backup_name (backup_data st2) = Some entry)
    by (by rewrite Hdata2, dict_get_set, String.eqb_refl).
  assert (Hname : exists c rest, backup_name = String c rest) by (by eexists _, _).
  destruct Hname as (c & rest & Hname). clearbody backup_name. subst backup_name.
  unfold restore_backup, try_except. unfold mbind at 1. unfold MS_bind at 1.
  rewrite Hlatest. unfold mbind at 1. unfold MS_bind at 1. unfold gets at 1.
  rewrite Hget. unfold mbind at 1. unfold MS_bind at 1.
  unfold logger at 1. unfold modify at 1.
  unfold mbind at 1. unfold MS_bind at 1. cbn [bi_files entry new_entry restore_files].
  unfold mret at 1. unfold MS_ret at 1.
  unfold mbind at 1. unfold MS_bind at 1. cbn [bi_config_files entry new_entry].
  set (st_r := add_log _ st2).
  pose proof (preserves_for_each (A:=config_info) ledger_kept config_files
                restore_config ledger_kept_restore_config st_r) as Hkept.
  destruct (total_for_each config_files restore_config total_restore_config st_r)
    as [[] Hok].
  destruct (for_each config_files restore_config st_r) as [[[]|e] st_c];
    simpl in Hok, Hkept; [|done].
  destruct Hkept as (_ & _ & _ & Hdata3).
  eexists. split; [reflexivity|]. split; [reflexivity|]. simpl.
  split; [apply elem_of_app; right; by left|].
  rewrite Hdata3. subst st_r. simpl. rewrite Hdata2. split; [done|].
  intros item Hitem Hne. by apply elem_of_dict_set_other.
Qed.

End FailedBackup.

Section FailedBackupExamples.
#[local] Existing Instance Samples.dump_hashlib.
Import BackupManager BackupManagerSpec Samples.

Lemma failed_backup_shadows_older_backups_witness :
  exists st2 st3,
    create_backup "/b" finds_nothing driver_535 "20240601_100000"
      "2024-06-01T10:00:00" (one_backup no_faults) = (Ok None, st2) /\
    restore_backup "/b" driver_535 st2 = (Ok false, st3) /\
    ("nvidia_535.274.02_20240101_000000", old_entry) ∈ backup_data st3.
Proof.
  destruct (before_index_update "/b" finds_nothing driver_535 "20240601_100000"
              (one_backup no_faults)) as [r st1] eqn:Hreached.
  assert (Hr : exists config_files, r = Ok ([], 0, config_files)).
  { change r with (fst (r, st1)). rewrite <- Hreached. eexists.
    vm_compute. reflexivity. }
  destruct Hr as [config_files ->].
  destruct (failed_backup_shadows_older_backups "/b" finds_nothing driver_535
              "20240601_100000" "2024-06-01T10:00:00" (one_backup no_faults)
              [] config_files st1 Hreached)
    as (st2 & st3 & Hcreate & Hrestore & _ & _ & Hold).
  - discriminate.
  - intros item Hitem _ _. apply list_elem_of_singleton in Hitem.
    subst item. reflexivity.
  - exists st2, st3. split; [exact Hcreate|]. split; [exact Hrestore|].
    apply Hold; [simpl; by left|simpl; discriminate].
Defined.

End FailedBackupExamples.
